(** * json-table-viewer: the table, view-model and CSV core of [src/app/page.tsx]

    The page component holds a parsed JSON document and asks four questions
    of it: which grid to draw ([getTableStructure]), which tree of nested
    tables, panels and badges to draw ([renderCellWithNestedArrays] and the
    three helpers it is mutually recursive with), which CSV text to hand to
    the browser ([exportToCSV]), and which text to put on the clipboard for a
    row ([copyRecord]).  This file embeds those functions and checks the
    statements of the specification against them.  Its last part covers the
    rest of the component: the collapse state ([toggleTable]), the depth
    figure ([getDepth]), the output area and the statistics under it.

    Modelling conventions.
    - A JavaScript string is a [string]: a sequence of code units, compared
      code unit by code unit (what [Array.prototype.sort] does by default).
    - A Number is carried as its canonical decimal rendering, the text that
      [String(n)] and JSX interpolation produce.  The code never does
      arithmetic on document numbers; it only prints and tests them.
    - An object is its list of own entries in enumeration order, as
      [Object.entries] returns it.  A property read [o[k]] finds the own
      entry and, when there is none, what every object inherits from
      [Object.prototype]: one of its functions, carried as [JFunction], or,
      under [__proto__], the prototype itself.  No document holds a function;
      one arises only as the result of such a read.
    - [undefined] is a value of its own ([JUndefined]): it is what a read of
      a property that is neither owned nor inherited yields, and the code
      tests for it.
    - An exception is a result of its own: [None] where a function returns an
      option, [ExportThrows] for the export. *)

From Stdlib Require Import String Ascii DecimalString.
From stdpp Require Import gmap strings list sorting.

Local Open Scope string_scope.

(** ** Values *)

#[warnings="-register-all"]
Inductive JsonValue : Type :=
| JNull
| JUndefined
| JBool (b : bool)
| JNumber (repr : string)
| JString (s : string)
| JArray (items : list JsonValue)
| JObject (entries : list (string * JsonValue))
| JFunction (name : string).

(** [String(i)] for an array index or a counter. *)
Definition natToString (n : nat) : string :=
  NilZero.string_of_uint (Nat.to_uint n).

Definition numberOfNat (n : nat) : JsonValue := JNumber (natToString n).

(** [typeof v === 'object' && v !== null] *)
Definition isObjectLike (v : JsonValue) : bool :=
  match v with
  | JArray _ | JObject _ => true
  | _ => false
  end.

(** [typeof v === 'object' && v !== null && !Array.isArray(v)] *)
Definition isPlainObject (v : JsonValue) : bool :=
  match v with
  | JObject _ => true
  | _ => false
  end.

Definition isArray (v : JsonValue) : bool :=
  match v with
  | JArray _ => true
  | _ => false
  end.

(** First entry stored under [key]; parsed objects have no duplicate keys. *)
Fixpoint lookupEntry (key : string) (entries : list (string * JsonValue))
  : option JsonValue :=
  match entries with
  | [] => None
  | (k, v) :: rest => if String.eqb k key then Some v else lookupEntry key rest
  end.

(** The functions that every object inherits from [Object.prototype]: the
    property name and the name of the function found there. *)
Definition prototypeFunctions : list (string * string) :=
  [("constructor", "Object");
   ("hasOwnProperty", "hasOwnProperty");
   ("isPrototypeOf", "isPrototypeOf");
   ("propertyIsEnumerable", "propertyIsEnumerable");
   ("toLocaleString", "toLocaleString");
   ("toString", "toString");
   ("valueOf", "valueOf");
   ("__defineGetter__", "__defineGetter__");
   ("__defineSetter__", "__defineSetter__");
   ("__lookupGetter__", "__lookupGetter__");
   ("__lookupSetter__", "__lookupSetter__")].

(** The names at which a read of a parsed object finds something it does not
    own. *)
Definition prototypeNames : list string :=
  "__proto__" :: map fst prototypeFunctions.

Fixpoint lookupName (key : string) (members : list (string * string))
  : option string :=
  match members with
  | [] => None
  | (k, name) :: rest => if String.eqb k key then Some name else lookupName key rest
  end.

(** What a read of [key] finds on [Object.prototype] when the object itself
    has no such key: one of the functions above, or, for [__proto__], whose
    getter answers the prototype of the object, [Object.prototype] itself.
    That object has no enumerable key and nothing in the code tells it from
    an empty object. *)
Definition inheritedMember (key : string) : JsonValue :=
  if String.eqb key "__proto__" then JObject []
  else match lookupName key prototypeFunctions with
       | Some name => JFunction name
       | None => JUndefined
       end.

(** [item[key]]: the own entry, else what the object inherits.  Arrays are
    only ever read at [Packages] and [Vulnerabilities], which no array has,
    so a read of an array yields [undefined]. *)
Definition getProp (item : JsonValue) (key : string) : JsonValue :=
  match item with
  | JObject entries => default (inheritedMember key) (lookupEntry key entries)
  | _ => JUndefined
  end.

(** [Object.keys(item)] of a plain object. *)
Definition objectKeys (item : JsonValue) : list string :=
  match item with
  | JObject entries => map fst entries
  | _ => []
  end.

(** ** Ordering of header names *)

(** [Array.from(allKeys).sort()] on a set of distinct strings: ascending in
    the code-unit order [String.le]. *)
Definition sortKeys (allKeys : gset string) : list string :=
  merge_sort String.le (elements allKeys).

(** ** TableBuilder *)

Record TableStructure : Type := mkTable {
  headers : list string;
  rows : list (list JsonValue)
}.

(** The [data.forEach(item => Object.keys(item).forEach(...))] loop. *)
Definition addKeys (excludeKeys : list string) (allKeys : gset string)
    (item : JsonValue) : gset string :=
  foldl (λ acc key, if decide (key ∈ excludeKeys) then acc else acc ∪ {[key]})
        allKeys (objectKeys item).

Definition collectKeys (data : list JsonValue) (excludeKeys : list string)
  : gset string :=
  foldl (addKeys excludeKeys) ∅ data.

Definition getTableStructure (data : JsonValue) (excludeKeys : list string)
  : TableStructure :=
  match data with
  | JArray [] => mkTable ["Index"; "Value"] []
  | JArray items =>
      if forallb isPlainObject items then
        let hs := sortKeys (collectKeys items excludeKeys) in
        mkTable hs (map (λ item, map (λ header, getProp item header) hs) items)
      else
        mkTable ["Index"; "Value"]
                (imap (λ index item, [numberOfNat index; item]) items)
  | JObject entries =>
      mkTable ["Key"; "Value"]
              (map (λ '(key, value), [JString key; value])
                   (filter (λ '(key, _), key ∉ excludeKeys) entries))
  | _ => mkTable ["Value"] [[data]]
  end.

(** ** ShapeClassifier *)

Definition isNestedStructure (value : JsonValue) : bool :=
  match value with
  | JArray items => negb (Nat.eqb (length items) 0) && forallb isObjectLike items
  | JObject entries => negb (Nat.eqb (length (map fst entries)) 0)
  | _ => false
  end.

(** [!data] *)
Definition isFalsy (v : JsonValue) : bool :=
  match v with
  | JNull | JUndefined => true
  | JBool b => negb b
  | JNumber repr => String.eqb repr "0" || String.eqb repr "NaN"
  | JString s => match s with EmptyString => true | _ => false end
  | JArray _ | JObject _ | JFunction _ => false
  end.

Definition canDisplayAsTable (data : JsonValue) : bool :=
  if isFalsy data then false
  else if isArray data then true
  else isObjectLike data.

(** ** DepthAnalyzer *)

(** [Math.max(...depths)] of a non-empty list of depths. *)
Definition maxDepth (depths : list nat) : nat := foldr Nat.max 0%nat depths.

Fixpoint getDepth (obj : JsonValue) (currentDepth : nat) : nat :=
  match obj with
  | JArray [] => currentDepth
  | JArray items =>
      maxDepth (map (λ item, getDepth item (S currentDepth)) items)
  | JObject [] => currentDepth
  | JObject entries =>
      maxDepth (map (λ '(_, value), getDepth value (S currentDepth)) entries)
  | _ => currentDepth
  end.

(** ** CsvExporter *)

Definition dquote : ascii := "034"%char.
Definition newline : ascii := "010"%char.
Definition backslash : ascii := "092"%char.
Definition comma : ascii := ","%char.

Definition str1 (c : ascii) : string := String c EmptyString.

(** [String(v)]; [None] is the [TypeError] it raises.  An array is joined
    with commas, null and undefined elements giving nothing.  An object is
    converted by its [toString]: the inherited one answers
    [[object Object]]; an own entry named [toString] is found first and,
    being a parsed value, cannot be called, and [valueOf], own or inherited,
    gives no primitive either, so the conversion raises.  A function prints as
    native code. *)
Fixpoint toStr (v : JsonValue) : option string :=
  match v with
  | JNull => Some "null"
  | JUndefined => Some "undefined"
  | JBool b => Some (if b then "true" else "false")
  | JNumber repr => Some repr
  | JString s => Some s
  | JArray items =>
      String.concat ","
        <$> mapM (λ x, match x with
                       | JNull | JUndefined => Some EmptyString
                       | _ => toStr x
                       end) items
  | JObject entries =>
      match lookupEntry "toString" entries with
      | Some _ => None
      | None => Some "[object Object]"
      end
  | JFunction name => Some ("function " ++ name ++ "() { [native code] }")
  end.

(** [JSON.stringify] without indentation. *)
Definition hexDigit (n : N) : ascii :=
  ascii_of_N (if (n <? 10)%N then 48 + n else 87 + n).

Definition quoteJSONChar (c : ascii) : string :=
  let n := N_of_ascii c in
  if (n =? 34)%N then String backslash (str1 dquote)
  else if (n =? 92)%N then String backslash (str1 backslash)
  else if (n =? 8)%N then String backslash "b"
  else if (n =? 9)%N then String backslash "t"
  else if (n =? 10)%N then String backslash "n"
  else if (n =? 12)%N then String backslash "f"
  else if (n =? 13)%N then String backslash "r"
  else if (n <? 32)%N then
    String backslash ("u00" ++ String (hexDigit (n / 16)) (str1 (hexDigit (n mod 16))))
  else str1 c.

Fixpoint quoteJSONBody (s : string) : string :=
  match s with
  | EmptyString => EmptyString
  | String c rest => quoteJSONChar c ++ quoteJSONBody rest
  end.

Definition quoteJSONString (s : string) : string :=
  String dquote (quoteJSONBody s ++ str1 dquote).

Definition isFiniteRepr (repr : string) : bool :=
  negb (String.eqb repr "Infinity" || String.eqb repr "-Infinity"
        || String.eqb repr "NaN").

Fixpoint stringifyValue (v : JsonValue) : option string :=
  match v with
  | JUndefined | JFunction _ => None
  | JNull => Some "null"
  | JBool b => Some (if b then "true" else "false")
  | JNumber repr => Some (if isFiniteRepr repr then repr else "null")
  | JString s => Some (quoteJSONString s)
  | JArray items =>
      Some ("[" ++ String.concat ","
                     (map (λ x, default "null" (stringifyValue x)) items)
                ++ "]")
  | JObject entries =>
      Some ("{" ++ String.concat ","
                     (omap (λ '(k, x),
                            (λ sx, quoteJSONString k ++ ":" ++ sx)
                              <$> stringifyValue x) entries)
                ++ "}")
  end.

Definition JSON_stringify (v : JsonValue) : string :=
  default "undefined" (stringifyValue v).

(** [Array.isArray(v) && v.length > 0 &&
     v.every(item => typeof item === 'object' && item !== null)] *)
Definition isArrayOfObjects (v : JsonValue) : bool :=
  match v with
  | JArray items => negb (Nat.eqb (length items) 0) && forallb isObjectLike items
  | _ => false
  end.

(** [prefix ? `${prefix}.${key}` : key] *)
Definition joinPath (prefix key : string) : string :=
  match prefix with
  | EmptyString => key
  | _ => prefix ++ "." ++ key
  end.

(** [flattened[key] = text] on an object that started as [{}]: the text
    becomes the own property [key], except under the key [__proto__], which
    reaches the setter inherited from [Object.prototype]; given a string, that
    setter does nothing, so nothing is stored. *)
Definition assign (key text : string) (flattened : gmap string string)
  : gmap string string :=
  if String.eqb key "__proto__" then flattened else <[key := text]> flattened.

(** The [for (const [key, value] of Object.entries(obj))] loop of
    [flattenObject] over the entries that are left, [step] being one turn. *)
Definition flattenLoop
    (step : string → JsonValue → gmap string string → option (gmap string string))
    (prefix : string)
  : list (string * JsonValue) → gmap string string → option (gmap string string) :=
  fix loop es flattened :=
    match es with
    | [] => Some flattened
    | (key, value) :: rest =>
        flattened' ← step (joinPath prefix key) value flattened;
        loop rest flattened'
    end.

(** One turn of the loop, with [newKey] already computed; [None] is the
    [TypeError] of a [String(v)] that raises.  The nested-object case runs the
    loop over the nested entries, starting from a fresh object, and merges the
    result with [Object.assign]. *)
Fixpoint flattenEntry (newKey : string) (value : JsonValue)
    (flattened : gmap string string) : option (gmap string string) :=
  match value with
  | JNull | JUndefined => Some (assign newKey EmptyString flattened)
  | JArray items =>
      if Nat.eqb (length items) 0 then Some (assign newKey "[]" flattened)
      else if forallb isObjectLike items then
        Some (assign newKey (JSON_stringify value) flattened)
      else
        texts ← mapM toStr items;
        Some (assign newKey (String.concat "; " texts) flattened)
  | JObject entries =>
      nested ← flattenLoop (λ k v acc, flattenEntry k v acc) newKey entries ∅;
      Some (nested ∪ flattened)
  | _ =>
      text ← toStr value;
      Some (assign newKey text flattened)
  end.

Definition flattenObject (entries : list (string * JsonValue)) (prefix : string)
  : option (gmap string string) :=
  flattenLoop flattenEntry prefix entries ∅.

(** [Object.entries(obj)]; [None] is the [TypeError] raised for [null] and
    [undefined]. *)
Definition objectEntries (obj : JsonValue) : option (list (string * JsonValue)) :=
  match obj with
  | JObject entries => Some entries
  | JArray items => Some (imap (λ i v, (natToString i, v)) items)
  | JString s =>
      Some (imap (λ i c, (natToString i, JString (str1 c))) (list_ascii_of_string s))
  | JBool _ | JNumber _ | JFunction _ => Some []
  | JNull | JUndefined => None
  end.

(** [flattenObject(item)] as [exportToCSV] calls it on an element of [data]. *)
Definition flattenItem (item : JsonValue) : option (gmap string string) :=
  entries ← objectEntries item;
  flattenObject entries EmptyString.

(** [s.replace(/q/g, qq)] where [q] is the double quote: every double quote
    is doubled. *)
Fixpoint replaceQuotes (s : string) : string :=
  match s with
  | EmptyString => EmptyString
  | String c rest =>
      if Ascii.eqb c dquote then String dquote (String dquote (replaceQuotes rest))
      else String c (replaceQuotes rest)
  end.

(** [s.includes(c)] for a one-character needle. *)
Fixpoint includesChar (c : ascii) (s : string) : bool :=
  match s with
  | EmptyString => false
  | String d rest => Ascii.eqb d c || includesChar c rest
  end.

(** The body of [headers.map(header => ...)] after [value] has been read. *)
Definition csvCell (value : string) : string :=
  let escaped := replaceQuotes value in
  if includesChar comma escaped || includesChar dquote escaped
     || includesChar newline escaped
  then String dquote (escaped ++ str1 dquote)
  else escaped.

(** [String(flattened[header] || '')]: the own text, else what the read finds
    on [Object.prototype], else the empty text. *)
Definition cellText (flattened : gmap string string) (header : string) : string :=
  match flattened !! header with
  | Some text => text
  | None =>
      let inherited := inheritedMember header in
      if isFalsy inherited then EmptyString
      else default EmptyString (toStr inherited)
  end.

Definition csvRow (hs : list string) (flattened : gmap string string) : string :=
  String.concat "," (map (λ header, csvCell (cellText flattened header)) hs).

Definition csvHeaders (flats : list (gmap string string)) : list string :=
  sortKeys (foldl (λ allKeys flattened, allKeys ∪ dom flattened) ∅ flats).

Definition csvContent (flats : list (gmap string string)) : string :=
  let hs := csvHeaders flats in
  String.concat (str1 newline) (String.concat "," hs :: map (csvRow hs) flats).

(** What a click on an export button does.  The download's file name carries
    the current date and is not part of the model. *)
Inductive ExportResult : Type :=
| NoExport
| ExportThrows
| Download (content : string).

Definition exportToCSV (data : JsonValue) : ExportResult :=
  if isFalsy data then NoExport
  else match data with
       | JArray items =>
           if Nat.eqb (length items) 0 then NoExport
           else match mapM flattenItem items with
                | None => ExportThrows
                | Some flats => Download (csvContent flats)
                end
       | JObject entries =>
           (* [data.length === 0] reads an own property; otherwise
              [data.forEach] is not a function *)
           match lookupEntry "length" entries with
           | Some (JNumber "0") => NoExport
           | _ => ExportThrows
           end
       | _ => ExportThrows
       end.

(** ** ViewModelBuilder *)

(** The tree the four render functions build, with the styling left out.
    - [Nothing]: the [null] that [renderNestedTable] returns for a value it
      does not draw.
    - [Scalar]: the span of a null, undefined, boolean, number or string.
    - [EmptyArray]: the marker drawn for an empty array.
    - [BadgeList]: the badges of an array that is not an array of objects.
    - [BulletList]: the bulleted list drawn for such an array inside an
      object.
    - [KeyValuePanel]: an object none of whose values is an array of objects.
    - [ExpandedObject]: an object with an array of objects among its values
      and no [Packages] or [Vulnerabilities] key.
    - [TableGroup]: an object with an array of objects among its values and a
      [Packages] or [Vulnerabilities] key: the other entries, then the
      collapsible tables.
    - [Table]: what [renderNestedTable] draws; a row carries its cells and
      what is drawn beneath it: the collapsible tables of its [Packages] and
      [Vulnerabilities], or the text that a falsy number leaves there.
    - [CollapsibleTable]: what [renderCollapsibleTable] draws: the heading
      with title, index and item count, and, only while the table is
      expanded, the grid: its header row and its rows.
    - [StrayNumber]: the number that React draws where a condition of the
      form [flag && element] stops at a falsy number. *)
#[warnings="-register-all"]
Inductive RenderNode : Type :=
| Nothing
| Scalar (v : JsonValue)
| EmptyArray
| BadgeList (items : list RenderNode)
| BulletList (items : list RenderNode)
| KeyValuePanel (entries : list (string * RenderNode))
| ExpandedObject (entries : list (string * RenderNode))
| TableGroup (others : list (string * RenderNode)) (tables : list RenderNode)
| Table (title : string) (columns : list string) (itemCount : nat)
        (body : list (list RenderNode * list RenderNode))
| CollapsibleTable (title : string) (sortIndex : nat) (tableId : string)
        (collapsed : bool) (itemCount : nat)
        (grid : option (list string * list (list RenderNode)))
| StrayNumber (repr : string).

(** [value[rowIndex]] *)
Definition arrayItem (value : JsonValue) (rowIndex : nat) : JsonValue :=
  match value with
  | JArray items => default JUndefined (items !! rowIndex)
  | _ => JUndefined
  end.

(** [value.length] of an array. *)
Definition arrayLength (value : JsonValue) : nat :=
  match value with
  | JArray items => length items
  | _ => 0
  end.

(** [p && Array.isArray(p) && p.length > 0] *)
Definition isNonEmptyArray (p : JsonValue) : bool :=
  match p with
  | JArray (_ :: _) => true
  | _ => false
  end.

(** [p && Array.isArray(p) && p.length > 0]: a falsy [p] is itself the value
    of the conjunction. *)
Definition nonEmptyArrayFlag (p : JsonValue) : JsonValue :=
  if isFalsy p then p else JBool (isNonEmptyArray p).

(** What React draws for [{flag && element}] when [flag] is falsy: nothing
    for false, null, undefined and the empty string, and the number itself
    for a number. *)
Definition falsyChild (flag : JsonValue) : list RenderNode :=
  match flag with
  | JNumber repr => [StrayNumber repr]
  | _ => []
  end.

(** [`${parentRowIndex}`] *)
Definition rowIndexText (parentRowIndex : option nat) : string :=
  match parentRowIndex with
  | Some i => natToString i
  | None => "undefined"
  end.

(** [parentKey || 'Array'] *)
Definition keyOrArray (parentKey : option string) : string :=
  match parentKey with
  | Some (String c rest) => String c rest
  | _ => "Array"
  end.

Definition isTableKey (k : string) : bool :=
  String.eqb k "Packages" || String.eqb k "Vulnerabilities".

(** The comparator of [tableEntries.sort] ranks [Vulnerabilities] 1 and
    [Packages] 2, and only these two keys pass the filter before it; the sort
    is stable. *)
Definition sortTableEntries (tableEntries : list (string * JsonValue))
  : list (string * JsonValue) :=
  (filter (λ '(k, _), k = "Vulnerabilities") tableEntries
   ++ filter (λ '(k, _), k ≠ "Vulnerabilities") tableEntries)%list.

Definition sequence {A : Type} (l : list (option A)) : option (list A) :=
  mapM id l.

Definition labelled (k : string) (r : option RenderNode) : option (string * RenderNode) :=
  (λ node, (k, node)) <$> r.

(** What [renderNestedTable] draws beneath a row, [drawTable] being
    [renderCollapsibleTable]: when [hasPackages || hasVulnerabilities] is
    truthy, the collapsible table of [Vulnerabilities] and then that of
    [Packages], each only if its own flag is truthy; and where a flag or the
    disjunction is a falsy number, React draws that number instead. *)
Definition rowChildren
    (drawTable : string → JsonValue → nat → string → option RenderNode)
    (originalRow : JsonValue) (rowIndex : nat) : option (list RenderNode) :=
  let hasPackages := nonEmptyArrayFlag (getProp originalRow "Packages") in
  let hasVulnerabilities :=
    nonEmptyArrayFlag (getProp originalRow "Vulnerabilities") in
  let either :=
    if isFalsy hasPackages then hasVulnerabilities else hasPackages in
  if isFalsy either then Some (falsyChild either)
  else
    vulnerabilities ←
      (if isFalsy hasVulnerabilities then Some (falsyChild hasVulnerabilities)
       else
         (λ node, [node]) <$>
           drawTable "Vulnerabilities" (getProp originalRow "Vulnerabilities") 1
             ("results-" ++ natToString rowIndex ++ "-Vulnerabilities"));
    packages ←
      (if isFalsy hasPackages then Some (falsyChild hasPackages)
       else
         (λ node, [node]) <$>
           drawTable "Packages" (getProp originalRow "Packages") 2
             ("results-" ++ natToString rowIndex ++ "-Packages"));
    Some (vulnerabilities ++ packages)%list.

(** The four render functions call one another on the cells of the grids
    they draw, which are parts of the value they were given.  They are written
    here with a fuel argument that every call decreases; [render_total] and
    [FuelRefines_le] below show that the fuel never runs out when it is at
    least four times the size of the value, and that the result does not
    depend on it.  The [level] argument of [renderNestedTable] only selects a
    margin and is left out. *)
Section Render.

(** The collapse state is owned by the page and only read here. *)
Variable collapsedTables : gset string.

Fixpoint renderCellWithNestedArrays (fuel : nat) (value : JsonValue)
    (parentKey : option string) (parentRowIndex : option nat) {struct fuel}
  : option RenderNode :=
  match fuel with
  | 0 => None
  | S fuel' =>
    match value with
    | JArray items =>
        if isArrayOfObjects value then
          match parentKey with
          | Some pk =>
              if isTableKey pk then
                renderCollapsibleTable fuel' pk value
                  (if String.eqb pk "Packages" then 2 else 1)
                  ("table-" ++ rowIndexText parentRowIndex ++ "-" ++ pk)
              else renderNestedTable fuel' (keyOrArray parentKey) value
          | None => renderNestedTable fuel' (keyOrArray parentKey) value
          end
        else if negb (Nat.eqb (length items) 0) then
          BadgeList <$>
            mapM (λ item, renderCellValue fuel' item parentKey parentRowIndex) items
        else Some EmptyArray
    | JObject entries =>
        let hasNestedArrays := existsb (λ '(_, v), isArrayOfObjects v) entries in
        if hasNestedArrays then
          if existsb (λ '(k, _), String.eqb k "Packages") entries
             || existsb (λ '(k, _), String.eqb k "Vulnerabilities") entries
          then
            let tableEntries :=
              filter (λ '(k, v), isTableKey k && isArrayOfObjects v) entries in
            let otherEntries :=
              filter (λ '(k, _), negb (isTableKey k)) entries in
            others ← mapM (λ '(k, v),
                if isArrayOfObjects v then labelled k (renderNestedTable fuel' k v)
                else if isPlainObject v then
                  labelled k (renderCellWithNestedArrays fuel' v (Some k) parentRowIndex)
                else labelled k (renderCellValue fuel' v (Some k) parentRowIndex))
              otherEntries;
            tables ← mapM (λ '(k, v),
                renderCollapsibleTable fuel' k v
                  (if String.eqb k "Vulnerabilities" then 1 else 2)
                  ("table-" ++ natToString (default 0 parentRowIndex) ++ "-" ++ k))
              (sortTableEntries tableEntries);
            Some (TableGroup others tables)
          else
            ExpandedObject <$> mapM (λ '(k, v),
                match v with
                | JArray vs =>
                    if isArrayOfObjects v then labelled k (renderNestedTable fuel' k v)
                    else if negb (Nat.eqb (length vs) 0) then
                      labelled k (BulletList <$>
                        mapM (λ item, renderCellValue fuel' item (Some k) parentRowIndex) vs)
                    else Some (k, EmptyArray)
                | JObject _ =>
                    labelled k (renderCellWithNestedArrays fuel' v (Some k) parentRowIndex)
                | _ => labelled k (renderCellValue fuel' v None None)
                end) entries
        else
          KeyValuePanel <$> mapM (λ '(k, v),
              match v with
              | JObject (_ :: _) =>
                  labelled k (renderCellWithNestedArrays fuel' v (Some k) parentRowIndex)
              | JArray vs =>
                  if isArrayOfObjects v then labelled k (renderNestedTable fuel' k v)
                  else if negb (Nat.eqb (length vs) 0) then
                    labelled k (BulletList <$>
                      mapM (λ item, renderCellValue fuel' item (Some k) parentRowIndex) vs)
                  else labelled k (renderCellValue fuel' v None None)
              | _ => labelled k (renderCellValue fuel' v None None)
              end) entries
    | _ => renderCellValue fuel' value parentKey parentRowIndex
    end
  end

with renderNestedTable (fuel : nat) (key : string) (value : JsonValue)
    {struct fuel} : option RenderNode :=
  match fuel with
  | 0 => None
  | S fuel' =>
    if isArrayOfObjects value then
      let excludeKeys :=
        if String.eqb key "Results" then ["Packages"; "Vulnerabilities"] else [] in
      let t := getTableStructure value excludeKeys in
      body ← sequence (imap (λ rowIndex row,
          let originalRow := arrayItem value rowIndex in
          cells ← sequence (imap (λ cellIndex cell,
              renderCellValue fuel' cell (headers t !! cellIndex) (Some rowIndex)) row);
          beneath ← rowChildren (renderCollapsibleTable fuel') originalRow rowIndex;
          Some (cells, beneath)) (rows t));
      Some (Table key (headers t) (arrayLength value) body)
    else Some Nothing
  end

with renderCollapsibleTable (fuel : nat) (key : string) (value : JsonValue)
    (index : nat) (tableId : string) {struct fuel} : option RenderNode :=
  match fuel with
  | 0 => None
  | S fuel' =>
    let isCollapsed := bool_decide (tableId ∈ collapsedTables) in
    let t := getTableStructure value [] in
    grid ← (if isCollapsed then Some None
            else
              body ← sequence (imap (λ rowIndex row,
                   sequence (imap (λ cellIndex cell,
                     renderCellWithNestedArrays fuel' cell
                       (headers t !! cellIndex) (Some rowIndex)) row)) (rows t));
              Some (Some (headers t, body)));
    Some (CollapsibleTable key index tableId isCollapsed (arrayLength value) grid)
  end

with renderCellValue (fuel : nat) (value : JsonValue)
    (parentKey : option string) (parentRowIndex : option nat) {struct fuel}
  : option RenderNode :=
  match fuel with
  | 0 => None
  | S fuel' =>
    match value with
    | JArray _ | JObject _ =>
        renderCellWithNestedArrays fuel' value parentKey parentRowIndex
    | _ => Some (Scalar value)
    end
  end.

End Render.

(** Number of constructors of a value. *)
Fixpoint size (v : JsonValue) : nat :=
  match v with
  | JArray items => S (list_sum (map size items))
  | JObject entries => S (list_sum (map (λ '(_, x), size x) entries))
  | _ => 1
  end.

(** The view model of a whole value: the recursion of
    [renderCellWithNestedArrays] run with fuel that its nesting cannot
    exhaust, no parent key and no row index. *)
Definition buildViewModel (collapsedTables : gset string) (v : JsonValue)
  : option RenderNode :=
  renderCellWithNestedArrays collapsedTables (4 * size v) v None None.

(** ** The CSV dialect in the words of the specification *)

(** The quoting rule in the words of the specification: a cell needs quotes
    when it holds a comma, a double quote or a line feed, and a quoted cell is
    the text with every double quote doubled, between two double quotes. *)
Definition needsQuoting (s : string) : bool :=
  includesChar comma s || includesChar dquote s || includesChar newline s.

(** Every double quote doubled: each character is kept, and a second double
    quote is put after each double quote. *)
Definition doubleQuotes (s : string) : string :=
  string_of_list_ascii
    (flat_map (λ c, if Ascii.eqb c dquote then [dquote; dquote] else [c])
              (list_ascii_of_string s)).

Definition quotedCell (s : string) : string :=
  String dquote (doubleQuotes s ++ str1 dquote).

Definition specCell (s : string) : string :=
  if needsQuoting s then quotedCell s else s.

(** ** The trace of a flattening *)

(** The text written for a value that is not a nested object, as the
    specification lists the cases; [None] when computing it raises. *)
Definition leafText (value : JsonValue) : option string :=
  match value with
  | JNull | JUndefined => Some EmptyString
  | JArray [] => Some "[]"
  | JArray items =>
      if forallb isObjectLike items then Some (JSON_stringify value)
      else String.concat "; " <$> mapM toStr items
  | _ => toStr value
  end.

(** The assignments [flattened[newKey] = text] that one turn of the loop
    attempts, in the order in which it attempts them: one for a leaf, those of
    the nested loop for a nested object.  A text that is [None] stands for
    the exception raised in its place. *)
Fixpoint entryWrites (newKey : string) (value : JsonValue)
  : list (string * option string) :=
  match value with
  | JObject entries =>
      (fix loop (es : list (string * JsonValue)) : list (string * option string) :=
         match es with
         | [] => []
         | (key, v) :: rest =>
             (entryWrites (joinPath newKey key) v ++ loop rest)%list
         end) entries
  | _ => [(newKey, leafText value)]
  end.

Definition flattenWrites (entries : list (string * JsonValue)) (prefix : string)
  : list (string * option string) :=
  flat_map (λ '(key, value), entryWrites (joinPath prefix key) value) entries.

(** The assignments performed one after the other, up to the first that
    raises. *)
Fixpoint applyWrites (flattened : gmap string string)
    (writes : list (string * option string)) : option (gmap string string) :=
  match writes with
  | [] => Some flattened
  | (k, text) :: rest =>
      t ← text;
      applyWrites (assign k t flattened) rest
  end.

(** A key that is not empty and holds no dot. *)
Definition plainKey (k : string) : bool :=
  negb (String.eqb k EmptyString) && negb (includesChar "."%char k).

(** Every key met by the flattening recursion (the keys of the object and of
    the objects nested in it, not those inside arrays) is plain, and no object
    repeats a key. *)
Fixpoint flatKeysOk (v : JsonValue) : bool :=
  match v with
  | JObject entries =>
      bool_decide (NoDup (map fst entries))
      && forallb (λ '(k, x), plainKey k && flatKeysOk x) entries
  | _ => true
  end.

(** What [joinPath] puts in front of the key. *)
Definition pathLead (prefix : string) : string :=
  match prefix with
  | EmptyString => EmptyString
  | _ => prefix ++ "."
  end.

(** The rest of a path after a key: nothing, or a dot and more. *)
Definition pathTail (r : string) : Prop :=
  r = EmptyString ∨ ∃ r', r = String "."%char r'.

(** ** What a node shows *)

(** Every text a node puts on the page: labels, titles, column names and
    scalar leaves. *)
Fixpoint shownValues (node : RenderNode) : list JsonValue :=
  match node with
  | Nothing | EmptyArray => []
  | Scalar v => [v]
  | BadgeList items | BulletList items => flat_map shownValues items
  | KeyValuePanel entries | ExpandedObject entries =>
      flat_map (λ '(k, r), JString k :: shownValues r) entries
  | TableGroup others tables =>
      (flat_map (λ '(k, r), JString k :: shownValues r) others
       ++ flat_map shownValues tables)%list
  | Table title columns _ body =>
      (JString title :: map JString columns
       ++ flat_map (λ '(cells, children),
            flat_map shownValues cells ++ flat_map shownValues children) body)%list
  | CollapsibleTable title _ _ _ _ grid =>
      JString title
      :: match grid with
         | Some (columns, body) =>
             (map JString columns ++ flat_map (flat_map shownValues) body)%list
         | None => []
         end
  | StrayNumber repr => [JNumber repr]
  end.

(** ** Fuel *)

(** Fuel that [renderCellValue] needs for a value. *)
Definition cellFuel (v : JsonValue) : nat :=
  if isObjectLike v then 4 * size v + 1 else 1.

(** What each renderer is proved to do with [n] units of fuel. *)
Definition CellTotal (collapsedTables : gset string) (n : nat) : Prop :=
  ∀ v pk pri, (4 * size v ≤ n)%nat →
    is_Some (renderCellWithNestedArrays collapsedTables n v pk pri).

Definition TableTotal (collapsedTables : gset string) (n : nat) : Prop :=
  ∀ key v, (4 * size v ≤ n + 1)%nat →
    is_Some (renderNestedTable collapsedTables n key v).

Definition CollapsibleTotal (collapsedTables : gset string) (n : nat) : Prop :=
  ∀ key v index tableId, isArray v = true → (4 * size v ≤ n + 1)%nat →
    is_Some (renderCollapsibleTable collapsedTables n key v index tableId).

Definition ValueTotal (collapsedTables : gset string) (n : nat) : Prop :=
  ∀ v pk pri, (cellFuel v ≤ n)%nat →
    is_Some (renderCellValue collapsedTables n v pk pri).

(** [o2] returns whatever [o1] returns. *)
Definition refines {A : Type} (o1 o2 : option A) : Prop :=
  ∀ r, o1 = Some r → o2 = Some r.

(** The renderers with fuel [m] return whatever they return with fuel [n]. *)
Definition FuelRefines (collapsedTables : gset string) (n m : nat) : Prop :=
  (∀ v pk pri, refines (renderCellWithNestedArrays collapsedTables n v pk pri)
                       (renderCellWithNestedArrays collapsedTables m v pk pri))
  ∧ (∀ key v, refines (renderNestedTable collapsedTables n key v)
                      (renderNestedTable collapsedTables m key v))
  ∧ (∀ key v index tableId,
       refines (renderCollapsibleTable collapsedTables n key v index tableId)
               (renderCollapsibleTable collapsedTables m key v index tableId))
  ∧ (∀ v pk pri, refines (renderCellValue collapsedTables n v pk pri)
                         (renderCellValue collapsedTables m v pk pri)).

(** ** Fixtures *)

Definition sparseRecords : list JsonValue :=
  [JObject [("a", JNumber "1")]; JObject [("b", JNumber "2")]].

(** Records of which one lacks a key that [Object.prototype] has. *)
Definition inheritedKeyRecords : list JsonValue :=
  [JObject [("a", JNumber "1")]; JObject [("constructor", JNumber "2")]].

(** A record whose text holds two double quotes. *)
Definition quoteRecord : JsonValue :=
  JObject [("a", JString ("say " ++ str1 dquote ++ "hi" ++ str1 dquote))].

Definition commaRecord : JsonValue :=
  JObject [("a", JString "x,y"); ("b", JNumber "2")].

Definition nestedScalarsRecord : JsonValue :=
  JObject [("a", JObject [("b", JNumber "1"); ("c", JNumber "2")])].

Definition arrayOfObjectsRecord : JsonValue :=
  JObject [("a", JArray [JObject [("x", JNumber "1")]])].

Definition dottedKeyRecord : list (string * JsonValue) :=
  [("a.b", JNumber "1"); ("a", JObject [("b", JNumber "2")])].

Definition resultsDocument : JsonValue :=
  JObject [("Results",
    JArray [JObject [("Name", JString "x");
                     ("Packages", JArray [JObject [("n", JNumber "1")]]);
                     ("Vulnerabilities", JArray [JObject [("id", JNumber "1")]])]])].

(** Documents in which a [Packages] entry is not an array of objects. *)
Definition packagesObjectRecord : JsonValue :=
  JObject [("Packages", JObject [("a", JNumber "42")]);
           ("X", JArray [JObject [("b", JNumber "2")]])].

Definition packagesNumbersRecord : JsonValue :=
  JObject [("Packages", JArray [JNumber "42"]);
           ("X", JArray [JObject [("b", JNumber "2")]])].

Definition resultsPackagesObject : JsonValue :=
  JObject [("Results",
    JArray [JObject [("Name", JString "x");
                     ("Packages", JObject [("a", JNumber "42")])]])].

(** ** Collapse state *)

(** [toggleTable]: the updater passed to [setCollapsedTables] copies the set,
    deletes the identifier when it is there and adds it otherwise. *)
Definition toggleTable (prev : gset string) (tableId : string) : gset string :=
  if decide (tableId ∈ prev) then prev ∖ {[tableId]} else prev ∪ {[tableId]}.

(** ** Labels and titles of a node *)

(** The labels under which an object node lists its entries. *)
Definition nodeLabels (node : RenderNode) : list string :=
  match node with
  | KeyValuePanel entries | ExpandedObject entries => entries.*1
  | TableGroup others _ => others.*1
  | _ => []
  end.

(** The title and index badge of a collapsible table. *)
Definition collapsibleHeading (node : RenderNode) : option (string * nat) :=
  match node with
  | CollapsibleTable title sortIndex _ _ _ _ => Some (title, sortIndex)
  | _ => None
  end.

(** The identifier of a collapsible table and whether it is drawn collapsed. *)
Definition collapsibleState (node : RenderNode) : option (string * bool) :=
  match node with
  | CollapsibleTable _ _ tableId collapsed _ _ => Some (tableId, collapsed)
  | _ => None
  end.

(** ** When an export raises *)

(** [String(v)] raises: [v] is an object with a key named [toString], or an
    array that holds such an object, at any depth of arrays. *)
Fixpoint stringRaises (v : JsonValue) : bool :=
  match v with
  | JObject entries => bool_decide ("toString" ∈ map fst entries)
  | JArray items => existsb stringRaises items
  | _ => false
  end.

(** Flattening the value of an entry raises: the value is, or holds at any
    depth of nested objects, an array with an element that is neither an
    object nor an array and an element on which [String] raises. *)
Fixpoint flattenRaises (value : JsonValue) : bool :=
  match value with
  | JArray items => negb (forallb isObjectLike items) && existsb stringRaises items
  | JObject entries => existsb (λ '(_, v), flattenRaises v) entries
  | _ => false
  end.

(** Flattening an element of the exported array raises: it is null or
    undefined, or flattening one of its values raises. *)
Definition itemRaises (item : JsonValue) : bool :=
  match item with
  | JNull | JUndefined => true
  | JObject entries => existsb (λ '(_, v), flattenRaises v) entries
  | JArray items => existsb flattenRaises items
  | _ => false
  end.


(** ** Rows and records of an export *)

(** What follows a cell in a row: nothing, or a comma and more. *)
Definition rowTail (r : string) : Prop :=
  r = EmptyString ∨ ∃ r', r = String comma r'.

(** A record that the table and the export see alike: an object that repeats
    no key, has no key named [__proto__], and whose values are no objects and
    raise nothing when they are flattened. *)
Definition isFlatRecord (item : JsonValue) : bool :=
  match item with
  | JObject entries =>
      bool_decide (NoDup (map fst entries))
      && bool_decide ("__proto__" ∉ map fst entries)
      && forallb (λ '(_, x), negb (isPlainObject x) && negb (flattenRaises x))
                 entries
  | _ => false
  end.

(** ** The output area of the page *)

(** One section of the page of an object that holds nested structures:
    - [NestedSection]: the table that [renderNestedTable] draws for the value;
    - [ObjectSection]: the Key and Value table of a nested object, with its
      export button and one rendered cell per grid cell (every row also has a
      copy button);
    - [PairSection]: the key beside the rendering of its value. *)
Inductive SectionView : Type :=
| NestedSection (key : string) (table : RenderNode)
| ObjectSection (key : string) (exportButton : bool) (columns : list string)
                (body : list (list RenderNode))
| PairSection (key : string) (node : RenderNode).

(** What the output area shows.  [Placeholder], [InvalidJson] and
    [CannotDisplay] are its three messages; the body of a [StandardTable] is
    [None] for the single row that reads [No data]. *)
Inductive OutputView : Type :=
| Placeholder
| InvalidJson
| CannotDisplay
| Sections (sections : list SectionView)
| StandardTable (exportButton : bool) (columns : list string) (copyColumn : bool)
                (body : option (list (list RenderNode))).

Definition sectionKey (s : SectionView) : string :=
  match s with
  | NestedSection key _ | ObjectSection key _ _ _ | PairSection key _ => key
  end.

(** The test [error ? ... : ...] on the error message of the page state. *)
Definition hasError (error : option string) : bool :=
  match error with
  | Some (String _ _) => true
  | _ => false
  end.

(** [rows.map((row, rowIndex) => row.map((cell, cellIndex) =>
     renderCellWithNestedArrays(cell, headers[cellIndex], rowIndex)))] *)
Definition renderGridBody (collapsedTables : gset string) (fuel : nat)
    (t : TableStructure) : option (list (list RenderNode)) :=
  sequence (imap (λ rowIndex row,
    sequence (imap (λ cellIndex cell,
      renderCellWithNestedArrays collapsedTables fuel cell
        (headers t !! cellIndex) (Some rowIndex)) row)) (rows t)).

(** The body of [entries.map(([key, value]) => ...)] in the sections view. *)
Definition renderSection (collapsedTables : gset string) (fuel : nat)
    (key : string) (value : JsonValue) : option SectionView :=
  let pair :=
    PairSection key
      <$> renderCellWithNestedArrays collapsedTables fuel value (Some key) None in
  if isNestedStructure value then
    nestedTable ← renderNestedTable collapsedTables fuel key value;
    match nestedTable with
    | Nothing =>
        if isPlainObject value then
          let t := getTableStructure value [] in
          body ← renderGridBody collapsedTables fuel t;
          Some (ObjectSection key
                  (isPlainObject value
                   && negb (Nat.eqb (length (objectKeys value)) 0))
                  (headers t) body)
        else pair
    | _ => Some (NestedSection key nestedTable)
    end
  else pair.

(** The standard table of an array or of an object without nested
    structures. *)
Definition renderStandardTable (collapsedTables : gset string) (fuel : nat)
    (parsedData : JsonValue) : option OutputView :=
  let t := getTableStructure parsedData [] in
  let isArrayData := isArray parsedData in
  body ← (if Nat.eqb (length (rows t)) 0 then Some None
          else Some <$> renderGridBody collapsedTables fuel t);
  Some (StandardTable (isArrayData && negb (Nat.eqb (arrayLength parsedData) 0))
                      (headers t) isArrayData body).

(** The output area as a function of the page state: [inputBlank] is
    [!jsonInput.trim()], [error] the error message and [parsedData] the
    parsed document ([null] when there is none). *)
Definition renderOutput (collapsedTables : gset string) (fuel : nat)
    (inputBlank : bool) (error : option string) (parsedData : JsonValue)
  : option OutputView :=
  if inputBlank then Some Placeholder
  else if hasError error then Some InvalidJson
  else if negb (isFalsy parsedData) && canDisplayAsTable parsedData then
    match parsedData with
    | JObject entries =>
        if existsb (λ '(_, value), isNestedStructure value) entries then
          Sections
            <$> mapM (λ '(key, value), renderSection collapsedTables fuel key value)
                     entries
        else renderStandardTable collapsedTables fuel parsedData
    | _ => renderStandardTable collapsedTables fuel parsedData
    end
  else Some CannotDisplay.

(** ** The statistics under the output area *)

Record Stats : Type := mkStats {
  statsType : string;
  statsItems : nat;
  statsDepth : nat
}.

(** [typeof v] *)
Definition typeOf (v : JsonValue) : string :=
  match v with
  | JUndefined => "undefined"
  | JNull | JArray _ | JObject _ => "object"
  | JBool _ => "boolean"
  | JNumber _ => "number"
  | JString _ => "string"
  | JFunction _ => "function"
  end.

(** The statistics are drawn for a truthy [parsedData] only ([None]
    otherwise).  The Size figure counts the bytes of the input text and is
    left out. *)
Definition renderStats (parsedData : JsonValue) : option Stats :=
  if isFalsy parsedData then None
  else Some (mkStats
               (if isArray parsedData then "Array" else typeOf parsedData)
               (if isArray parsedData then arrayLength parsedData
                else length (default [] (objectEntries parsedData)))
               (getDepth parsedData 0)).

(** ** Copying a record *)






(** ** Numbers as [JSON.parse] reads them *)




















(** ** [JSON.parse] *)




















(** ** Records that a copy gives back *)







(** * Properties *)

(** ** Sorting a set of keys *)

Lemma sortKeys_elem_of (allKeys : gset string) (k : string) :
  k ∈ sortKeys allKeys ↔ k ∈ allKeys.
Proof.
  unfold sortKeys. rewrite merge_sort_Permutation. apply elem_of_elements.
Qed.

Lemma sortKeys_NoDup (allKeys : gset string) : NoDup (sortKeys allKeys).
Proof.
  unfold sortKeys. rewrite merge_sort_Permutation. apply NoDup_elements.
Qed.

Lemma sortKeys_sorted (allKeys : gset string) : StronglySorted String.le (sortKeys allKeys).
Proof. apply StronglySorted_merge_sort; apply _. Qed.

(** A duplicate-free ascending list is determined by its members. *)
Lemma sorted_keys_unique (l1 l2 : list string) :
  StronglySorted String.le l1 → StronglySorted String.le l2 →
  NoDup l1 → NoDup l2 → (∀ k, k ∈ l1 ↔ k ∈ l2) → l1 = l2.
Proof.
  intros S1 S2 N1 N2 Hmem.
  apply (StronglySorted_unique String.le); [done | done |].
  by apply NoDup_Permutation.
Qed.

(** ** Keys collected from the records *)

Lemma addKeys_elem_of (excludeKeys : list string) (item : JsonValue)
    (allKeys : gset string) (k : string) :
  k ∈ addKeys excludeKeys allKeys item ↔
  k ∈ allKeys ∨ ((k ∉ excludeKeys) ∧ k ∈ objectKeys item).
Proof.
  unfold addKeys. revert allKeys.
  induction (objectKeys item) as [|key keys IH]; intros allKeys; simpl.
  - set_solver.
  - rewrite IH. destruct (decide (key ∈ excludeKeys)); set_solver.
Qed.

Lemma collectKeys_from_elem_of (excludeKeys : list string) (data : list JsonValue)
    (allKeys : gset string) (k : string) :
  k ∈ foldl (addKeys excludeKeys) allKeys data ↔
  k ∈ allKeys ∨ ((k ∉ excludeKeys) ∧ ∃ item, item ∈ data ∧ k ∈ objectKeys item).
Proof.
  revert allKeys. induction data as [|item data IH]; intros allKeys; simpl.
  - set_solver.
  - rewrite IH, addKeys_elem_of. set_solver.
Qed.

Lemma collectKeys_elem_of (excludeKeys : list string) (data : list JsonValue)
    (k : string) :
  k ∈ collectKeys data excludeKeys ↔
  (k ∉ excludeKeys) ∧ ∃ item, item ∈ data ∧ k ∈ objectKeys item.
Proof.
  unfold collectKeys. rewrite collectKeys_from_elem_of. set_solver.
Qed.

Lemma lookupEntry_None (key : string) (entries : list (string * JsonValue)) :
  lookupEntry key entries = None ↔ key ∉ map fst entries.
Proof.
  induction entries as [|[k v] rest IH]; simpl.
  - split; [intros _; apply not_elem_of_nil | done].
  - destruct (String.eqb_spec k key) as [->|Hne].
    + split; [done | intros H; exfalso; apply H; left].
    + rewrite IH, not_elem_of_cons. naive_solver.
Qed.

Lemma lookupEntry_Some (key : string) (entries : list (string * JsonValue))
    (v : JsonValue) :
  lookupEntry key entries = Some v → (key, v) ∈ entries.
Proof.
  induction entries as [|[k x] rest IH]; simpl; [done|].
  destruct (String.eqb_spec k key) as [->|Hne].
  - intros [= ->]. left.
  - intros H. right. by apply IH.
Qed.

Lemma getTableStructure_records (item : JsonValue) (rest : list JsonValue)
    (excludeKeys : list string) :
  forallb isPlainObject (item :: rest) = true →
  getTableStructure (JArray (item :: rest)) excludeKeys =
  let hs := sortKeys (collectKeys (item :: rest) excludeKeys) in
  mkTable hs (map (λ it, map (λ header, getProp it header) hs) (item :: rest)).
Proof. intros H. unfold getTableStructure. by rewrite H. Qed.

Lemma getProp_present (entries : list (string * JsonValue)) (k : string) :
  k ∈ map fst entries → (k, getProp (JObject entries) k) ∈ entries.
Proof.
  intros Hk. simpl. destruct (lookupEntry k entries) as [v|] eqn:E.
  - by apply lookupEntry_Some.
  - apply lookupEntry_None in E. done.
Qed.

Lemma getProp_absent (entries : list (string * JsonValue)) (k : string) :
  k ∉ map fst entries → getProp (JObject entries) k = inheritedMember k.
Proof. intros Hk. cbn [getProp]. apply lookupEntry_None in Hk. by rewrite Hk. Qed.

Lemma lookupName_None (key : string) (members : list (string * string)) :
  key ∉ map fst members → lookupName key members = None.
Proof.
  induction members as [|[k name] members IH]; [done|]. cbn [map fst lookupName].
  intros [Hne Hk]%not_elem_of_cons.
  destruct (String.eqb_spec k key) as [->|_]; [done|]. by apply IH.
Qed.

Lemma lookupName_Some (key : string) (members : list (string * string)) :
  key ∈ map fst members → is_Some (lookupName key members).
Proof.
  induction members as [|[k name] members IH]; cbn [map fst lookupName].
  - by intros ?%not_elem_of_nil.
  - intros Hk. destruct (String.eqb_spec k key) as [->|Hne]; [by eexists|].
    apply IH. by apply elem_of_cons in Hk as [->|Hk].
Qed.

(** A read of an absent key yields [undefined] exactly when the key names no
    member of [Object.prototype]. *)
Lemma inheritedMember_undefined (k : string) :
  inheritedMember k = JUndefined ↔ k ∉ prototypeNames.
Proof.
  unfold inheritedMember, prototypeNames. rewrite not_elem_of_cons.
  destruct (String.eqb_spec k "__proto__") as [->|Hne].
  - split; [done|]. by intros [? _].
  - split.
    + intros H. split; [done|]. intros Hin.
      apply lookupName_Some in Hin as [name Hname]. by rewrite Hname in H.
    + intros [_ Hk]. by rewrite lookupName_None.
Qed.

(** ** C1: the grid of an array of records *)

(** C1, as stated, fails in two ways.  On the empty array, whose elements are
    (vacuously) all objects, the code answers with the fixed headers Index and
    Value, which are keys of no element.  And the cell of a record under a
    header that the record does not have is not always [undefined]: under a
    header named like a member of [Object.prototype] the read finds that
    member, so the records [{a:1}], [{constructor:2}] give the first row the
    function [Object] in its second cell. *)
Lemma buildTable_counterexamples :
  forallb isPlainObject [] = true
  ∧ headers (getTableStructure (JArray []) []) = ["Index"; "Value"]
  ∧ ¬ (∀ k, k ∈ headers (getTableStructure (JArray []) []) →
            ∃ item, item ∈ @nil JsonValue ∧ k ∈ objectKeys item)
  ∧ forallb isPlainObject inheritedKeyRecords = true
  ∧ ("constructor" ∉ objectKeys (JObject [("a", JNumber "1")]))
  ∧ rows (getTableStructure (JArray inheritedKeyRecords) [])
    = [[JNumber "1"; JFunction "Object"]; [JUndefined; JNumber "2"]]
  ∧ rows (getTableStructure (JArray inheritedKeyRecords) [])
    ≠ [[JNumber "1"; JUndefined]; [JUndefined; JNumber "2"]].
Proof.
  split; [done|]. split; [done|]. split.
  { intros H. destruct (H "Index") as (item & Hin & _).
    - simpl. left.
    - by apply not_elem_of_nil in Hin. }
  split; [done|]. split.
  { cbn [objectKeys map fst]. by intros [=]%list_elem_of_singleton. }
  split; by vm_compute.
Qed.

(** C1 (amended): for every non-empty array whose elements are all objects
    (and not arrays) and every excluded-key set, the headers of
    [getTableStructure] are ascending in code-unit order, without duplicates,
    and hold exactly the keys of the elements that are not excluded; two such
    arrays with the same keys get the same headers, whatever the key order or
    the record that carries each key; there is one row per element, in input
    order, and its cell under a header is the element's value at that key
    or, when the element has no such key, what the element inherits under
    that name: [undefined] for every name but [__proto__] and the names of
    the functions of [Object.prototype], and never [undefined] for those.
    The records [{a:1}], [{b:2}] give headers [a], [b] and rows
    [1, undefined] and [undefined, 2]; the records [{a:1}],
    [{constructor:2}] give headers [a], [constructor] and rows
    [1, the function Object] and [undefined, 2]. *)
Theorem buildTable_array_of_objects :
  (∀ (items : list JsonValue) (excludeKeys : list string),
     items ≠ [] → forallb isPlainObject items = true →
     let t := getTableStructure (JArray items) excludeKeys in
     StronglySorted String.le (headers t) ∧ NoDup (headers t)
     ∧ (∀ k, k ∈ headers t ↔
             (k ∉ excludeKeys) ∧ ∃ item, item ∈ items ∧ k ∈ objectKeys item)
     ∧ (∀ l, StronglySorted String.le l → NoDup l →
          (∀ k, k ∈ l ↔
                (k ∉ excludeKeys) ∧ ∃ item, item ∈ items ∧ k ∈ objectKeys item) →
          headers t = l)
     ∧ (∀ items', items' ≠ [] → forallb isPlainObject items' = true →
          (∀ k, (∃ item, item ∈ items ∧ k ∈ objectKeys item) ↔
                (∃ item, item ∈ items' ∧ k ∈ objectKeys item)) →
          headers (getTableStructure (JArray items') excludeKeys) = headers t)
     ∧ length (rows t) = length items
     ∧ rows t = map (λ item, map (λ header, getProp item header) (headers t)) items
     ∧ (∀ item k, item ∈ items →
          (k ∈ objectKeys item →
             ∃ entries, item = JObject entries ∧ (k, getProp item k) ∈ entries)
          ∧ (k ∉ objectKeys item → getProp item k = inheritedMember k)
          ∧ (k ∉ objectKeys item → k ∉ prototypeNames →
               getProp item k = JUndefined)
          ∧ (k ∉ objectKeys item → k ∈ prototypeNames →
               getProp item k ≠ JUndefined)))
  ∧ getTableStructure (JArray sparseRecords) [] =
    mkTable ["a"; "b"] [[JNumber "1"; JUndefined]; [JUndefined; JNumber "2"]]
  ∧ getTableStructure (JArray inheritedKeyRecords) [] =
    mkTable ["a"; "constructor"]
            [[JNumber "1"; JFunction "Object"]; [JUndefined; JNumber "2"]].
Proof.
  split; [|by split; vm_compute].
  intros items excludeKeys Hne Hobj t.
  assert (Hrecords : ∀ it, it ∈ items → ∃ entries, it = JObject entries).
  { intros it Hin. rewrite forallb_forall in Hobj.
    apply list_elem_of_In, Hobj in Hin. destruct it; try done. by eexists. }
  destruct items as [|item rest]; [done|].
  assert (Ht : t = let hs := sortKeys (collectKeys (item :: rest) excludeKeys) in
            mkTable hs (map (λ it, map (λ header, getProp it header) hs) (item :: rest)))
    by (by apply getTableStructure_records).
  rewrite Ht. cbn [headers rows]. clear t Ht.
  split; [apply sortKeys_sorted|].
  split; [apply sortKeys_NoDup|].
  split; [intros k; rewrite sortKeys_elem_of; apply collectKeys_elem_of|].
  split.
  { intros l Hsorted Hnodup Hmem.
    apply sorted_keys_unique;
      [apply sortKeys_sorted | done | apply sortKeys_NoDup | done |].
    intros k. by rewrite Hmem, sortKeys_elem_of, collectKeys_elem_of. }
  split.
  { intros items' Hne' Hobj' Hsame.
    destruct items' as [|item' rest']; [done|].
    rewrite getTableStructure_records by done. cbn [headers].
    f_equal. apply set_eq. intros k. rewrite !collectKeys_elem_of.
    split; intros [Hk Hex]; (split; [done|]); by apply Hsame. }
  split; [by rewrite length_map|].
  split; [done|].
  intros it k Hin. destruct (Hrecords it Hin) as [entries ->].
  cbn [objectKeys]. split_and!.
  - intros Hk. exists entries. split; [done|]. by apply getProp_present.
  - apply getProp_absent.
  - intros Hk Hproto. rewrite getProp_absent by done.
    by apply inheritedMember_undefined.
  - intros Hk Hproto. rewrite getProp_absent by done.
    intros Hundef. by apply inheritedMember_undefined in Hundef.
Qed.

Lemma buildTable_array_of_objects_witness :
  let items := sparseRecords in
  let t := getTableStructure (JArray items) ["b"] in
  items ≠ [] ∧ forallb isPlainObject items = true
  ∧ (∀ k, k ∈ headers t ↔
          (k ∉ ["b"]) ∧ ∃ item, item ∈ items ∧ k ∈ objectKeys item)
  ∧ length (rows t) = 2.
Proof.
  intros items t.
  assert (Hne : items ≠ []) by done.
  assert (Hobj : forallb isPlainObject items = true) by reflexivity.
  destruct (proj1 buildTable_array_of_objects items ["b"] Hne Hobj)
    as (_ & _ & Hmem & _ & _ & Hlen & _).
  split; [exact Hne|]. split; [exact Hobj|]. split; [exact Hmem|exact Hlen].
Defined.

(** ** C3: which values get a table or a panel of their own *)

(** C3, as stated, fails on an array of arrays: [[[]]] is reported as a nested
    structure although its element is an array and not an object. *)
Lemma isNestedStructure_array_of_arrays :
  isNestedStructure (JArray [JArray []]) = true
  ∧ ¬ ((∃ items, JArray [JArray []] = JArray items ∧ items ≠ []
                 ∧ Forall (λ x, ∃ entries, x = JObject entries) items)
       ∨ (∃ entries, JArray [JArray []] = JObject entries ∧ entries ≠ [])).
Proof.
  split; [reflexivity|].
  intros [(items & [= <-] & _ & Hall) | (entries & [=] & _)].
  apply Forall_cons in Hall as [[entries [=]] _].
Qed.

Lemma isObjectLike_true (x : JsonValue) :
  isObjectLike x = true ↔
  (∃ entries, x = JObject entries) ∨ (∃ elements, x = JArray elements).
Proof.
  destruct x; simpl; split; try done; try (intros [[? [=]]|[? [=]]]); eauto.
Qed.

(** C3 (amended): [isNestedStructure v] is true if and only if [v] is a
    non-empty array all of whose elements are objects or arrays, or [v] is an
    object with at least one key; it is false for every scalar, for null, for
    undefined and for the empty array. *)
Theorem isNestedStructure_iff (v : JsonValue) :
  (isNestedStructure v = true ↔
     (∃ items, v = JArray items ∧ items ≠ []
               ∧ Forall (λ x, (∃ entries, x = JObject entries)
                              ∨ (∃ elements, x = JArray elements)) items)
     ∨ (∃ entries, v = JObject entries ∧ entries ≠ []))
  ∧ isNestedStructure JNull = false
  ∧ isNestedStructure JUndefined = false
  ∧ isNestedStructure (JArray []) = false
  ∧ (∀ b, isNestedStructure (JBool b) = false)
  ∧ (∀ n, isNestedStructure (JNumber n) = false)
  ∧ (∀ s, isNestedStructure (JString s) = false).
Proof.
  split; [|by repeat split].
  destruct v as [| | b | n | s | items | entries | fname]; simpl;
    try (split; [done | by intros [(? & [=] & _) | (? & [=] & _)]]).
  - rewrite andb_true_iff, negb_true_iff, Nat.eqb_neq, forallb_forall.
    split.
    + intros [Hlen Hall]. left. exists items. split; [done|].
      split; [by destruct items|].
      apply Forall_forall. intros x Hx. apply isObjectLike_true.
      apply Hall. by apply list_elem_of_In.
    + intros [(items' & [= <-] & Hne & Hall) | (? & [=] & _)].
      split; [by destruct items|].
      intros x Hx. apply isObjectLike_true.
      eapply Forall_forall in Hall; [exact Hall|]. by apply list_elem_of_In.
  - rewrite negb_true_iff, Nat.eqb_neq, length_map. split.
    + intros Hlen. right. exists entries. split; [done|]. by destruct entries.
    + intros [(? & [=] & _) | (entries' & [= <-] & Hne)]. by destruct entries.
Qed.

(** ** C4: exporting nothing *)

(** C4, as stated, fails on a non-empty array of non-objects: [[1]] is not an
    array of objects, yet a document (an empty header row and one empty data
    row) is handed to the browser. *)
Lemma exportToCSV_array_of_numbers :
  forallb isPlainObject [JNumber "1"] = false
  ∧ exportToCSV (JArray [JNumber "1"]) = Download (str1 newline)
  ∧ exportToCSV (JArray [JNumber "1"]) ≠ NoExport.
Proof. split; [reflexivity|]. split; [by vm_compute|]. by vm_compute. Qed.

(** C4 (amended): for every input value that is null, undefined or an empty
    array, CSV export is a silent no-op: it produces no CSV output and raises
    no exception.  A non-empty array is never a no-op, whatever its
    elements. *)
Theorem exportToCSV_no_data :
  (∀ data, data = JNull ∨ data = JUndefined ∨ data = JArray [] →
           exportToCSV data = NoExport)
  ∧ (∀ items, items ≠ [] → exportToCSV (JArray items) ≠ NoExport).
Proof.
  split.
  - intros data [-> | [-> | ->]]; reflexivity.
  - intros [|item rest] Hne; [done|].
    unfold exportToCSV. cbn [isFalsy length Nat.eqb].
    by destruct (mapM flattenItem (item :: rest)).
Qed.

Lemma exportToCSV_no_data_witness :
  exportToCSV (JArray []) = NoExport
  ∧ exportToCSV (JArray [commaRecord]) ≠ NoExport.
Proof.
  split.
  - apply (proj1 exportToCSV_no_data). right. right. reflexivity.
  - apply (proj2 exportToCSV_no_data). discriminate.
Defined.

(** ** C5: the CSV dialect *)

Lemma includesChar_replaceQuotes (c : ascii) (s : string) :
  includesChar c (replaceQuotes s) = includesChar c s.
Proof.
  induction s as [|d s IH]; [done|]. cbn [replaceQuotes].
  destruct (Ascii.eqb_spec d dquote) as [->|Hd]; cbn [includesChar];
    rewrite IH; [|done].
  by destruct (Ascii.eqb dquote c).
Qed.

Lemma replaceQuotes_no_quote (s : string) :
  includesChar dquote s = false → replaceQuotes s = s.
Proof.
  induction s as [|d s IH]; [done|]. cbn [replaceQuotes includesChar].
  destruct (Ascii.eqb d dquote); cbn [orb]; [done|].
  intros H. by rewrite IH.
Qed.

(** The replacement that the code performs doubles every double quote. *)
Lemma replaceQuotes_doubleQuotes (s : string) : replaceQuotes s = doubleQuotes s.
Proof.
  unfold doubleQuotes. induction s as [|d s IH]; [done|].
  cbn [replaceQuotes list_ascii_of_string flat_map]. rewrite IH.
  by destruct (Ascii.eqb d dquote).
Qed.

(** The code escapes first and tests the escaped text; the specification
    tests the text itself.  Both give the same cell. *)
Lemma csvCell_specCell (s : string) : csvCell s = specCell s.
Proof.
  unfold csvCell, specCell, needsQuoting, quotedCell.
  rewrite <- replaceQuotes_doubleQuotes.
  rewrite !includesChar_replaceQuotes.
  destruct (includesChar comma s || includesChar dquote s
            || includesChar newline s) eqn:E; [done|].
  apply replaceQuotes_no_quote.
  apply orb_false_iff in E as [E _]. by apply orb_false_iff in E as [_ E].
Qed.

Lemma exportToCSV_Download (data : JsonValue) (doc : string) :
  exportToCSV data = Download doc →
  ∃ items flats, data = JArray items ∧ items ≠ []
                 ∧ mapM flattenItem items = Some flats
                 ∧ doc = csvContent flats.
Proof.
  unfold exportToCSV. destruct (isFalsy data); [done|].
  destruct data as [| | b | n | s | items | entries | fname]; try done.
  - destruct items as [|item rest]; [done|]. cbn [length Nat.eqb].
    destruct (mapM flattenItem (item :: rest)) as [flats|] eqn:E; [|done].
    intros [= <-]. by exists (item :: rest), flats.
  - destruct (lookupEntry "length" entries) as [[]|]; try done.
    repeat (match goal with
            | |- context [match ?x with _ => _ end] => destruct x; try done
            end).
Qed.

(** C5: every document that [exportToCSV] produces is the header row followed
    by one row per record, joined with line feeds; a row is its cells joined
    with commas; a cell is its text between double quotes, with each inner
    double quote doubled, exactly when that text holds a comma, a double quote
    or a line feed, and the bare text otherwise.  Doubling keeps every
    character and puts a second double quote after each double quote.
    Exporting [{a:"x,y", b:2}] gives the header row [a,b] and the data row
    with [x,y] quoted and [2] bare; exporting a record whose text holds two
    double quotes gives a quoted cell in which both are doubled. *)
Theorem csv_quoting_rule :
  (∀ data doc, exportToCSV data = Download doc →
     ∃ items flats, data = JArray items
       ∧ mapM flattenItem items = Some flats
       ∧ let hs := csvHeaders flats in
         doc = String.concat (str1 newline)
                 (String.concat "," hs
                  :: map (λ flattened,
                       String.concat ","
                         (map (λ header,
                            let text := cellText flattened header in
                            if needsQuoting text
                            then String dquote (doubleQuotes text ++ str1 dquote)
                            else text) hs)) flats))
  ∧ doubleQuotes EmptyString = EmptyString
  ∧ (∀ s, doubleQuotes (String dquote s)
          = String dquote (String dquote (doubleQuotes s)))
  ∧ (∀ c s, c ≠ dquote → doubleQuotes (String c s) = String c (doubleQuotes s))
  ∧ (∀ s, needsQuoting s = true
          ↔ includesChar comma s = true ∨ includesChar dquote s = true
            ∨ includesChar newline s = true)
  ∧ exportToCSV (JArray [commaRecord]) =
    Download ("a,b" ++ str1 newline
              ++ str1 dquote ++ "x,y" ++ str1 dquote ++ ",2")
  ∧ exportToCSV (JArray [quoteRecord]) =
    Download ("a" ++ str1 newline
              ++ str1 dquote ++ "say " ++ str1 dquote ++ str1 dquote ++ "hi"
              ++ str1 dquote ++ str1 dquote ++ str1 dquote).
Proof.
  split_and!; [|done| | | |by vm_compute..].
  - intros data doc H.
    apply exportToCSV_Download in H as (items & flats & -> & _ & Hflat & ->).
    exists items, flats. split; [done|]. split; [done|].
    cbn zeta. unfold csvContent, csvRow. do 2 f_equal.
    apply map_ext. intros flattened. f_equal.
    apply map_ext. intros header. apply csvCell_specCell.
  - intros s. unfold doubleQuotes. cbn [list_ascii_of_string flat_map].
    by rewrite Ascii.eqb_refl.
  - intros c s Hc. unfold doubleQuotes. cbn [list_ascii_of_string flat_map].
    by destruct (Ascii.eqb_spec c dquote).
  - intros s. unfold needsQuoting. rewrite !orb_true_iff. tauto.
Qed.

Lemma csv_quoting_rule_witness :
  ∃ items flats, JArray [quoteRecord] = JArray items
    ∧ mapM flattenItem items = Some flats
    ∧ let hs := csvHeaders flats in
      "a" ++ str1 newline
      ++ str1 dquote ++ "say " ++ str1 dquote ++ str1 dquote ++ "hi"
      ++ str1 dquote ++ str1 dquote ++ str1 dquote =
      String.concat (str1 newline)
        (String.concat "," hs
         :: map (λ flattened,
              String.concat ","
                (map (λ header,
                   let text := cellText flattened header in
                   if needsQuoting text
                   then String dquote (doubleQuotes text ++ str1 dquote)
                   else text) hs)) flats).
Proof.
  apply (proj1 csv_quoting_rule (JArray [quoteRecord])). by vm_compute.
Defined.

(** ** Induction on values *)

Lemma JsonValue_nested_ind (P : JsonValue → Prop) :
  P JNull → P JUndefined → (∀ b, P (JBool b)) → (∀ n, P (JNumber n)) →
  (∀ s, P (JString s)) →
  (∀ items, Forall P items → P (JArray items)) →
  (∀ entries, Forall (λ e, P e.2) entries → P (JObject entries)) →
  (∀ name, P (JFunction name)) →
  ∀ v, P v.
Proof.
  intros Hnull Hundef Hbool Hnum Hstr Harr Hobj Hfun.
  fix IH 1. intros [| | b | n | s | items | entries | fname].
  - exact Hnull.
  - exact Hundef.
  - apply Hbool.
  - apply Hnum.
  - apply Hstr.
  - apply Harr. induction items as [|x items IHitems]; constructor.
    + apply IH.
    + exact IHitems.
  - apply Hobj. induction entries as [|[k x] entries IHentries]; constructor.
    + apply IH.
    + exact IHentries.
  - apply Hfun.
Qed.

(** ** C6: the flattening rules *)

Lemma flattenEntry_object (newKey : string) (entries : list (string * JsonValue))
    (flattened : gmap string string) :
  flattenEntry newKey (JObject entries) flattened =
  (λ nested, nested ∪ flattened) <$> flattenObject entries newKey.
Proof.
  unfold flattenObject. cbn [flattenEntry].
  change (flattenLoop (λ k v acc, flattenEntry k v acc) newKey entries ∅)
    with (flattenLoop flattenEntry newKey entries ∅).
  by destruct (flattenLoop flattenEntry newKey entries ∅).
Qed.

Lemma flattenLoop_app
    (step : string → JsonValue → gmap string string → option (gmap string string))
    (prefix : string) (es1 es2 : list (string * JsonValue)) :
  ∀ flattened,
    flattenLoop step prefix (es1 ++ es2)%list flattened =
    flattenLoop step prefix es1 flattened ≫= flattenLoop step prefix es2.
Proof.
  induction es1 as [|[k v] es1 IH]; intros flattened; [done|].
  cbn [flattenLoop app]. destruct (step (joinPath prefix k) v flattened); [|done].
  cbn [mbind option_bind]. apply IH.
Qed.

Lemma flattenObject_snoc (entries : list (string * JsonValue)) (prefix key : string)
    (value : JsonValue) :
  flattenObject (entries ++ [(key, value)])%list prefix =
  flattenObject entries prefix ≫= flattenEntry (joinPath prefix key) value.
Proof.
  unfold flattenObject. rewrite flattenLoop_app.
  destruct (flattenLoop flattenEntry prefix entries ∅) as [flattened|]; [|done].
  cbn [mbind option_bind flattenLoop].
  by destruct (flattenEntry (joinPath prefix key) value flattened).
Qed.

Lemma forallb_objectLike_of_objects (items : list JsonValue) :
  Forall (λ x, ∃ entries, x = JObject entries) items →
  forallb isObjectLike items = true.
Proof.
  induction 1 as [|x items [entries ->] _ IH]; [done|]. simpl. exact IH.
Qed.

Lemma forallb_objectLike_of_primitives (x : JsonValue) (items : list JsonValue) :
  Forall (λ y, isObjectLike y = false) (x :: items) →
  forallb isObjectLike (x :: items) = false.
Proof. intros H. apply Forall_cons in H as [Hx _]. simpl. by rewrite Hx. Qed.

Lemma toStr_primitive (x : JsonValue) :
  isObjectLike x = false → is_Some (toStr x).
Proof. destruct x as [| |[]| | | | |]; try done; by eexists. Qed.

Lemma mapM_toStr_primitives (items : list JsonValue) :
  Forall (λ x, isObjectLike x = false) items → is_Some (mapM toStr items).
Proof.
  intros H. apply mapM_is_Some. eapply Forall_impl; [exact H|].
  apply toStr_primitive.
Qed.

(** C6, as stated, fails at the path [__proto__]: the record
    [{"__proto__":"x", "a":1}] has a scalar under that key, yet flattening
    stores nothing for it, and the exported document has the column [a]
    alone. *)
Lemma flatten_proto_key_not_stored :
  flattenObject [("__proto__", JString "x"); ("a", JNumber "1")] EmptyString
  = Some {[ "a" := "1" ]}
  ∧ exportToCSV (JArray [JObject [("__proto__", JString "x"); ("a", JNumber "1")]])
    = Download ("a" ++ str1 newline ++ "1").
Proof. split; by vm_compute. Qed.

(** C6 (amended): [flattenObject] starts from the empty mapping and handles
    the entries in order; the entry [key], [value] is handled at the path
    [key] when the prefix is empty (the top level) and at [prefix.key]
    otherwise: null and undefined assign the empty string there, an empty
    array assigns [[]], a non-empty array of objects or arrays assigns its
    compact JSON text, a non-empty array of primitives assigns its elements'
    string forms joined with [; ], as does every other non-empty array unless
    one of its elements has no string form, in which case the flattening
    raises; a nested object is flattened under the path and merged in, and
    any other scalar assigns its string form.  An assignment stores the text
    at its path, except at the path [__proto__], where it stores nothing.  Exporting [{a:{b:1,c:2}}] gives the header row
    [a.b,a.c] and the row [1,2]; flattening [{a:[{x:1}]}] gives an [a] column
    holding the compact JSON text of the array, which the document carries as
    one quoted cell. *)
Theorem flatten_entry_rules :
  (∀ prefix, flattenObject [] prefix = Some ∅)
  ∧ (∀ entries prefix key value,
       flattenObject (entries ++ [(key, value)])%list prefix =
       flattenObject entries prefix ≫= flattenEntry (joinPath prefix key) value)
  ∧ (∀ key, joinPath EmptyString key = key)
  ∧ (∀ prefix key, prefix ≠ EmptyString → joinPath prefix key = prefix ++ "." ++ key)
  ∧ (∀ path text flattened,
       path ≠ "__proto__" → assign path text flattened = <[path := text]> flattened)
  ∧ (∀ text flattened, assign "__proto__" text flattened = flattened)
  ∧ (∀ path flattened,
       flattenEntry path JNull flattened = Some (assign path EmptyString flattened)
       ∧ flattenEntry path JUndefined flattened
         = Some (assign path EmptyString flattened)
       ∧ flattenEntry path (JArray []) flattened = Some (assign path "[]" flattened)
       ∧ (∀ items, items ≠ [] →
            Forall (λ x, isObjectLike x = true) items →
            flattenEntry path (JArray items) flattened =
            Some (assign path (JSON_stringify (JArray items)) flattened))
       ∧ (∀ items, items ≠ [] →
            Forall (λ x, isObjectLike x = false) items →
            ∃ texts,
              Forall2 (λ x text, toStr x = Some text) items texts
              ∧ flattenEntry path (JArray items) flattened =
                Some (assign path (String.concat "; " texts) flattened))
       ∧ (∀ items, items ≠ [] → forallb isObjectLike items = false →
            flattenEntry path (JArray items) flattened =
            (λ texts, assign path (String.concat "; " texts) flattened)
              <$> mapM toStr items)
       ∧ (∀ entries,
            flattenEntry path (JObject entries) flattened =
            (λ nested, nested ∪ flattened) <$> flattenObject entries path)
       ∧ (∀ b, flattenEntry path (JBool b) flattened =
               Some (assign path (if b then "true" else "false") flattened))
       ∧ (∀ n, flattenEntry path (JNumber n) flattened
               = Some (assign path n flattened))
       ∧ (∀ s, flattenEntry path (JString s) flattened
               = Some (assign path s flattened)))
  ∧ exportToCSV (JArray [nestedScalarsRecord]) =
    Download ("a.b,a.c" ++ str1 newline ++ "1,2")
  ∧ flattenItem arrayOfObjectsRecord =
    Some {[ "a" := "[{" ++ str1 dquote ++ "x" ++ str1 dquote ++ ":1}]" ]}
  ∧ exportToCSV (JArray [arrayOfObjectsRecord]) =
    Download ("a" ++ str1 newline
              ++ csvCell ("[{" ++ str1 dquote ++ "x" ++ str1 dquote ++ ":1}]")).
Proof.
  split; [done|]. split; [apply flattenObject_snoc|].
  split; [done|].
  split; [by intros [|c prefix] key Hne|].
  split.
  { intros path text flattened Hne. unfold assign.
    by destruct (String.eqb_spec path "__proto__"). }
  split; [done|].
  split; [|split_and!; by vm_compute].
  intros path flattened. split_and!.
  - done.
  - done.
  - done.
  - intros [|x items] Hne Hall; [done|].
    cbn [flattenEntry length Nat.eqb].
    assert (Hb : forallb isObjectLike (x :: items) = true).
    { apply forallb_forall. intros y Hy%list_elem_of_In.
      eapply Forall_forall in Hall; [exact Hall|done]. }
    by rewrite Hb.
  - intros [|x items] Hne Hall; [done|].
    cbn [flattenEntry length Nat.eqb].
    rewrite (forallb_objectLike_of_primitives _ _ Hall).
    destruct (mapM_toStr_primitives _ Hall) as [texts Htexts].
    exists texts. split; [by apply mapM_Some|]. by rewrite Htexts.
  - intros [|x items] Hne Hmixed; [done|].
    cbn [flattenEntry length Nat.eqb]. rewrite Hmixed.
    by destruct (mapM toStr (x :: items)).
  - intros entries. apply flattenEntry_object.
  - by intros [].
  - done.
  - done.
Qed.

Lemma flatten_entry_rules_witness :
  joinPath "a" "b" = "a.b"
  ∧ flattenEntry "t" (JArray [JArray []; JObject []]) ∅ = Some (<[ "t" := "[[],{}]" ]> ∅)
  ∧ assign "t" "x" (∅ : gmap string string) = <[ "t" := "x" ]> ∅.
Proof.
  destruct flatten_entry_rules as (_ & _ & _ & Hjoin & Hassign & _ & Hrules & _).
  split; [by apply (Hjoin "a" "b")|].
  destruct (Hrules "t" (∅ : gmap string string))
    as (_ & _ & _ & Hobjs & _).
  split.
  - rewrite (Hobjs [JArray []; JObject []]); [done|done|].
    by repeat constructor.
  - by apply Hassign.
Defined.

(** ** C2: collisions between flattened paths *)

Lemma entryWrites_object (newKey : string) (entries : list (string * JsonValue)) :
  entryWrites newKey (JObject entries) = flattenWrites entries newKey.
Proof.
  unfold flattenWrites. cbn [entryWrites].
  induction entries as [|[k v] entries IH]; [done|]. cbn [flat_map]. by rewrite IH.
Qed.

Lemma applyWrites_app (ws1 ws2 : list (string * option string)) :
  ∀ flattened,
    applyWrites flattened (ws1 ++ ws2)%list =
    applyWrites flattened ws1 ≫= λ m, applyWrites m ws2.
Proof.
  induction ws1 as [|[k [t|]] ws1 IH]; intros flattened; [done| |done].
  cbn [applyWrites app mbind option_bind]. apply IH.
Qed.

Lemma assign_union (k t : string) (flattened : gmap string string) :
  assign k t flattened = assign k t ∅ ∪ flattened.
Proof.
  unfold assign. destruct (k =? "__proto__")%string.
  - by rewrite (left_id_L ∅ (∪)).
  - by rewrite insert_empty, insert_union_singleton_l.
Qed.

Lemma applyWrites_union (ws : list (string * option string)) :
  ∀ flattened,
    applyWrites flattened ws = (λ m, m ∪ flattened) <$> applyWrites ∅ ws.
Proof.
  induction ws as [|[k [t|]] ws IH]; intros flattened.
  - cbn. by rewrite (left_id_L ∅ (∪)).
  - cbn [applyWrites mbind option_bind].
    rewrite (IH (assign k t flattened)), (IH (assign k t ∅)).
    destruct (applyWrites ∅ ws) as [m|]; [|done]. cbn. f_equal.
    by rewrite (assign_union k t flattened), (assoc_L (∪)).
  - done.
Qed.

Lemma flattenEntry_leaf (newKey : string) (value : JsonValue)
    (flattened : gmap string string) :
  isPlainObject value = false →
  flattenEntry newKey value flattened =
  applyWrites flattened [(newKey, leafText value)].
Proof.
  destruct value as [| | b | n | s | items | entries | fname]; try done.
  intros _. destruct items as [|x items]; [done|].
  cbn [flattenEntry leafText length Nat.eqb applyWrites].
  destruct (forallb isObjectLike (x :: items)); [done|].
  by destruct (mapM toStr (x :: items)).
Qed.

Lemma flattenEntry_applyWrites (value : JsonValue) :
  ∀ newKey flattened,
    flattenEntry newKey value flattened =
    applyWrites flattened (entryWrites newKey value).
Proof.
  induction value as [| | b | n | s | items _ | entries IH | fname]
    using JsonValue_nested_ind; intros newKey flattened;
    try (by rewrite flattenEntry_leaf).
  rewrite flattenEntry_object, entryWrites_object, applyWrites_union.
  f_equal. unfold flattenObject, flattenWrites.
  generalize (∅ : gmap string string).
  induction IH as [|[k v] entries Hv _ IHentries]; intros acc; [done|].
  cbn [snd] in Hv. cbn [flattenLoop flat_map]. rewrite applyWrites_app, Hv.
  destruct (applyWrites acc (entryWrites (joinPath newKey k) v)); [|done].
  cbn [mbind option_bind]. apply IHentries.
Qed.

Lemma flattenObject_applyWrites (entries : list (string * JsonValue))
    (prefix : string) :
  flattenObject entries prefix = applyWrites ∅ (flattenWrites entries prefix).
Proof.
  pose proof (flattenEntry_applyWrites (JObject entries) prefix ∅) as H.
  rewrite flattenEntry_object, entryWrites_object in H.
  destruct (flattenObject entries prefix) as [m|];
    destruct (applyWrites ∅ (flattenWrites entries prefix)) as [m'|];
    try done.
  cbn in H. injection H as H. by rewrite !(right_id_L ∅ (∪)) in H; subst.
Qed.

(** The flattening returns exactly when none of its texts raises. *)
Lemma applyWrites_is_Some (ws : list (string * option string)) :
  ∀ flattened,
    is_Some (applyWrites flattened ws) ↔ Forall (λ w, is_Some w.2) ws.
Proof.
  induction ws as [|[k [t|]] ws IH]; intros flattened.
  - split; [constructor | by eexists].
  - cbn [applyWrites mbind option_bind]. rewrite IH, Forall_cons.
    split; [by split; [eexists|] | by intros [_ ?]].
  - cbn. split; [by intros [? ?]|]. intros [[? ?] _]%Forall_cons. done.
Qed.

Lemma assign_lookup_ne (k k' t : string) (flattened : gmap string string) :
  k ≠ k' → assign k' t flattened !! k = flattened !! k.
Proof.
  intros Hne. unfold assign. destruct (k' =? "__proto__")%string; [done|].
  by rewrite lookup_insert_ne.
Qed.

Lemma applyWrites_lookup_other (ws : list (string * option string)) :
  ∀ flattened m k,
    applyWrites flattened ws = Some m → k ∉ ws.*1 → m !! k = flattened !! k.
Proof.
  induction ws as [|[k1 [t|]] ws IH]; intros flattened m k Hm Hk.
  - by injection Hm as <-.
  - cbn [applyWrites mbind option_bind] in Hm.
    rewrite fmap_cons in Hk. apply not_elem_of_cons in Hk as [Hne Hk].
    rewrite (IH _ _ _ Hm Hk). by apply assign_lookup_ne.
  - done.
Qed.

(** Nothing is ever stored under [__proto__]. *)
Lemma applyWrites_proto (ws : list (string * option string)) :
  ∀ flattened m,
    applyWrites flattened ws = Some m →
    m !! "__proto__" = flattened !! "__proto__".
Proof.
  induction ws as [|[k1 [t|]] ws IH]; intros flattened m Hm.
  - by injection Hm as <-.
  - cbn [applyWrites mbind option_bind] in Hm. rewrite (IH _ _ Hm).
    unfold assign. destruct (String.eqb_spec k1 "__proto__") as [->|Hne]; [done|].
    by rewrite lookup_insert_ne.
  - done.
Qed.

(** When no two writes share a path, every write survives in the result,
    unless its path is [__proto__]. *)
Lemma applyWrites_lookup (ws : list (string * option string)) :
  ∀ flattened m k text,
    NoDup ws.*1 → applyWrites flattened ws = Some m → (k, Some text) ∈ ws →
    k ≠ "__proto__" → m !! k = Some text.
Proof.
  induction ws as [|[k1 [t|]] ws IH]; intros flattened m k text Hnd Hm Hin Hk.
  - by apply not_elem_of_nil in Hin.
  - rewrite fmap_cons in Hnd. apply NoDup_cons in Hnd as [Hk1 Hnd].
    cbn [applyWrites mbind option_bind] in Hm.
    apply elem_of_cons in Hin as [[= -> ->]|Hin].
    + cbn [fst] in Hk1. rewrite (applyWrites_lookup_other _ _ _ _ Hm Hk1).
      unfold assign.
      destruct (String.eqb_spec k1 "__proto__") as [->|_]; [done|].
      apply lookup_insert_eq.
    + by eapply IH.
  - done.
Qed.

Lemma string_app_cons (c : ascii) (s t : string) :
  String c s ++ t = String c (s ++ t).
Proof. reflexivity. Qed.

Lemma string_app_nil_l (s : string) : EmptyString ++ s = s.
Proof. reflexivity. Qed.

Lemma string_app_assoc (s1 s2 s3 : string) : (s1 ++ s2) ++ s3 = s1 ++ s2 ++ s3.
Proof.
  induction s1 as [|c s1 IH]; [done|].
  change (String c ((s1 ++ s2) ++ s3) = String c (s1 ++ s2 ++ s3)). by rewrite IH.
Qed.

Lemma string_app_empty_r (s : string) : s ++ EmptyString = s.
Proof.
  induction s as [|c s IH]; [done|].
  change (String c (s ++ EmptyString) = String c s). by rewrite IH.
Qed.

Lemma joinPath_lead (prefix key : string) : joinPath prefix key = pathLead prefix ++ key.
Proof.
  destruct prefix as [|c prefix]; [done|].
  unfold joinPath, pathLead. cbv beta iota. by rewrite string_app_assoc.
Qed.

Lemma plainKey_cons (c : ascii) (k : string) :
  includesChar "."%char (String c k) = false →
  c ≠ "."%char ∧ includesChar "."%char k = false.
Proof.
  cbn [includesChar]. intros H. apply orb_false_iff in H as [Hc Hk].
  split; [|done]. intros ->. by rewrite Ascii.eqb_refl in Hc.
Qed.

Lemma plain_key_determined (k1 : string) :
  ∀ k2 r1 r2,
    includesChar "."%char k1 = false → includesChar "."%char k2 = false →
    pathTail r1 → pathTail r2 → k1 ++ r1 = k2 ++ r2 → k1 = k2.
Proof.
  induction k1 as [|c1 k1 IH]; intros [|c2 k2] r1 r2 H1 H2 T1 T2 E.
  - done.
  - apply plainKey_cons in H2 as [Hc2 _]. cbn in E.
    destruct T1 as [->|[r' ->]]; [done|]. by injection E as <- _.
  - apply plainKey_cons in H1 as [Hc1 _]. cbn in E.
    destruct T2 as [->|[r' ->]]; [done|]. by injection E as -> _.
  - apply plainKey_cons in H1 as [_ H1]. apply plainKey_cons in H2 as [_ H2].
    injection E as -> E. f_equal. exact (IH k2 r1 r2 H1 H2 T1 T2 E).
Qed.

Lemma joinPath_nonempty (prefix key : string) :
  key ≠ EmptyString → joinPath prefix key ≠ EmptyString.
Proof. destruct prefix; [done|]. by intros _. Qed.

Lemma plainKey_spec (k : string) :
  plainKey k = true → k ≠ EmptyString ∧ includesChar "."%char k = false.
Proof.
  unfold plainKey. rewrite andb_true_iff, !negb_true_iff.
  intros [Hne Hdot]. split; [|done]. intros ->. done.
Qed.

(** Every path written for an entry starts with the entry's own path and, if
    it goes on, goes on with a dot. *)
Lemma entryWrites_paths (value : JsonValue) :
  ∀ newKey path, newKey ≠ EmptyString →
    path ∈ (entryWrites newKey value).*1 →
    ∃ r, path = newKey ++ r ∧ pathTail r.
Proof.
  induction value as [| | b | n | s | items _ | entries IH | fname]
    using JsonValue_nested_ind; intros newKey path Hne Hin;
    try (cbn in Hin; apply list_elem_of_singleton in Hin as ->;
         exists EmptyString; split; [by rewrite string_app_empty_r | by left]).
  rewrite entryWrites_object in Hin. unfold flattenWrites in Hin.
  induction IH as [|[k v] entries Hv _ IHentries]; cbn [flat_map] in Hin.
  - by apply not_elem_of_nil in Hin.
  - rewrite fmap_app in Hin. apply elem_of_app in Hin as [Hin|Hin]; [|by apply IHentries].
    apply Hv in Hin as (r & -> & _).
    + exists ("." ++ k ++ r). split; [|right; by exists (k ++ r)].
      destruct newKey as [|c newKey]; [done|].
      unfold joinPath. by rewrite !string_app_assoc.
    + destruct newKey as [|c newKey]; [done|]. by unfold joinPath.
Qed.

Lemma flattenWrites_paths (entries : list (string * JsonValue)) (prefix path : string) :
  Forall (λ e, plainKey e.1 = true) entries →
  path ∈ (flattenWrites entries prefix).*1 →
  ∃ k r, k ∈ entries.*1 ∧ path = pathLead prefix ++ k ++ r ∧ pathTail r.
Proof.
  unfold flattenWrites.
  induction 1 as [|[k v] entries Hk _ IH]; cbn [flat_map]; intros Hin.
  - by apply not_elem_of_nil in Hin.
  - rewrite fmap_app in Hin. apply elem_of_app in Hin as [Hin|Hin].
    + apply plainKey_spec in Hk as [Hne _].
      apply entryWrites_paths in Hin as (r & -> & Hr);
        [|by apply joinPath_nonempty].
      exists k, r. split; [rewrite fmap_cons; left|].
      split; [|done]. by rewrite joinPath_lead, string_app_assoc.
    + destruct (IH Hin) as (k' & r & Hk' & -> & Hr).
      exists k', r. split; [rewrite fmap_cons; by right|done].
Qed.

Lemma flattenWrites_NoDup (entries : list (string * JsonValue)) (prefix : string) :
  Forall (λ e, ∀ newKey, newKey ≠ EmptyString → NoDup (entryWrites newKey e.2).*1)
         entries →
  NoDup entries.*1 →
  Forall (λ e, plainKey e.1 = true) entries →
  NoDup (flattenWrites entries prefix).*1.
Proof.
  induction 1 as [|[k v] entries Hv _ IH]; intros Hnd Hplain.
  - constructor.
  - rewrite fmap_cons in Hnd. apply NoDup_cons in Hnd as [Hfresh Hnd].
    apply Forall_cons in Hplain as [Hk Hplain].
    destruct (plainKey_spec _ Hk) as [Hne Hdot].
    unfold flattenWrites. cbn [flat_map]. rewrite fmap_app. apply NoDup_app.
    split; [by apply Hv, joinPath_nonempty|].
    split; [|by apply IH].
    intros path Hin1 Hin2.
    apply entryWrites_paths in Hin1 as (r1 & -> & Hr1);
      [|by apply joinPath_nonempty].
    apply flattenWrites_paths in Hin2 as (k' & r2 & Hk' & E & Hr2); [|done].
    rewrite joinPath_lead, string_app_assoc in E.
    apply (inj (String.app (pathLead prefix))) in E.
    assert (Hdot' : includesChar "."%char k' = false).
    { apply list_elem_of_fmap in Hk' as ([k2 v2] & -> & Hin).
      eapply Forall_forall in Hplain; [|exact Hin].
      by apply plainKey_spec in Hplain as [_ ?]. }
    apply plain_key_determined in E; [|done..].
    by subst k'.
Qed.

Lemma entryWrites_NoDup (value : JsonValue) :
  flatKeysOk value = true →
  ∀ newKey, newKey ≠ EmptyString → NoDup (entryWrites newKey value).*1.
Proof.
  induction value as [| | b | n | s | items _ | entries IH | fname]
    using JsonValue_nested_ind; intros Hok newKey Hne;
    try (cbn; apply NoDup_singleton).
  cbn [flatKeysOk] in Hok. apply andb_true_iff in Hok as [Hnd Hall].
  apply bool_decide_eq_true in Hnd.
  rewrite entryWrites_object.
  assert (Hall' : Forall (λ e, plainKey e.1 = true ∧ flatKeysOk e.2 = true) entries).
  { apply Forall_forall. intros [k v] Hin.
    rewrite forallb_forall in Hall. apply list_elem_of_In in Hin.
    apply Hall in Hin. by apply andb_true_iff in Hin. }
  apply flattenWrites_NoDup.
  - clear Hnd Hall. induction IH as [|e entries He _ IHentries]; [constructor|].
    apply Forall_cons in Hall' as [[_ Hok] Hall']. constructor; [by apply He|].
    by apply IHentries.
  - exact Hnd.
  - eapply Forall_impl; [exact Hall'|]. by intros e [? _].
Qed.

(** C2, as stated, fails on an object with a dotted key: in
    [{"a.b":1, "a":{"b":2}}] the top-level key and the nested key are both
    written at the path [a.b], and the merge of the nested object overwrites
    the value written first. *)
Lemma flatten_dotted_key_collision :
  NoDup (map fst dottedKeyRecord)
  ∧ flattenWrites dottedKeyRecord EmptyString
    = [("a.b", Some "1"); ("a.b", Some "2")]
  ∧ ¬ NoDup (flattenWrites dottedKeyRecord EmptyString).*1
  ∧ flattenObject dottedKeyRecord EmptyString = Some {[ "a.b" := "2" ]}.
Proof.
  split; [apply (bool_decide_unpack _); by vm_compute|].
  split; [reflexivity|]. split; [|by vm_compute].
  intros Hnd. cbn in Hnd. apply NoDup_cons in Hnd as [Hnotin _].
  apply Hnotin. left.
Qed.

(** C2 (amended): for every object whose keys, and the keys of the objects
    nested in it, are non-empty and hold no dot, the dot-joined paths at which
    flattening assigns are pairwise distinct, so no assignment, and no merge
    of a flattened nested object, replaces a value written earlier.  The
    flattening returns unless one of its texts raises, and when it returns,
    every text assigned at a path other than [__proto__] is in the result at
    its path; at [__proto__] nothing is stored. *)
Theorem flatten_paths_unique (entries : list (string * JsonValue)) (prefix : string) :
  flatKeysOk (JObject entries) = true →
  NoDup (flattenWrites entries prefix).*1
  ∧ flattenObject entries prefix = applyWrites ∅ (flattenWrites entries prefix)
  ∧ (is_Some (flattenObject entries prefix)
     ↔ Forall (λ w, is_Some w.2) (flattenWrites entries prefix))
  ∧ ∀ flattened, flattenObject entries prefix = Some flattened →
      flattened !! "__proto__" = None
      ∧ ∀ path text, (path, Some text) ∈ flattenWrites entries prefix →
                     path ≠ "__proto__" → flattened !! path = Some text.
Proof.
  intros Hok.
  assert (Hnd : NoDup (flattenWrites entries prefix).*1).
  { cbn [flatKeysOk] in Hok. apply andb_true_iff in Hok as [Hnd Hall].
    apply bool_decide_eq_true in Hnd.
    assert (Hall' : Forall (λ e, plainKey e.1 = true ∧ flatKeysOk e.2 = true) entries).
    { apply Forall_forall. intros [k v] Hin.
      rewrite forallb_forall in Hall. apply list_elem_of_In in Hin.
      apply Hall in Hin. by apply andb_true_iff in Hin. }
    apply flattenWrites_NoDup.
    - eapply Forall_impl; [exact Hall'|].
      intros e [_ He]. by apply entryWrites_NoDup.
    - exact Hnd.
    - eapply Forall_impl; [exact Hall'|]. by intros e [? _]. }
  split; [exact Hnd|]. split; [apply flattenObject_applyWrites|].
  rewrite flattenObject_applyWrites.
  split; [apply applyWrites_is_Some|].
  intros flattened Hflat. split.
  - by rewrite (applyWrites_proto _ _ _ Hflat).
  - intros path text Hin Hpath. by eapply applyWrites_lookup.
Qed.

Lemma flatten_paths_unique_witness :
  let entries := [("a", JObject [("b", JNumber "1"); ("__proto__", JNull)]);
                  ("__proto__", JString "e"); ("d", JString "e")] in
  NoDup (flattenWrites entries EmptyString).*1
  ∧ flattenObject entries EmptyString
    = Some {[ "a.b" := "1"; "a.__proto__" := EmptyString; "d" := "e" ]}
  ∧ ∀ flattened, flattenObject entries EmptyString = Some flattened →
      flattened !! "__proto__" = None
      ∧ ∀ path text, (path, Some text) ∈ flattenWrites entries EmptyString →
                     path ≠ "__proto__" → flattened !! path = Some text.
Proof.
  intros entries.
  destruct (flatten_paths_unique entries EmptyString) as (Hnd & _ & _ & Hall);
    [by vm_compute|].
  split; [exact Hnd|]. split; [by vm_compute|exact Hall].
Defined.

(** ** Sizes of the values the renderers descend into *)

Local Open Scope nat_scope.

Lemma size_pos (v : JsonValue) : 1 ≤ size v.
Proof. destruct v; cbn; lia. Qed.

Lemma size_item (items : list JsonValue) (x : JsonValue) :
  x ∈ items → size x < size (JArray items).
Proof.
  cbn [size].
  unfold list_sum.
  induction 1 as [x items|x y items _ IH]; cbn [map fold_right] in *; lia.
Qed.

Lemma size_entry (entries : list (string * JsonValue)) (k : string) (x : JsonValue) :
  (k, x) ∈ entries → size x < size (JObject entries).
Proof.
  cbn [size]. unfold list_sum. remember (k, x) as e eqn:He.
  induction 1 as [e entries|e [k' y] entries _ IH]; subst;
    cbn [map fold_right] in *; [lia|]. specialize (IH eq_refl). lia.
Qed.

Lemma size_inheritedMember (k : string) : size (inheritedMember k) = 1.
Proof.
  unfold inheritedMember. destruct (k =? "__proto__")%string; [done|].
  by destruct (lookupName k prototypeFunctions).
Qed.

Lemma size_getProp (item : JsonValue) (k : string) :
  size (getProp item k) = 1 ∨ size (getProp item k) < size item.
Proof.
  destruct item as [| | | | | |entries | fname]; try by left.
  cbn [getProp]. destruct (lookupEntry k entries) as [v|] eqn:E.
  - right. apply lookupEntry_Some in E. by eapply size_entry.
  - left. apply size_inheritedMember.
Qed.

Lemma size_getProp_le (item : JsonValue) (k : string) :
  size (getProp item k) ≤ size item.
Proof.
  destruct (size_getProp item k) as [->|H]; [apply size_pos|lia].
Qed.

Lemma size_arrayItem (value : JsonValue) (i : nat) :
  arrayItem value i = JUndefined ∨ size (arrayItem value i) < size value.
Proof.
  destruct value as [| | | | |items| | fname]; try by left.
  cbn [arrayItem]. destruct (items !! i) as [x|] eqn:E; [|by left].
  right. apply size_item. by eapply list_elem_of_lookup_2.
Qed.

Lemma isNonEmptyArray_isArray (p : JsonValue) :
  isNonEmptyArray p = true → isArray p = true ∧ p ≠ JUndefined.
Proof. by destruct p as [| | | | |[|x items]| | fname]. Qed.

(** The flag is truthy exactly for a non-empty array. *)
Lemma nonEmptyArrayFlag_truthy (p : JsonValue) :
  isFalsy (nonEmptyArrayFlag p) = negb (isNonEmptyArray p).
Proof.
  unfold nonEmptyArrayFlag. destruct (isFalsy p) eqn:Hp; [|done].
  rewrite Hp. by destruct p as [| | | | |[|x items]| |].
Qed.

Lemma isArrayOfObjects_isArray (v : JsonValue) :
  isArrayOfObjects v = true → isArray v = true.
Proof. by destruct v. Qed.

(** A sub-table drawn beneath a row is two levels below the array. *)
Lemma size_row_table (value : JsonValue) (i : nat) (k : string) :
  isNonEmptyArray (getProp (arrayItem value i) k) = true →
  size (getProp (arrayItem value i) k) + 2 ≤ size value.
Proof.
  intros H.
  assert (Hsize : 2 ≤ size (getProp (arrayItem value i) k)).
  { destruct (getProp (arrayItem value i) k) as [| | | | |[|x items]| |];
      try done. pose proof (size_pos x). cbn [size list_sum map foldr]. lia. }
  destruct (size_getProp (arrayItem value i) k) as [?|H1]; [lia|].
  destruct (size_arrayItem value i) as [E|H2]; [|lia].
  rewrite E in H. done.
Qed.

(** Every cell of the grid of an array is smaller than the array. *)
Lemma getTableStructure_cell_size (items : list JsonValue) (excludeKeys : list string)
    (row : list JsonValue) (cell : JsonValue) :
  row ∈ rows (getTableStructure (JArray items) excludeKeys) → cell ∈ row →
  size cell < size (JArray items).
Proof.
  destruct items as [|x items]; [by intros ?%not_elem_of_nil|].
  cbn [getTableStructure]. destruct (forallb isPlainObject (x :: items)); cbn [rows].
  - intros Hrow Hcell. apply list_elem_of_In, in_map_iff in Hrow as (item & <- & Hitem).
    apply list_elem_of_In, in_map_iff in Hcell as (header & <- & _).
    apply list_elem_of_In, size_item in Hitem.
    pose proof (size_getProp_le item header). lia.
  - intros Hrow Hcell. apply elem_of_lookup_imap in Hrow as (i & item & -> & Hitem).
    apply list_elem_of_lookup_2, size_item in Hitem.
    apply elem_of_cons in Hcell as [->|Hcell].
    + pose proof (size_pos item). change (size (numberOfNat i)) with 1. lia.
    + apply list_elem_of_singleton in Hcell as ->. done.
Qed.

(** ** Combinators of the option monad *)

Lemma sequence_imap_is_Some {A B : Type} (f : nat → A → option B) (l : list A) :
  (∀ i x, l !! i = Some x → is_Some (f i x)) → is_Some (sequence (imap f l)).
Proof.
  intros H. unfold sequence. apply mapM_is_Some, Forall_forall.
  intros r Hr. apply elem_of_lookup_imap in Hr as (i & x & -> & Hx).
  by apply H.
Qed.

Lemma mapM_is_Some_elem {A B : Type} (f : A → option B) (l : list A) :
  (∀ x, x ∈ l → is_Some (f x)) → is_Some (mapM f l).
Proof. intros H. by apply mapM_is_Some, Forall_forall. Qed.

Lemma labelled_is_Some (k : string) (r : option RenderNode) :
  is_Some r → is_Some (labelled k r).
Proof. intros [node ->]. by eexists. Qed.

Lemma sequence_imap_Some {A B : Type} (f : nat → A → option B) (l : list A)
    (body : list B) :
  sequence (imap f l) = Some body →
  ∀ i x, l !! i = Some x → ∃ r, body !! i = Some r ∧ f i x = Some r.
Proof.
  unfold sequence. intros H%mapM_Some i x Hx.
  destruct (Forall2_lookup_l _ _ _ i (f i x) H) as (r & Hr & Hfr).
  - by rewrite list_lookup_imap, Hx.
  - by exists r.
Qed.

Lemma sequence_imap_rows {A B : Type} (f : nat → A → option B) (l : list A)
    (body : list B) :
  sequence (imap f l) = Some body →
  length body = length l
  ∧ ∀ r, r ∈ body → ∃ i x, l !! i = Some x ∧ f i x = Some r.
Proof.
  unfold sequence. intros H. split.
  - apply length_mapM in H. by rewrite length_imap in H.
  - apply mapM_Some in H. intros r Hr.
    apply list_elem_of_lookup in Hr as [i Hi].
    destruct (Forall2_lookup_r _ _ _ _ _ H Hi) as (o & Ho & Hor).
    rewrite list_lookup_imap in Ho.
    destruct (l !! i) as [x|] eqn:Hx; [|done].
    injection Ho as <-. by exists i, x.
Qed.

(** ** Termination of the renderers *)

Ltac rows_rendered :=
  match goal with
  | |- context [sequence (imap ?f ?l)] =>
      let body := fresh "body" in
      let Hbody := fresh "Hbody" in
      destruct (sequence_imap_is_Some f l) as [body Hbody];
      [| rewrite Hbody; cbn [mbind option_bind] ]
  end.

Ltac entries_rendered :=
  match goal with
  | |- context [mapM ?f ?l] =>
      let nodes := fresh "nodes" in
      let Hnodes := fresh "Hnodes" in
      destruct (mapM_is_Some_elem f l) as [nodes Hnodes];
      [| rewrite Hnodes; cbn [mbind option_bind fmap option_fmap option_map] ]
  end.

Section RenderTotal.

Variable collapsedTables : gset string.

Lemma ValueTotal_step (n : nat) :
  CellTotal collapsedTables n → ValueTotal collapsedTables (S n).
Proof.
  intros IH v pk pri Hfuel. unfold cellFuel in Hfuel.
  destruct v; cbn in Hfuel |- *; try by eexists.
  all: apply IH; cbn; lia.
Qed.

Lemma CollapsibleTotal_step (n : nat) :
  CellTotal collapsedTables n → CollapsibleTotal collapsedTables (S n).
Proof.
  intros IH key v index tableId Harr Hfuel.
  destruct v as [| | | | |items| | fname]; try done.
  cbn [renderCollapsibleTable].
  destruct (bool_decide (tableId ∈ collapsedTables)); [by eexists|].
  rows_rendered; [|by eexists].
  intros rowIndex row Hrow. apply sequence_imap_is_Some.
  intros cellIndex cell Hcell. apply IH.
  pose proof (getTableStructure_cell_size items [] row cell
                (list_elem_of_lookup_2 _ _ _ Hrow)
                (list_elem_of_lookup_2 _ _ _ Hcell)). lia.
Qed.

Lemma TableTotal_step (n : nat) :
  ValueTotal collapsedTables n → CollapsibleTotal collapsedTables n →
  TableTotal collapsedTables (S n).
Proof.
  intros IHv IHc key v Hfuel. cbn [renderNestedTable].
  destruct (isArrayOfObjects v) eqn:Hq; [|by eexists].
  destruct v as [| | | | |items| | fname]; try done.
  rows_rendered; [|by eexists].
  intros rowIndex row Hrow.
  rows_rendered.
  { intros cellIndex cell Hcell. apply IHv.
    pose proof (getTableStructure_cell_size items _ row cell
                  (list_elem_of_lookup_2 _ _ _ Hrow)
                  (list_elem_of_lookup_2 _ _ _ Hcell)).
    unfold cellFuel. destruct (isObjectLike cell); lia. }
  assert (Hsub : ∀ k index tableId,
    is_Some (if isFalsy (nonEmptyArrayFlag
                           (getProp (arrayItem (JArray items) rowIndex) k))
             then Some (falsyChild
                          (nonEmptyArrayFlag
                             (getProp (arrayItem (JArray items) rowIndex) k)))
             else (λ node, [node]) <$>
                    renderCollapsibleTable collapsedTables n k
                      (getProp (arrayItem (JArray items) rowIndex) k) index tableId)).
  { intros k index tableId. rewrite nonEmptyArrayFlag_truthy.
    destruct (isNonEmptyArray _) eqn:Hne; [|by eexists].
    apply fmap_is_Some, IHc; [by apply isNonEmptyArray_isArray|].
    pose proof (size_row_table _ _ _ Hne). lia. }
  unfold rowChildren. cbn zeta.
  destruct (isFalsy (if isFalsy _ then _ else _)); [by eexists|].
  edestruct (Hsub "Vulnerabilities") as [vulnerabilities Hvul].
  rewrite Hvul. cbn [mbind option_bind].
  edestruct (Hsub "Packages") as [packages Hpk].
  rewrite Hpk. by eexists.
Qed.

Lemma sortTableEntries_elem_of (tableEntries : list (string * JsonValue))
    (e : string * JsonValue) :
  e ∈ sortTableEntries tableEntries → e ∈ tableEntries.
Proof.
  unfold sortTableEntries. rewrite elem_of_app, !list_elem_of_filter. tauto.
Qed.

Lemma CellTotal_step (n : nat) :
  CellTotal collapsedTables n → TableTotal collapsedTables n →
  CollapsibleTotal collapsedTables n → ValueTotal collapsedTables n →
  CellTotal collapsedTables (S n).
Proof.
  intros IHa IHt IHc IHv v pk pri Hfuel.
  assert (Hchild : ∀ x, size x < size v →
            4 * size x ≤ n ∧ 4 * size x ≤ n + 1 ∧ cellFuel x ≤ n).
  { intros x Hx. unfold cellFuel. destruct (isObjectLike x); lia. }
  destruct v as [| | b | num | s | items | entries | fname];
    cbn [renderCellWithNestedArrays];
    try (apply IHv; cbn in Hfuel |- *; lia).
  - destruct (isArrayOfObjects (JArray items)) eqn:Hq.
    + destruct pk as [pk|]; [destruct (isTableKey pk)|].
      * apply IHc; [done|lia].
      * apply IHt. lia.
      * apply IHt. lia.
    + destruct (negb (length items =? 0)); [|by eexists].
      entries_rendered; [|by eexists].
      intros item Hin. apply IHv, Hchild. by apply size_item.
  - assert (Hentry : ∀ k x, (k, x) ∈ entries → size x < size (JObject entries))
      by (intros k x; apply size_entry).
    destruct (existsb _ entries).
    + destruct (existsb _ entries || existsb _ entries).
      * match goal with
        | |- context [mapM ?f (filter ?P entries)] =>
            destruct (mapM_is_Some_elem f (filter P entries)) as [others Hothers];
            [| rewrite Hothers; cbn [mbind option_bind] ]
        end.
        { intros [k x] Hin. apply list_elem_of_filter in Hin as [_ Hin].
          apply Hentry, Hchild in Hin as (Ha & Ht & Hv).
          destruct (isArrayOfObjects x); [by apply labelled_is_Some, IHt|].
          destruct (isPlainObject x); apply labelled_is_Some; [by apply IHa|by apply IHv]. }
        entries_rendered; [|by eexists].
        intros [k x] Hin. apply sortTableEntries_elem_of in Hin.
        apply list_elem_of_filter in Hin as [Hq Hin].
        apply Is_true_true, andb_true_iff in Hq as [_ Hq].
        apply Hentry, Hchild in Hin as (_ & Ht & _).
        apply IHc; [by apply isArrayOfObjects_isArray|done].
      * entries_rendered; [|by eexists].
        intros [k x] Hin. apply Hentry, Hchild in Hin as (Ha & Ht & Hv).
        destruct x as [| | | | | xs | | fname]; try (apply labelled_is_Some; by apply IHv).
        -- destruct (isArrayOfObjects (JArray xs)); [by apply labelled_is_Some, IHt|].
           destruct (negb (length xs =? 0)); [|by eexists].
           apply labelled_is_Some, fmap_is_Some, mapM_is_Some_elem.
           intros item Hitem. apply IHv. apply size_item in Hitem.
           unfold cellFuel in *. cbn [isObjectLike] in Hv.
           destruct (isObjectLike item); lia.
        -- apply labelled_is_Some. by apply IHa.
    + entries_rendered; [|by eexists].
      intros [k x] Hin. apply Hentry, Hchild in Hin as (Ha & Ht & Hv).
      destruct x as [| | | | | xs | [|e es] | fname]; try (apply labelled_is_Some; by apply IHv).
      * destruct (isArrayOfObjects (JArray xs)); [by apply labelled_is_Some, IHt|].
        destruct (negb (length xs =? 0)); [|apply labelled_is_Some; by apply IHv].
        apply labelled_is_Some, fmap_is_Some, mapM_is_Some_elem.
        intros item Hitem. apply IHv. apply size_item in Hitem.
        unfold cellFuel in *. cbn [isObjectLike] in Hv.
        destruct (isObjectLike item); lia.
      * apply labelled_is_Some. by apply IHa.
Qed.

(** With [n] units of fuel every renderer returns on every value whose size
    the fuel covers. *)
Lemma render_total (n : nat) :
  CellTotal collapsedTables n ∧ TableTotal collapsedTables n
  ∧ CollapsibleTotal collapsedTables n ∧ ValueTotal collapsedTables n.
Proof.
  induction n as [|n (IHa & IHt & IHc & IHv)].
  - split_and!.
    + intros v pk pri H. pose proof (size_pos v). lia.
    + intros key v H. pose proof (size_pos v). lia.
    + intros key v index tableId _ H. pose proof (size_pos v). lia.
    + intros v pk pri H. unfold cellFuel in H. destruct (isObjectLike v); lia.
  - split_and!.
    + by apply CellTotal_step.
    + by apply TableTotal_step.
    + by apply CollapsibleTotal_step.
    + by apply ValueTotal_step.
Qed.

End RenderTotal.

(** ** More fuel never changes a result *)

Lemma refines_refl {A : Type} (o : option A) : refines o o.
Proof. by intros r. Qed.

Lemma refines_trans {A : Type} (o1 o2 o3 : option A) :
  refines o1 o2 → refines o2 o3 → refines o1 o3.
Proof. intros H12 H23 r H. by apply H23, H12. Qed.

Lemma refines_bind {A B : Type} (m1 m2 : option A) (k1 k2 : A → option B) :
  refines m1 m2 → (∀ a, refines (k1 a) (k2 a)) →
  refines (m1 ≫= k1) (m2 ≫= k2).
Proof.
  intros Hm Hk r. destruct m1 as [a|]; cbn [mbind option_bind]; [|done].
  rewrite (Hm a eq_refl). cbn [mbind option_bind]. apply Hk.
Qed.

Lemma refines_fmap {A B : Type} (f : A → B) (m1 m2 : option A) :
  refines m1 m2 → refines (f <$> m1) (f <$> m2).
Proof.
  intros Hm r. destruct m1 as [a|]; cbn; [|done]. by rewrite (Hm a eq_refl).
Qed.

Lemma refines_labelled (k : string) (m1 m2 : option RenderNode) :
  refines m1 m2 → refines (labelled k m1) (labelled k m2).
Proof. apply refines_fmap. Qed.

Lemma refines_mapM {A B : Type} (f g : A → option B) (l : list A) :
  (∀ x, x ∈ l → refines (f x) (g x)) → refines (mapM f l) (mapM g l).
Proof.
  intros H r Hr. apply mapM_Some in Hr. apply mapM_Some.
  induction Hr as [|x y l k Hxy _ IH]; constructor.
  - apply H; [left|done].
  - apply IH. intros z Hz. apply H. by right.
Qed.

Lemma refines_sequence_imap {A B : Type} (f g : nat → A → option B) (l : list A) :
  (∀ i x, l !! i = Some x → refines (f i x) (g i x)) →
  refines (sequence (imap f l)) (sequence (imap g l)).
Proof.
  revert f g. induction l as [|x l IH]; intros f g H r; [done|].
  unfold sequence. rewrite !imap_cons. cbn [mapM id].
  apply refines_bind.
  - apply (H 0 x eq_refl).
  - intros y. apply refines_bind; [|intros; apply refines_refl].
    apply (IH (f ∘ S) (g ∘ S)). intros i z Hz. apply (H (S i) z Hz).
Qed.

Section RenderFuel.

Variable collapsedTables : gset string.

Lemma FuelRefines_step (n m : nat) :
  FuelRefines collapsedTables n m → FuelRefines collapsedTables (S n) (S m).
Proof.
  intros (IHa & IHt & IHc & IHv). split_and!.
  - intros v pk pri.
    destruct v as [| | b | num | s | items | entries | fname];
      cbn [renderCellWithNestedArrays]; try apply IHv.
    + destruct (isArrayOfObjects (JArray items)).
      * destruct pk as [pk|]; [destruct (isTableKey pk)|]; [apply IHc|apply IHt..].
      * destruct (negb (length items =? 0)); [|apply refines_refl].
        apply refines_fmap, refines_mapM. intros item _. apply IHv.
    + destruct (existsb _ entries).
      * destruct (existsb _ entries || existsb _ entries).
        -- apply refines_bind.
           ++ apply refines_mapM. intros [k x] _.
              destruct (isArrayOfObjects x); [apply refines_labelled, IHt|].
              destruct (isPlainObject x); apply refines_labelled; [apply IHa|apply IHv].
           ++ intros others. apply refines_bind; [|intros; apply refines_refl].
              apply refines_mapM. intros [k x] _. apply IHc.
        -- apply refines_fmap, refines_mapM. intros [k x] _.
           destruct x as [| | | | | xs | | fname]; try apply refines_labelled, IHv.
           ++ destruct (isArrayOfObjects (JArray xs)); [apply refines_labelled, IHt|].
              destruct (negb (length xs =? 0)); [|apply refines_refl].
              apply refines_labelled, refines_fmap, refines_mapM.
              intros item _. apply IHv.
           ++ apply refines_labelled, IHa.
      * apply refines_fmap, refines_mapM. intros [k x] _.
        destruct x as [| | | | | xs | [|e es] | fname]; try apply refines_labelled, IHv.
        -- destruct (isArrayOfObjects (JArray xs)); [apply refines_labelled, IHt|].
           destruct (negb (length xs =? 0)); [|apply refines_labelled, IHv].
           apply refines_labelled, refines_fmap, refines_mapM.
           intros item _. apply IHv.
        -- apply refines_labelled, IHa.
  - intros key v. cbn [renderNestedTable].
    destruct (isArrayOfObjects v); [|apply refines_refl].
    apply refines_bind; [|intros; apply refines_refl].
    apply refines_sequence_imap. intros rowIndex row _.
    apply refines_bind.
    { apply refines_sequence_imap. intros cellIndex cell _. apply IHv. }
    intros cells. apply refines_bind; [|intros; apply refines_refl].
    unfold rowChildren. cbn zeta.
    destruct (isFalsy (if isFalsy _ then _ else _)); [apply refines_refl|].
    apply refines_bind.
    { destruct (isFalsy _); [apply refines_refl|apply refines_fmap, IHc]. }
    intros vulnerabilities. apply refines_bind; [|intros; apply refines_refl].
    destruct (isFalsy _); [apply refines_refl|apply refines_fmap, IHc].
  - intros key v index tableId. cbn [renderCollapsibleTable].
    apply refines_bind; [|intros; apply refines_refl].
    destruct (bool_decide _); [apply refines_refl|].
    apply refines_bind; [|intros; apply refines_refl].
    apply refines_sequence_imap. intros rowIndex row _.
    apply refines_sequence_imap. intros cellIndex cell _. apply IHa.
  - intros v pk pri. destruct v; cbn [renderCellValue];
      try apply refines_refl; apply IHa.
Qed.

Lemma FuelRefines_succ (n : nat) : FuelRefines collapsedTables n (S n).
Proof.
  induction n as [|n IH]; [by split_and!|]. by apply FuelRefines_step.
Qed.

Lemma FuelRefines_le (n m : nat) : n ≤ m → FuelRefines collapsedTables n m.
Proof.
  induction 1 as [|m _ (IHa & IHt & IHc & IHv)].
  - split_and!; intros; apply refines_refl.
  - destruct (FuelRefines_succ m) as (Sa & St & Sc & Sv).
    split_and!; intros; eapply refines_trans; eauto.
Qed.

End RenderFuel.

(** ** When an export raises *)

Lemma existsb_Exists {A : Type} (f : A → bool) (l : list A) :
  existsb f l = true ↔ Exists (λ x, f x = true) l.
Proof.
  rewrite existsb_exists, Exists_exists. setoid_rewrite list_elem_of_In. done.
Qed.

Lemma existsb_Forall_false {A : Type} (f : A → bool) (l : list A) :
  Forall (λ x, f x = false) l → existsb f l = false.
Proof. induction 1 as [|x l Hx _ IH]; [done|]. cbn. by rewrite Hx, IH. Qed.

Lemma existsb_snd_Exists {A : Type} (f : A → bool) (entries : list (string * A)) :
  existsb (λ '(_, v), f v) entries = true ↔ Exists (λ e, f e.2 = true) entries.
Proof.
  induction entries as [|[k v] entries IH]; cbn [existsb].
  - split; [done | by intros ?%Exists_nil].
  - by rewrite orb_true_iff, Exists_cons, IH.
Qed.

Lemma Exists_iff {A : Type} (P Q : A → Prop) (l : list A) :
  Forall (λ x, P x ↔ Q x) l → Exists P l ↔ Exists Q l.
Proof.
  induction 1 as [|x l Hx _ IH]; [by rewrite !Exists_nil|].
  by rewrite !Exists_cons, Hx, IH.
Qed.

Lemma mapM_None_Exists {A B : Type} (f : A → option B) (l : list A) :
  mapM f l = None ↔ Exists (λ x, f x = None) l.
Proof.
  induction l as [|x l IH]; cbn [mapM].
  - split; [done | by intros ?%Exists_nil].
  - rewrite Exists_cons, <- IH.
    destruct (f x); cbn; [|naive_solver].
    destruct (mapM f l); cbn; naive_solver.
Qed.

Lemma toStr_None (v : JsonValue) : toStr v = None ↔ stringRaises v = true.
Proof.
  induction v as [| | b | n | s | items IH | entries _ | fname]
    using JsonValue_nested_ind; cbn [toStr stringRaises]; try (by split).
  - rewrite fmap_None, mapM_None_Exists, existsb_Exists.
    apply Exists_iff. eapply Forall_impl; [exact IH|].
    intros x Hx. by destruct x.
  - destruct (lookupEntry "toString" entries) as [v|] eqn:E.
    + apply lookupEntry_Some in E. split; [|done]. intros _.
      apply bool_decide_eq_true, list_elem_of_In, in_map_iff.
      exists ("toString", v). split; [done | by apply list_elem_of_In].
    + apply lookupEntry_None in E. split; [done|].
      by intros H%bool_decide_eq_true.
Qed.

Lemma leafText_None (value : JsonValue) :
  isPlainObject value = false →
  leafText value = None ↔ flattenRaises value = true.
Proof.
  destruct value as [| | b | n | s | items | entries | fname];
    try done; intros _; try (by split).
  destruct items as [|x items]; [by split|].
  cbn [leafText flattenRaises].
  destruct (forallb isObjectLike (x :: items)); cbn [negb andb]; [by split|].
  rewrite fmap_None, mapM_None_Exists, existsb_Exists.
  apply Exists_iff, Forall_forall. intros y _. apply toStr_None.
Qed.

Lemma entryWrites_raises (value : JsonValue) :
  ∀ newKey, Exists (λ w, w.2 = None) (entryWrites newKey value)
            ↔ flattenRaises value = true.
Proof.
  induction value as [| | b | n | s | items _ | entries IH | fname]
    using JsonValue_nested_ind; intros newKey;
    try (cbn [entryWrites]; rewrite Exists_cons, Exists_nil;
         rewrite <- leafText_None by done; cbn [snd]; tauto).
  rewrite entryWrites_object. unfold flattenWrites. cbn [flattenRaises].
  rewrite existsb_snd_Exists.
  induction IH as [|[k v] entries Hv _ IHentries]; cbn [flat_map].
  - by rewrite !Exists_nil.
  - by rewrite Exists_app, Exists_cons, Hv, IHentries.
Qed.

Lemma applyWrites_None (ws : list (string * option string)) :
  ∀ flattened, applyWrites flattened ws = None ↔ Exists (λ w, w.2 = None) ws.
Proof.
  induction ws as [|[k [t|]] ws IH]; intros flattened.
  - split; [done | by intros ?%Exists_nil].
  - cbn [applyWrites mbind option_bind]. rewrite IH, Exists_cons. cbn [snd].
    naive_solver.
  - split; [|done]. intros _. by left.
Qed.

Lemma flattenObject_None (entries : list (string * JsonValue)) (prefix : string) :
  flattenObject entries prefix = None
  ↔ Exists (λ e, flattenRaises e.2 = true) entries.
Proof.
  rewrite flattenObject_applyWrites, applyWrites_None. unfold flattenWrites.
  induction entries as [|[k v] entries IH]; cbn [flat_map].
  - by rewrite !Exists_nil.
  - by rewrite Exists_app, Exists_cons, entryWrites_raises, IH.
Qed.

Lemma flattenItem_None (item : JsonValue) :
  flattenItem item = None ↔ itemRaises item = true.
Proof.
  destruct item as [| | b | n | s | items | entries | fname];
    try (by split); unfold flattenItem;
    cbn [objectEntries mbind option_bind itemRaises].
  - rewrite flattenObject_None, Exists_exists. split; [|done].
    intros ([k v] & Hin & Hraises).
    apply elem_of_lookup_imap in Hin as (i & c & [= _ ->] & _). done.
  - rewrite flattenObject_None, existsb_Exists, !Exists_exists. split.
    + intros ([k v] & Hin & Hraises).
      apply elem_of_lookup_imap in Hin as (i & x & [= _ ->] & Hx).
      exists x. split; [by eapply list_elem_of_lookup_2|done].
    + intros (x & Hin & Hraises).
      apply list_elem_of_lookup_1 in Hin as [i Hi].
      exists (natToString i, x). split; [|done].
      apply elem_of_lookup_imap. by exists i, x.
  - by rewrite flattenObject_None, existsb_snd_Exists.
Qed.




(** What an export of a non-empty array does. *)
Lemma exportToCSV_array (item : JsonValue) (rest : list JsonValue) :
  exportToCSV (JArray (item :: rest)) =
  match mapM flattenItem (item :: rest) with
  | None => ExportThrows
  | Some flats => Download (csvContent flats)
  end.
Proof. reflexivity. Qed.

Lemma mapM_flattenItem_None (items : list JsonValue) :
  mapM flattenItem items = None ↔ Exists (λ item, itemRaises item = true) items.
Proof.
  rewrite mapM_None_Exists. apply Exists_iff, Forall_forall.
  intros item _. apply flattenItem_None.
Qed.

(** ** C9: totality *)

Example getDepth_fixtures :
  getDepth (JArray []) 0 = 0
  ∧ getDepth (JObject [("a", JNumber "1")]) 0 = 1
  ∧ getDepth (JObject [("a", JObject [("b", JArray [JNumber "1"; JNumber "2"])])]) 0 = 3.
Proof. by split_and!. Qed.




(** ** The shape of a grid *)

Lemma grid_row_width (data : JsonValue) (excludeKeys : list string) :
  Forall (λ row, length row = length (headers (getTableStructure data excludeKeys)))
         (rows (getTableStructure data excludeKeys)).
Proof.
  apply Forall_forall. intros row Hrow.
  destruct data as [| | b | n | s | [|x items] | entries | fname];
    try (cbn in Hrow; apply list_elem_of_singleton in Hrow as ->; done).
  - by apply not_elem_of_nil in Hrow.
  - cbn [getTableStructure] in *.
    destruct (forallb isPlainObject (x :: items)); cbn [headers rows] in *.
    + apply list_elem_of_In, in_map_iff in Hrow as (item & <- & _).
      by rewrite length_map.
    + by apply elem_of_lookup_imap in Hrow as (i & item & -> & _).
  - cbn [getTableStructure headers rows] in *.
    apply list_elem_of_In, in_map_iff in Hrow as ([k v] & <- & _). done.
Qed.

Lemma grid_row_count (items : list JsonValue) (excludeKeys : list string) :
  length (rows (getTableStructure (JArray items) excludeKeys)) = length items.
Proof.
  destruct items as [|x items]; [done|]. cbn [getTableStructure].
  destruct (forallb isPlainObject (x :: items)); cbn [rows].
  - by rewrite length_map.
  - by rewrite length_imap.
Qed.

(** ** C7: the columns of the Results table *)

(** What [renderCollapsibleTable] returns: the heading always, the grid only
    while the table is expanded. *)
Lemma renderCollapsibleTable_Some (collapsedTables : gset string) (fuel : nat)
    (key : string) (value : JsonValue) (index : nat) (tableId : string)
    (node : RenderNode) :
  renderCollapsibleTable collapsedTables fuel key value index tableId = Some node →
  ∃ grid, node = CollapsibleTable key index tableId
                   (bool_decide (tableId ∈ collapsedTables))
                   (arrayLength value) grid
    ∧ match grid with
      | None => tableId ∈ collapsedTables
      | Some (columns, body) =>
          (tableId ∉ collapsedTables)
          ∧ columns = headers (getTableStructure value [])
          ∧ length body = length (rows (getTableStructure value []))
          ∧ Forall (λ row, length row = length columns) body
      end.
Proof.
  destruct fuel as [|fuel]; [done|]. cbn [renderCollapsibleTable].
  destruct (bool_decide (tableId ∈ collapsedTables)) eqn:Hin;
    cbn [mbind option_bind].
  - intros [= <-]. exists None. split; [done|]. by apply bool_decide_eq_true in Hin.
  - destruct (sequence _) as [body|] eqn:Hbody; cbn [mbind option_bind]; [|done].
    intros [= <-]. eexists (Some (_, body)). split; [done|].
    apply bool_decide_eq_false in Hin. split; [done|]. split; [done|].
    apply sequence_imap_rows in Hbody as [Hlen Hrows]. split; [done|].
    apply Forall_forall. intros cells Hcells.
    destruct (Hrows cells Hcells) as (i & row & Hrow & Hcell).
    apply sequence_imap_rows in Hcell as [-> _].
    pose proof (grid_row_width value []) as Hwidth.
    rewrite Forall_forall in Hwidth. apply Hwidth.
    by eapply list_elem_of_lookup_2.
Qed.

Lemma isArrayOfObjects_records (items : list JsonValue) :
  items ≠ [] → forallb isPlainObject items = true →
  isArrayOfObjects (JArray items) = true.
Proof.
  intros Hne Hall. cbn [isArrayOfObjects].
  apply andb_true_iff. split; [by destruct items|].
  rewrite forallb_forall in Hall |- *. intros x Hx.
  specialize (Hall x Hx). by destruct x.
Qed.

Lemma filter_falsyChild (flag : JsonValue) :
  filter (λ n, is_Some (collapsibleHeading n)) (falsyChild flag) = [].
Proof.
  by destruct flag.
Qed.

Lemma filter_collapsible (child : RenderNode) (rest : list RenderNode) :
  is_Some (collapsibleHeading child) →
  filter (λ n, is_Some (collapsibleHeading n)) (child :: rest)
  = child :: filter (λ n, is_Some (collapsibleHeading n)) rest.
Proof. intros H. rewrite filter_cons. by case_decide. Qed.

(** The collapsible tables beneath a row are those of the record's
    [Vulnerabilities] and [Packages], in this order, each drawn exactly when
    the value under the key is a non-empty array. *)
Lemma rowChildren_tables (collapsedTables : gset string) (fuel : nat)
    (originalRow : JsonValue) (rowIndex : nat) (beneath : list RenderNode) :
  rowChildren (renderCollapsibleTable collapsedTables fuel) originalRow rowIndex
  = Some beneath →
  ∃ vs ps,
    filter (λ n, is_Some (collapsibleHeading n)) beneath = (vs ++ ps)%list
    ∧ (if isNonEmptyArray (getProp originalRow "Vulnerabilities")
       then ∃ child,
              renderCollapsibleTable collapsedTables fuel "Vulnerabilities"
                (getProp originalRow "Vulnerabilities") 1
                ("results-" ++ natToString rowIndex ++ "-Vulnerabilities")
              = Some child ∧ vs = [child]
       else vs = [])
    ∧ (if isNonEmptyArray (getProp originalRow "Packages")
       then ∃ child,
              renderCollapsibleTable collapsedTables fuel "Packages"
                (getProp originalRow "Packages") 2
                ("results-" ++ natToString rowIndex ++ "-Packages")
              = Some child ∧ ps = [child]
       else ps = []).
Proof.
  unfold rowChildren. cbn zeta.
  set (P := getProp originalRow "Packages").
  set (V := getProp originalRow "Vulnerabilities").
  assert (Hchild : ∀ key value index tableId child,
    renderCollapsibleTable collapsedTables fuel key value index tableId = Some child →
    is_Some (collapsibleHeading child)).
  { intros key value index tableId child H.
    apply renderCollapsibleTable_Some in H as (grid & -> & _). by eexists. }
  pose proof (nonEmptyArrayFlag_truthy P) as HP.
  pose proof (nonEmptyArrayFlag_truthy V) as HV.
  destruct (isNonEmptyArray P) eqn:EP, (isNonEmptyArray V) eqn:EV;
    cbn [negb] in HP, HV; rewrite HP; rewrite ?HV, ?HP; cbn [mbind option_bind].
  - destruct (renderCollapsibleTable _ _ "Vulnerabilities" _ _ _) as [v|] eqn:Ev;
      cbn; [|done].
    destruct (renderCollapsibleTable _ _ "Packages" _ _ _) as [p|] eqn:Ep;
      cbn; [|done].
    intros [= <-]. exists [v], [p]. split.
    + cbn [app]. rewrite !filter_collapsible by eauto. done.
    + split; by eexists.
  - destruct (renderCollapsibleTable _ _ "Packages" _ _ _) as [p|] eqn:Ep;
      cbn; [|done].
    intros [= <-]. exists [], [p]. split.
    + rewrite filter_app, filter_falsyChild. cbn [app].
      rewrite filter_collapsible by eauto. done.
    + split; [done | by eexists].
  - destruct (renderCollapsibleTable _ _ "Vulnerabilities" _ _ _) as [v|] eqn:Ev;
      cbn; [|done].
    intros [= <-]. exists [v], []. split.
    + cbn [app]. rewrite filter_collapsible by eauto.
      by rewrite filter_falsyChild.
    + split; [by eexists | done].
  - intros [= <-]. exists [], []. split; [apply filter_falsyChild|done].
Qed.

(** C7, as stated, fails for a record of [Results] whose [Packages] is an
    empty array: the column is taken out of the grid, and no collapsible
    table is drawn beneath the row instead. *)
Lemma results_empty_packages_not_drawn :
  renderNestedTable ∅ 8 "Results"
    (JArray [JObject [("Name", JString "x"); ("Packages", JArray [])]])
  = Some (Table "Results" ["Name"] 1 [([Scalar (JString "x")], [])])
  ∧ "Packages" ∈ objectKeys (JObject [("Name", JString "x"); ("Packages", JArray [])]).
Proof. split; [reflexivity|]. cbn. set_solver. Qed.

(** C7 (amended): a non-empty array of objects met under a parent key other
    than [Packages] and [Vulnerabilities] is drawn by [renderNestedTable]
    under that key.  When the key is [Results], the columns are the keys of
    the records other than [Packages] and [Vulnerabilities]; under every other
    key the columns are all the keys of the records.  Under either key, the
    collapsible tables beneath the row of a record are that of its
    [Vulnerabilities] and then that of its [Packages], each drawn, from the
    value under the key and under the identifier made of the row index and
    the key, exactly when that value is a non-empty array; any other value
    under these keys is drawn neither as a column of [Results] nor beneath
    the row.  A collapsible table shows all the keys of its records as
    columns while it is expanded and no grid while it is collapsed.  In the
    document [{Results:[{Name, Packages, Vulnerabilities}]}] the Results grid
    has the single column [Name]. *)
Theorem results_table_columns :
  (∀ collapsedTables fuel key items node,
     items ≠ [] → forallb isPlainObject items = true →
     renderNestedTable collapsedTables (S fuel) key (JArray items) = Some node →
     ∃ hs body, node = Table key hs (length items) body
       ∧ (key = "Results" →
            ("Packages" ∉ hs) ∧ ("Vulnerabilities" ∉ hs)
            ∧ ∀ k, k ∈ hs ↔
                   k ≠ "Packages" ∧ k ≠ "Vulnerabilities"
                   ∧ ∃ item, item ∈ items ∧ k ∈ objectKeys item)
       ∧ (key ≠ "Results" →
            ∀ k, k ∈ hs ↔ ∃ item, item ∈ items ∧ k ∈ objectKeys item)
       ∧ (∀ i item, items !! i = Some item →
            ∃ cells beneath vs ps,
              body !! i = Some (cells, beneath)
              ∧ length cells = length hs
              ∧ filter (λ n, is_Some (collapsibleHeading n)) beneath
                = (vs ++ ps)%list
              ∧ (if isNonEmptyArray (getProp item "Vulnerabilities")
                 then ∃ child,
                   renderCollapsibleTable collapsedTables fuel "Vulnerabilities"
                     (getProp item "Vulnerabilities") 1
                     ("results-" ++ natToString i ++ "-Vulnerabilities")
                   = Some child ∧ vs = [child]
                 else vs = [])
              ∧ (if isNonEmptyArray (getProp item "Packages")
                 then ∃ child,
                   renderCollapsibleTable collapsedTables fuel "Packages"
                     (getProp item "Packages") 2
                     ("results-" ++ natToString i ++ "-Packages")
                   = Some child ∧ ps = [child]
                 else ps = [])))
  ∧ (∀ collapsedTables fuel key items index tableId node,
       items ≠ [] → forallb isPlainObject items = true →
       renderCollapsibleTable collapsedTables fuel key (JArray items) index tableId
       = Some node →
       ∃ grid,
         node = CollapsibleTable key index tableId
                  (bool_decide (tableId ∈ collapsedTables)) (length items) grid
         ∧ match grid with
           | None => tableId ∈ collapsedTables
           | Some (hs, body) =>
               (tableId ∉ collapsedTables)
               ∧ length body = length items
               ∧ ∀ k, k ∈ hs ↔ ∃ item, item ∈ items ∧ k ∈ objectKeys item
           end)
  ∧ (∀ collapsedTables fuel key items pri,
       items ≠ [] → forallb isPlainObject items = true →
       key ≠ EmptyString → isTableKey key = false →
       renderCellWithNestedArrays collapsedTables (S fuel) (JArray items)
                                  (Some key) pri
       = renderNestedTable collapsedTables fuel key (JArray items))
  ∧ (∀ collapsedTables key items,
       is_Some (renderNestedTable collapsedTables (4 * size (JArray items)) key
                                  (JArray items)))
  ∧ buildViewModel ∅ resultsDocument =
    Some (ExpandedObject
      [("Results",
        Table "Results" ["Name"] 1
          [([Scalar (JString "x")],
            [CollapsibleTable "Vulnerabilities" 1 "results-0-Vulnerabilities"
               false 1 (Some (["id"], [[Scalar (JNumber "1")]]));
             CollapsibleTable "Packages" 2 "results-0-Packages"
               false 1 (Some (["n"], [[Scalar (JNumber "1")]]))])])]).
Proof.
  split_and!; [| | | |by vm_compute].
  4: { intros collapsedTables key items.
       destruct (render_total collapsedTables (4 * size (JArray items)))
         as (_ & Ht & _). apply Ht. lia. }
  3: { intros collapsedTables fuel key items pri Hne Hobj Hkey Htable.
       cbn [renderCellWithNestedArrays].
       rewrite (isArrayOfObjects_records items Hne Hobj), Htable.
       by destruct key. }
  2: { intros collapsedTables fuel key items index tableId node Hne Hobj Hnode.
       apply renderCollapsibleTable_Some in Hnode as (grid & -> & Hgrid).
       exists grid. split; [done|].
       destruct grid as [[hs body]|]; [|done].
       destruct Hgrid as (Hout & -> & Hlen & _).
       split; [done|]. split; [by rewrite Hlen, grid_row_count|].
       destruct items as [|item0 rest]; [done|].
       rewrite getTableStructure_records by done. cbn [headers].
       intros k. rewrite sortKeys_elem_of, collectKeys_elem_of.
       split; [naive_solver|]. intros H. split; [apply not_elem_of_nil|done]. }
  intros collapsedTables fuel key items node Hne Hobj.
  cbn [renderNestedTable].
  rewrite (isArrayOfObjects_records items Hne Hobj).
  set (excludeKeys := if (key =? "Results")%string then _ else _).
  destruct (sequence _) as [body|] eqn:Hbody; cbn [mbind option_bind]; [|done].
  intros [= <-].
  exists (headers (getTableStructure (JArray items) excludeKeys)), body.
  split; [done|].
  destruct items as [|item0 rest]; [done|].
  rewrite getTableStructure_records in * by done. cbn [headers rows] in *.
  split_and!.
  - intros ->. subst excludeKeys. cbn [String.eqb Ascii.eqb Bool.eqb].
    assert (Hmem : ∀ k, k ∈ sortKeys (collectKeys (item0 :: rest)
                                ["Packages"; "Vulnerabilities"]) ↔
              k ≠ "Packages" ∧ k ≠ "Vulnerabilities"
              ∧ ∃ item, item ∈ item0 :: rest ∧ k ∈ objectKeys item).
    { intros k. rewrite sortKeys_elem_of, collectKeys_elem_of.
      rewrite !not_elem_of_cons. pose proof (not_elem_of_nil k). naive_solver. }
    split_and!; [ | |exact Hmem].
    + intros H%Hmem. naive_solver.
    + intros H%Hmem. naive_solver.
  - intros Hkey k. subst excludeKeys.
    destruct (String.eqb_spec key "Results") as [->|_]; [done|].
    rewrite sortKeys_elem_of, collectKeys_elem_of. split; [naive_solver|].
    intros H. split; [apply not_elem_of_nil|done].
  - intros i item Hi.
    set (hs := sortKeys (collectKeys (item0 :: rest) excludeKeys)) in *.
    destruct (sequence_imap_Some _ _ _ Hbody i (map (λ header, getProp item header) hs))
      as ([cells beneath] & Hrow & Hrender).
    { change (((λ it, map (λ header, getProp it header) hs) <$> (item0 :: rest)) !! i
              = Some (map (λ header, getProp item header) hs)).
      by rewrite list_lookup_fmap, Hi. }
    cbn beta in Hrender.
    assert (Hitem : arrayItem (JArray (item0 :: rest)) i = item)
      by (cbn [arrayItem]; by rewrite Hi).
    rewrite Hitem in Hrender.
    destruct (sequence _) as [cells'|] eqn:Hcells in Hrender;
      cbn [mbind option_bind] in Hrender; [|done].
    destruct (rowChildren _ item i) as [beneath'|] eqn:Hbeneath;
      cbn [mbind option_bind] in Hrender; [|done].
    injection Hrender as <- <-.
    apply rowChildren_tables in Hbeneath as (vs & ps & Hfilter & Hvs & Hps).
    exists cells', beneath', vs, ps. split; [done|].
    split; [|done].
    apply sequence_imap_rows in Hcells as [-> _]. by rewrite length_map.
Qed.

Lemma results_table_columns_witness :
  let items := arrayItem (getProp resultsDocument "Results") 0 :: [] in
  items ≠ [] ∧ forallb isPlainObject items = true
  ∧ ∃ hs body, renderNestedTable ∅ 12 "Results" (JArray items)
               = Some (Table "Results" hs (length items) body)
               ∧ ("Packages" ∉ hs) ∧ ("Vulnerabilities" ∉ hs).
Proof.
  intros items.
  assert (Hne : items ≠ []) by done.
  assert (Hobj : forallb isPlainObject items = true) by reflexivity.
  destruct (renderNestedTable ∅ 12 "Results" (JArray items)) as [node|] eqn:Hnode;
    [|by vm_compute in Hnode].
  destruct (proj1 results_table_columns ∅ 11 "Results" items node Hne Hobj Hnode)
    as (hs & body & -> & Hresults & _).
  destruct (Hresults eq_refl) as (Hp & Hv & _).
  split; [exact Hne|]. split; [exact Hobj|].
  exists hs, body. split; [reflexivity|]. split; [exact Hp|exact Hv].
Defined.

(** ** C8: what the view model leaves out *)

(** C8 fails on the code: an entry named [Packages] (or [Vulnerabilities])
    whose value is not a non-empty array of objects is drawn nowhere when the
    object also holds an array of objects, and a [Packages] entry of a row of
    [Results] that is not an array is drawn nowhere either.  In the three
    documents below the value 42 is reachable from the input and absent from
    the view model. *)
Theorem packages_entry_not_rendered (collapsedTables : gset string) :
  (buildViewModel collapsedTables packagesObjectRecord =
     Some (TableGroup
             [("X", Table "X" ["b"] 1 [([Scalar (JNumber "2")], [])])] [])
   ∧ ∃ node, buildViewModel collapsedTables packagesObjectRecord = Some node
             ∧ (JNumber "42" ∉ shownValues node)
             ∧ (JString "a" ∉ shownValues node))
  ∧ (∃ node, buildViewModel collapsedTables packagesNumbersRecord = Some node
             ∧ (JNumber "42" ∉ shownValues node))
  ∧ (buildViewModel collapsedTables resultsPackagesObject =
       Some (ExpandedObject
               [("Results",
                 Table "Results" ["Name"] 1 [([Scalar (JString "x")], [])])])
     ∧ ∃ node, buildViewModel collapsedTables resultsPackagesObject = Some node
               ∧ (JNumber "42" ∉ shownValues node)).
Proof.
  split_and!.
  - reflexivity.
  - eexists. split; [reflexivity|]. cbn. split; set_solver.
  - eexists. split; [reflexivity|]. cbn. set_solver.
  - reflexivity.
  - eexists. split; [reflexivity|]. cbn. set_solver.
Qed.

(** ** C10: copying a record *)








(** *** Strings *)



(** *** Numbers *)










(** *** Objects *)




(** *** The text of a value *)











(** *** Reading the text back *)
















(** * Further properties of the code *)

(** ** The grids of [getTableStructure] *)

(** X1: in every grid that [getTableStructure] returns, whatever the value and
    the excluded keys, every row has exactly one cell per header; and the grid
    of an array, whatever its elements, has exactly one row per element. *)
Theorem getTableStructure_row_width :
  (∀ data excludeKeys,
     Forall (λ row, length row = length (headers (getTableStructure data excludeKeys)))
            (rows (getTableStructure data excludeKeys)))
  ∧ (∀ items excludeKeys,
       length (rows (getTableStructure (JArray items) excludeKeys)) = length items).
Proof.
  split.
  - apply grid_row_width.
  - apply grid_row_count.
Qed.

(** X2: an array with an element that is not a plain object (a primitive, null
    or an array) gets the two columns Index and Value and one row per element,
    in order: the Index column counts from 0 and the Value column is the array
    itself.  The excluded keys play no part. *)
Theorem getTableStructure_mixed_array (items : list JsonValue)
    (excludeKeys : list string) :
  forallb isPlainObject items = false →
  let t := getTableStructure (JArray items) excludeKeys in
  headers t = ["Index"; "Value"]
  ∧ length (rows t) = length items
  ∧ (λ row, row !! 0) <$> rows t
    = (λ i, Some (numberOfNat i)) <$> seq 0 (length items)
  ∧ (λ row, row !! 1) <$> rows t = Some <$> items
  ∧ t = getTableStructure (JArray items) [].
Proof.
  intros Hmixed t. subst t.
  destruct items as [|x items]; [done|].
  cbn [getTableStructure]. rewrite Hmixed. cbn [headers rows].
  split; [done|]. split; [by rewrite length_imap|].
  split; [|split; [|done]].
  - generalize (x :: items). intros l.
    rewrite <- (imap_seq_0 l (λ i, Some (numberOfNat i))).
    rewrite fmap_imap. by apply imap_ext.
  - generalize (x :: items). intros l.
    rewrite fmap_imap. rewrite <- (imap_const Some). by apply imap_ext.
Qed.

Lemma getTableStructure_mixed_array_witness :
  let items := [JNumber "7"; JObject [("a", JNull)]] in
  let t := getTableStructure (JArray items) ["a"] in
  headers t = ["Index"; "Value"]
  ∧ length (rows t) = length items
  ∧ (λ row, row !! 0) <$> rows t
    = (λ i, Some (numberOfNat i)) <$> seq 0 (length items)
  ∧ (λ row, row !! 1) <$> rows t = Some <$> items
  ∧ t = getTableStructure (JArray items) [].
Proof.
  apply (getTableStructure_mixed_array [JNumber "7"; JObject [("a", JNull)]] ["a"]).
  reflexivity.
Defined.

(** X3: the grid of a single object has the columns Key and Value and one row
    per entry whose key is not excluded, in insertion order: the Key column
    lists the keys that are not excluded, the Value column their values, and
    no excluded key is in the Key column.  With nothing excluded the rows are
    the entries themselves. *)
Theorem getTableStructure_object (entries : list (string * JsonValue))
    (excludeKeys : list string) :
  let t := getTableStructure (JObject entries) excludeKeys in
  headers t = ["Key"; "Value"]
  ∧ (λ row, row !! 0) <$> rows t
    = (λ e, Some (JString e.1)) <$> filter (λ e, e.1 ∉ excludeKeys) entries
  ∧ (λ row, row !! 1) <$> rows t
    = (λ e, Some e.2) <$> filter (λ e, e.1 ∉ excludeKeys) entries
  ∧ (∀ k, k ∈ excludeKeys → ∀ row, row ∈ rows t → row !! 0 ≠ Some (JString k))
  ∧ rows (getTableStructure (JObject entries) [])
    = (λ e, [JString e.1; e.2]) <$> entries.
Proof.
  cbn [getTableStructure headers rows].
  assert (Hfilter : filter (λ '(key, _), key ∉ excludeKeys) entries
                    = filter (λ e : string * JsonValue, e.1 ∉ excludeKeys) entries).
  { induction entries as [|[k v] entries IH]; [done|].
    rewrite !filter_cons. cbn [fst]. rewrite IH.
    by destruct (decide (k ∉ excludeKeys)). }
  rewrite Hfilter. split; [done|].
  set (kept := filter _ entries).
  assert (Hrows : map (λ '(key, value), [JString key; value]) kept
                  = (λ e, [JString e.1; e.2]) <$> kept).
  { induction kept as [|[k v] kept IH]; [done|]. cbn. by rewrite <- IH. }
  rewrite Hrows. split_and!.
  - by rewrite <- list_fmap_compose.
  - by rewrite <- list_fmap_compose.
  - intros k Hk row Hrow Hcell.
    apply list_elem_of_fmap in Hrow as (e & -> & He).
    apply list_elem_of_filter in He as [Hkept _].
    cbn in Hcell. injection Hcell as Heq. by rewrite Heq in Hkept.
  - clear. induction entries as [|[k v] entries IH]; [done|].
    rewrite filter_cons. destruct (decide _) as [_|Hex].
    + cbn. f_equal. exact IH.
    + exfalso. apply Hex. apply not_elem_of_nil.
Qed.

Lemma getTableStructure_object_witness :
  let t := getTableStructure
             (JObject [("a", JNull); ("b", JBool true); ("c", JArray [])]) ["b"] in
  "b" ∈ ["b"]
  ∧ headers t = ["Key"; "Value"]
  ∧ rows t = [[JString "a"; JNull]; [JString "c"; JArray []]]
  ∧ ∀ row, row ∈ rows t → row !! 0 ≠ Some (JString "b").
Proof.
  assert (Hb : "b" ∈ ["b"]) by apply list_elem_of_here.
  split; [exact Hb|].
  destruct (getTableStructure_object
              [("a", JNull); ("b", JBool true); ("c", JArray [])] ["b"])
    as (Hheaders & _ & _ & Hexcluded & _).
  split; [exact Hheaders|]. split; [reflexivity|].
  exact (Hexcluded "b" Hb).
Defined.

(** ** Depth *)

Lemma maxDepth_shift (k : nat) (depths : list nat) :
  depths ≠ [] → maxDepth ((λ x, x + k) <$> depths) = maxDepth depths + k.
Proof.
  unfold maxDepth. destruct depths as [|d depths]; [done|]. intros _.
  revert d. induction depths as [|e depths IH]; intros d.
  - cbn. lia.
  - rewrite fmap_cons. cbn [foldr]. rewrite (IH e). cbn [foldr]. lia.
Qed.

Lemma maxDepth_elem (d : nat) (depths : list nat) :
  d ∈ depths → d ≤ maxDepth depths.
Proof.
  unfold maxDepth.
  induction 1 as [d depths|d e depths _ IH]; cbn [foldr] in *; lia.
Qed.

Lemma maxDepth_attained (depths : list nat) :
  depths ≠ [] → maxDepth depths ∈ depths.
Proof.
  unfold maxDepth. destruct depths as [|d depths]; [done|]. intros _.
  revert d. induction depths as [|e depths IH]; intros d.
  - cbn. rewrite Nat.max_0_r. left.
  - change (foldr Nat.max 0 (d :: e :: depths))
      with (Nat.max d (foldr Nat.max 0 (e :: depths))).
    destruct (Nat.max_spec d (foldr Nat.max 0 (e :: depths))) as [[_ ->]|[_ ->]].
    + right. apply IH.
    + left.
Qed.

Lemma getDepth_array_cons (x : JsonValue) (items : list JsonValue) (base : nat) :
  getDepth (JArray (x :: items)) base
  = maxDepth ((λ item, getDepth item (S base)) <$> (x :: items)).
Proof. reflexivity. Qed.

Lemma getDepth_object_cons (e : string * JsonValue)
    (entries : list (string * JsonValue)) (base : nat) :
  getDepth (JObject (e :: entries)) base
  = maxDepth ((λ e', getDepth e'.2 (S base)) <$> (e :: entries)).
Proof.
  cbn [getDepth]. f_equal. generalize (e :: entries). intros l.
  induction l as [|[k v] l IH]; [done|]. cbn. by rewrite IH.
Qed.

Lemma getDepth_shift (v : JsonValue) :
  ∀ base k, getDepth v (base + k) = getDepth v base + k.
Proof.
  induction v as [| | b | n | s | items IH | entries IH | fname]
    using JsonValue_nested_ind; intros base k; try done.
  - destruct items as [|x items]; [done|].
    rewrite !getDepth_array_cons.
    rewrite <- maxDepth_shift by done. f_equal.
    rewrite <- list_fmap_compose. apply Forall_fmap_ext_1.
    eapply Forall_impl; [exact IH|]. intros y Hy. cbn.
    by rewrite <- Hy.
  - destruct entries as [|e entries]; [done|].
    rewrite !getDepth_object_cons.
    rewrite <- maxDepth_shift by done. f_equal.
    rewrite <- list_fmap_compose. apply Forall_fmap_ext_1.
    eapply Forall_impl; [exact IH|]. intros y Hy. cbn.
    by rewrite <- Hy.
Qed.

(** The values [getDepth] looks into: the elements of an array, the values of
    an object. *)
Lemma children_depths {A : Type} (child : A → JsonValue) (children : list A)
    (base : nat) :
  (λ c, getDepth (child c) (S base)) <$> children
  = (λ d, d + 1) <$> ((λ c, getDepth (child c) base) <$> children).
Proof.
  rewrite <- list_fmap_compose. apply list_fmap_ext. intros i y _. cbn.
  rewrite <- getDepth_shift. f_equal. lia.
Qed.

Lemma getDepth_array_nonempty (x : JsonValue) (items : list JsonValue) :
  getDepth (JArray (x :: items)) 0
  = S (maxDepth ((λ item, getDepth item 0) <$> (x :: items))).
Proof.
  rewrite getDepth_array_cons, (children_depths id).
  rewrite maxDepth_shift by done. unfold id. lia.
Qed.

Lemma getDepth_object_nonempty (e : string * JsonValue)
    (entries : list (string * JsonValue)) :
  getDepth (JObject (e :: entries)) 0
  = S (maxDepth ((λ e', getDepth e'.2 0) <$> (e :: entries))).
Proof.
  rewrite getDepth_object_cons, (children_depths snd).
  rewrite maxDepth_shift by done. lia.
Qed.

(** X4: the starting depth is only added to the result, and each level of
    nesting adds one: the depth of a non-empty array is one more than the
    greatest depth of its elements, and the depth of a non-empty object one
    more than the greatest depth of its values. *)
Theorem getDepth_nesting :
  (∀ v base, getDepth v base = getDepth v 0 + base)
  ∧ (∀ x items,
       getDepth (JArray (x :: items)) 0
       = S (maxDepth ((λ item, getDepth item 0) <$> (x :: items))))
  ∧ (∀ e entries,
       getDepth (JObject (e :: entries)) 0
       = S (maxDepth ((λ e', getDepth e'.2 0) <$> (e :: entries)))).
Proof.
  split_and!.
  - intros v base. by rewrite <- getDepth_shift.
  - apply getDepth_array_nonempty.
  - apply getDepth_object_nonempty.
Qed.

Lemma getDepth_above_child {A : Type} (child : A → JsonValue) (c : A)
    (children : list A) :
  c ∈ children →
  getDepth (child c) 0 < S (maxDepth ((λ c', getDepth (child c') 0) <$> children)).
Proof.
  intros Hin. apply Nat.lt_succ_r, maxDepth_elem.
  apply list_elem_of_fmap. by exists c.
Qed.

(** X5: the depth of a value is less than its size; it is 0 exactly for
    scalars, null, undefined and empty collections; and a non-empty array or
    object is strictly deeper than each of its elements or values. *)
Theorem getDepth_bounds :
  (∀ v, getDepth v 0 < size v)
  ∧ (∀ v, getDepth v 0 = 0 ↔
          (∀ x items, v ≠ JArray (x :: items))
          ∧ (∀ e entries, v ≠ JObject (e :: entries)))
  ∧ (∀ x items, x ∈ items → getDepth x 0 < getDepth (JArray items) 0)
  ∧ (∀ k x entries, (k, x) ∈ entries →
                    getDepth x 0 < getDepth (JObject entries) 0).
Proof.
  split_and!.
  - intros v. induction v as [| | b | n | s | items IH | entries IH | fname]
      using JsonValue_nested_ind; try (cbn; lia).
    + destruct items as [|x items]; [cbn; lia|].
      rewrite getDepth_array_nonempty.
      pose proof (maxDepth_attained ((λ item, getDepth item 0) <$> (x :: items)))
        as Hmax.
      apply list_elem_of_fmap in Hmax as (c & Hc & Hin); [|done].
      rewrite Hc. eapply Forall_forall in IH; [|exact Hin].
      pose proof (size_item _ _ Hin). lia.
    + destruct entries as [|e entries]; [cbn; lia|].
      rewrite getDepth_object_nonempty.
      pose proof (maxDepth_attained ((λ e', getDepth e'.2 0) <$> (e :: entries)))
        as Hmax.
      apply list_elem_of_fmap in Hmax as ([k c] & Hc & Hin); [|done].
      rewrite Hc. eapply Forall_forall in IH; [|exact Hin].
      pose proof (size_entry _ _ _ Hin). cbn [snd] in *. lia.
  - intros v. destruct v as [| | b | n | s | [|x items] | [|e entries] | fname];
      try (split; [by intros _; split; intros | done]).
    + rewrite getDepth_array_nonempty. split; [lia|].
      intros [H _]. by destruct (H x items).
    + rewrite getDepth_object_nonempty. split; [lia|].
      intros [_ H]. by destruct (H e entries).
  - intros x [|y items] Hin; [by apply not_elem_of_nil in Hin|].
    rewrite getDepth_array_nonempty. by apply (getDepth_above_child id).
  - intros k x [|e entries] Hin; [by apply not_elem_of_nil in Hin|].
    rewrite getDepth_object_nonempty.
    by apply (getDepth_above_child snd (k, x)).
Qed.

Lemma getDepth_bounds_witness :
  getDepth (JNumber "1") 0 < getDepth (JArray [JNull; JNumber "1"]) 0
  ∧ getDepth (JArray []) 0 < getDepth (JObject [("a", JArray [])]) 0.
Proof.
  destruct getDepth_bounds as (_ & _ & Harr & Hobj). split.
  - apply Harr. right. left.
  - apply (Hobj "a"). left.
Defined.

(** ** Collapsing tables *)

(** X6: [toggleTable] flips the membership of the identifier it is given and
    of no other; toggling the same identifier twice restores the set, and
    toggles of two identifiers can be done in either order. *)
Theorem toggleTable_flips (prev : gset string) (tableId : string) :
  (tableId ∈ toggleTable prev tableId ↔ tableId ∉ prev)
  ∧ (∀ other, other ≠ tableId →
              (other ∈ toggleTable prev tableId ↔ other ∈ prev))
  ∧ toggleTable (toggleTable prev tableId) tableId = prev
  ∧ (∀ other, toggleTable (toggleTable prev tableId) other
              = toggleTable (toggleTable prev other) tableId).
Proof.
  assert (Hmem : ∀ s t x, x ∈ toggleTable s t ↔
                          (x = t ∧ t ∉ s) ∨ (x ≠ t ∧ x ∈ s)).
  { intros s t x. unfold toggleTable.
    destruct (decide (t ∈ s)); destruct (decide (x = t)); set_solver. }
  split_and!.
  - rewrite Hmem. naive_solver.
  - intros other Hne. rewrite Hmem. naive_solver.
  - apply set_eq. intros x. rewrite !Hmem.
    destruct (decide (x = tableId)); destruct (decide (tableId ∈ prev));
      naive_solver.
  - intros other. apply set_eq. intros x. rewrite !Hmem.
    destruct (decide (x = tableId)); destruct (decide (x = other));
      destruct (decide (tableId ∈ prev)); destruct (decide (other ∈ prev));
      naive_solver.
Qed.

Lemma toggleTable_flips_witness :
  ("table-0-Packages" ∈ toggleTable {["table-1-Packages"]} "table-0-Packages"
   ↔ "table-0-Packages" ∉ ({["table-1-Packages"]} : gset string))
  ∧ ("table-1-Packages" ∈ toggleTable {["table-1-Packages"]} "table-0-Packages"
     ↔ "table-1-Packages" ∈ ({["table-1-Packages"]} : gset string)).
Proof.
  destruct (toggleTable_flips {["table-1-Packages"]} "table-0-Packages")
    as (Hself & Hother & _).
  split; [exact Hself|]. apply Hother. discriminate.
Defined.

(** What [renderCollapsibleTable] draws for an array with fuel of four times
    its size. *)
Lemma renderCollapsibleTable_drawn (collapsedTables : gset string) (key : string)
    (items : list JsonValue) (index : nat) (tableId : string) :
  ∃ grid,
    renderCollapsibleTable collapsedTables (4 * size (JArray items)) key
                           (JArray items) index tableId
    = Some (CollapsibleTable key index tableId
              (bool_decide (tableId ∈ collapsedTables)) (length items) grid)
    ∧ (tableId ∈ collapsedTables → grid = None)
    ∧ (tableId ∉ collapsedTables →
         ∃ body,
           grid = Some (headers (getTableStructure (JArray items) []), body)
           ∧ length body = length items
           ∧ Forall (λ row, length row
                            = length (headers (getTableStructure (JArray items) [])))
                    body).
Proof.
  destruct (render_total collapsedTables (4 * size (JArray items)))
    as (_ & _ & Hc & _).
  destruct (Hc key (JArray items) index tableId) as [node Hnode]; [done|lia|].
  rewrite Hnode. apply renderCollapsibleTable_Some in Hnode as (grid & -> & Hgrid).
  exists grid. split; [done|].
  destruct grid as [[columns body]|].
  - destruct Hgrid as (Hout & -> & Hlen & Hwidth). split; [done|].
    intros _. exists body. split; [done|].
    split; [by rewrite Hlen, grid_row_count | done].
  - split; [done|]. by intros Hout.
Qed.

(** X7: on an array, [renderCollapsibleTable] returns a collapsible table
    whose title, index, identifier and item count do not depend on the
    collapse state; the table is collapsed exactly when its identifier is in
    the set; a collapsed table draws neither a header row nor rows, and an
    expanded one draws the columns of the grid of the array and one row per
    element, each with one cell per column. *)
Theorem renderCollapsibleTable_shape (collapsedTables : gset string)
    (key : string) (items : list JsonValue) (index : nat) (tableId : string) :
  ∃ grid,
    renderCollapsibleTable collapsedTables (4 * size (JArray items)) key
                           (JArray items) index tableId
    = Some (CollapsibleTable key index tableId
              (bool_decide (tableId ∈ collapsedTables)) (length items) grid)
    ∧ (tableId ∈ collapsedTables → grid = None)
    ∧ (tableId ∉ collapsedTables →
         ∃ body,
           grid = Some (headers (getTableStructure (JArray items) []), body)
           ∧ length body = length items
           ∧ Forall (λ row, length row
                            = length (headers (getTableStructure (JArray items) [])))
                    body).
Proof.
  destruct (renderCollapsibleTable_drawn collapsedTables key items index tableId)
    as (grid & Hnode & Hcollapsed & Hexpanded).
  exists grid. split; [exact Hnode|]. split; [exact Hcollapsed|].
  intros Hout. destruct (Hexpanded Hout) as (body & -> & Hlen & Hwidth).
  by exists body.
Qed.

(** X8: toggling the identifier of a collapsible table and drawing it again
    flips it between collapsed and expanded: title, index and item count stay
    the same, and the grid is drawn in exactly one of the two states; a table
    drawn under another identifier keeps its state. *)
Theorem toggle_then_render (collapsedTables : gset string) (key : string)
    (items : list JsonValue) (index : nat) (tableId : string) :
  (∃ grid grid',
     renderCollapsibleTable collapsedTables (4 * size (JArray items)) key
                            (JArray items) index tableId
     = Some (CollapsibleTable key index tableId
               (bool_decide (tableId ∈ collapsedTables)) (length items) grid)
     ∧ renderCollapsibleTable (toggleTable collapsedTables tableId)
                              (4 * size (JArray items)) key
                              (JArray items) index tableId
       = Some (CollapsibleTable key index tableId
                 (negb (bool_decide (tableId ∈ collapsedTables)))
                 (length items) grid')
     ∧ (grid = None ↔ is_Some grid'))
  ∧ (∀ other, other ≠ tableId →
       ∃ grid grid',
         renderCollapsibleTable collapsedTables (4 * size (JArray items)) key
                                (JArray items) index other
         = Some (CollapsibleTable key index other
                   (bool_decide (other ∈ collapsedTables)) (length items) grid)
         ∧ renderCollapsibleTable (toggleTable collapsedTables tableId)
                                  (4 * size (JArray items)) key
                                  (JArray items) index other
           = Some (CollapsibleTable key index other
                     (bool_decide (other ∈ collapsedTables)) (length items) grid')
         ∧ (grid = None ↔ grid' = None)).
Proof.
  assert (Hmem : ∀ x, x ∈ toggleTable collapsedTables tableId ↔
                      (x = tableId ∧ tableId ∉ collapsedTables)
                      ∨ (x ≠ tableId ∧ x ∈ collapsedTables)).
  { intros x. unfold toggleTable.
    destruct (decide (tableId ∈ collapsedTables)); destruct (decide (x = tableId));
      set_solver. }
  assert (Hgrid : ∀ (c : gset string) (id : string) grid,
    (id ∈ c → grid = None) →
    (id ∉ c → ∃ body : list (list RenderNode),
        grid = Some (headers (getTableStructure (JArray items) []), body)
        ∧ length body = length items
        ∧ Forall (λ row, length row
                         = length (headers (getTableStructure (JArray items) [])))
                 body) →
    grid = None ↔ id ∈ c).
  { intros c id grid Hin Hout. split; [|exact Hin].
    intros ->. destruct (decide (id ∈ c)) as [?|Hno]; [done|].
    by destruct (Hout Hno) as (body & ? & _). }
  split.
  - destruct (renderCollapsibleTable_drawn collapsedTables key items index tableId)
      as (grid & Hnode & Hin & Hout).
    destruct (renderCollapsibleTable_drawn (toggleTable collapsedTables tableId)
                key items index tableId) as (grid' & Hnode' & Hin' & Hout').
    exists grid, grid'. split; [exact Hnode|].
    pose proof (Hgrid _ _ _ Hin Hout) as Hg.
    pose proof (Hgrid _ _ _ Hin' Hout') as Hg'.
    split.
    + rewrite Hnode'. do 3 f_equal.
      destruct (decide (tableId ∈ collapsedTables)) as [Hc|Hc].
      * rewrite (bool_decide_eq_true_2 _ Hc). apply bool_decide_eq_false.
        rewrite Hmem. naive_solver.
      * rewrite (bool_decide_eq_false_2 _ Hc). apply bool_decide_eq_true.
        rewrite Hmem. naive_solver.
    + rewrite Hg, <- not_eq_None_Some, Hg', Hmem.
      destruct (decide (tableId ∈ collapsedTables)); naive_solver.
  - intros other Hne.
    destruct (renderCollapsibleTable_drawn collapsedTables key items index other)
      as (grid & Hnode & Hin & Hout).
    destruct (renderCollapsibleTable_drawn (toggleTable collapsedTables tableId)
                key items index other) as (grid' & Hnode' & Hin' & Hout').
    exists grid, grid'. split; [exact Hnode|].
    pose proof (Hgrid _ _ _ Hin Hout) as Hg.
    pose proof (Hgrid _ _ _ Hin' Hout') as Hg'.
    split.
    + rewrite Hnode'. do 3 f_equal. apply bool_decide_ext.
      rewrite Hmem. naive_solver.
    + rewrite Hg, Hg', Hmem. tauto.
Qed.

Lemma toggle_then_render_witness :
  ∃ grid grid',
    renderCollapsibleTable ∅ (4 * size (JArray [JObject [("n", JNumber "1")]]))
      "Packages" (JArray [JObject [("n", JNumber "1")]]) 2 "table-1-Packages"
    = Some (CollapsibleTable "Packages" 2 "table-1-Packages"
              (bool_decide ("table-1-Packages" ∈ (∅ : gset string))) 1 grid)
    ∧ renderCollapsibleTable (toggleTable ∅ "table-0-Packages")
        (4 * size (JArray [JObject [("n", JNumber "1")]]))
        "Packages" (JArray [JObject [("n", JNumber "1")]]) 2 "table-1-Packages"
      = Some (CollapsibleTable "Packages" 2 "table-1-Packages"
                (bool_decide ("table-1-Packages" ∈ (∅ : gset string))) 1 grid')
    ∧ (grid = None ↔ grid' = None).
Proof.
  assert (Hne : "table-1-Packages" ≠ "table-0-Packages") by discriminate.
  exact (proj2 (toggle_then_render ∅ "Packages" [JObject [("n", JNumber "1")]] 2
                  "table-0-Packages") "table-1-Packages" Hne).
Defined.

Lemma renderCollapsibleTable_shape_witness :
  ∃ grid,
    renderCollapsibleTable {["t"]} (4 * size (JArray [JNull])) "Packages"
                           (JArray [JNull]) 2 "t"
    = Some (CollapsibleTable "Packages" 2 "t"
              (bool_decide ("t" ∈ ({["t"]} : gset string))) 1 grid)
    ∧ grid = None.
Proof.
  destruct (renderCollapsibleTable_shape {["t"]} "Packages" [JNull] 2 "t")
    as (grid & Hnode & Hcollapsed & _).
  exists grid. split; [exact Hnode|]. apply Hcollapsed. set_solver.
Defined.

(** ** Nested tables *)

Lemma falsyChild_length (flag : JsonValue) : length (falsyChild flag) ≤ 1.
Proof. destruct flag; cbn; lia. Qed.

Lemma rowChildren_length
    (drawTable : string → JsonValue → nat → string → option RenderNode)
    (originalRow : JsonValue) (rowIndex : nat) (beneath : list RenderNode) :
  rowChildren drawTable originalRow rowIndex = Some beneath →
  length beneath ≤ 2.
Proof.
  unfold rowChildren. cbn zeta.
  destruct (isFalsy (if isFalsy _ then _ else _)).
  - intros [= <-]. pose proof (falsyChild_length
      (if isFalsy (nonEmptyArrayFlag (getProp originalRow "Packages"))
       then nonEmptyArrayFlag (getProp originalRow "Vulnerabilities")
       else nonEmptyArrayFlag (getProp originalRow "Packages"))). lia.
  - intros Hbeneath.
    match type of Hbeneath with
    | (?m ≫= _) = _ => destruct m as [vul|] eqn:Hvul
    end; cbn [mbind option_bind] in Hbeneath; [|done].
    match type of Hbeneath with
    | (?m ≫= _) = _ => destruct m as [pk|] eqn:Hpk
    end; cbn [mbind option_bind] in Hbeneath; [|done].
    injection Hbeneath as <-. rewrite length_app.
    assert (Hone : ∀ flag (r : option RenderNode) nodes,
      (if isFalsy flag then Some (falsyChild flag) else (λ node, [node]) <$> r)
      = Some nodes → length nodes ≤ 1).
    { intros flag r nodes. destruct (isFalsy flag).
      - intros [= <-]. apply falsyChild_length.
      - destruct r; [|done]. intros [= <-]. cbn. lia. }
    apply Hone in Hvul, Hpk. lia.
Qed.

(** X9: [renderNestedTable] draws a table exactly for a non-empty array whose
    elements are all objects or arrays, and returns nothing for every other
    value.  The table carries the key as its title and the length of the array
    as its item count, and has one row per element; every row has one cell per
    column and at most two collapsible tables beneath it. *)
Theorem renderNestedTable_shape (collapsedTables : gset string) (key : string)
    (v : JsonValue) :
  (isArrayOfObjects v = false →
     ∀ fuel, renderNestedTable collapsedTables (S fuel) key v = Some Nothing)
  ∧ (isArrayOfObjects v = true →
       ∃ hs body,
         renderNestedTable collapsedTables (4 * size v) key v
         = Some (Table key hs (arrayLength v) body)
         ∧ length body = arrayLength v
         ∧ Forall (λ r, length r.1 = length hs ∧ length r.2 ≤ 2) body).
Proof.
  split.
  - intros Hq fuel. cbn [renderNestedTable]. by rewrite Hq.
  - intros Hq.
    destruct (render_total collapsedTables (4 * size v)) as (_ & Ht & _).
    destruct (Ht key v) as [node Hnode]; [lia|].
    pose proof (size_pos v) as Hpos.
    destruct (4 * size v) as [|fuel] eqn:Hfuel; [lia|].
    cbn [renderNestedTable] in Hnode |- *. rewrite Hq in Hnode |- *.
    set (excludeKeys := if (key =? "Results")%string then _ else _) in *.
    destruct (sequence _) as [body|] eqn:Hbody; [|done].
    destruct v as [| | | | |items| | fname]; try done.
    exists (headers (getTableStructure (JArray items) excludeKeys)), body.
    split; [done|].
    apply sequence_imap_rows in Hbody as [Hlen Hrows].
    split; [by rewrite Hlen, grid_row_count|].
    apply Forall_forall. intros [cells children] Hr.
    destruct (Hrows _ Hr) as (i & row & Hrow & Hrender). cbn beta in Hrender.
    destruct (sequence _) as [cells'|] eqn:Hcells in Hrender; [|done].
    cbn [mbind option_bind] in Hrender.
    destruct (rowChildren _ _ i) as [beneath|] eqn:Hbeneath;
      cbn [mbind option_bind] in Hrender; [|done].
    injection Hrender as <- <-. cbn [fst snd]. split.
    + apply sequence_imap_rows in Hcells as [-> _].
      pose proof (grid_row_width (JArray items) excludeKeys) as Hwidth.
      eapply Forall_forall in Hwidth; [exact Hwidth|].
      by eapply list_elem_of_lookup_2.
    + by apply rowChildren_length in Hbeneath.
Qed.

Lemma renderNestedTable_shape_witness :
  renderNestedTable ∅ 1 "k" (JArray [JNumber "1"]) = Some Nothing
  ∧ ∃ hs body,
      renderNestedTable ∅ (4 * size (JArray [JArray []])) "k" (JArray [JArray []])
      = Some (Table "k" hs 1 body)
      ∧ length body = 1.
Proof.
  split.
  - apply (proj1 (renderNestedTable_shape ∅ "k" (JArray [JNumber "1"]))).
    reflexivity.
  - destruct (proj2 (renderNestedTable_shape ∅ "k" (JArray [JArray []])) eq_refl)
      as (hs & body & Hnode & Hlen & _).
    exists hs, body. split; [exact Hnode|exact Hlen].
Defined.

(** ** The node chosen for a value *)

Lemma renderCellValue_scalar (collapsedTables : gset string) (fuel : nat)
    (v : JsonValue) (pk : option string) (pri : option nat) :
  isObjectLike v = false →
  renderCellValue collapsedTables (S fuel) v pk pri = Some (Scalar v).
Proof. by destruct v. Qed.

Lemma mapM_scalars (collapsedTables : gset string) (fuel : nat)
    (items : list JsonValue) (pk : option string) (pri : option nat) :
  Forall (λ x, isObjectLike x = false) items →
  mapM (λ item, renderCellValue collapsedTables (S fuel) item pk pri) items
  = Some (Scalar <$> items).
Proof.
  intros H. apply mapM_Some. induction H as [|x items Hx _ IH]; constructor.
  - by apply renderCellValue_scalar.
  - exact IH.
Qed.

(** X10: an array that is not empty and has an element that is neither an
    object nor an array is drawn as a list of badges with exactly one badge
    per element; when no element is an object or an array, the badges are the
    elements themselves, in order, whatever the parent key and row index. *)
Theorem badges_show_every_element (collapsedTables : gset string)
    (items : list JsonValue) (pk : option string) (pri : option nat) :
  items ≠ [] →
  (forallb isObjectLike items = false →
     ∃ badges,
       renderCellWithNestedArrays collapsedTables (4 * size (JArray items))
                                  (JArray items) pk pri
       = Some (BadgeList badges)
       ∧ length badges = length items)
  ∧ (Forall (λ x, isObjectLike x = false) items →
       ∀ fuel, renderCellWithNestedArrays collapsedTables (S (S fuel))
                                          (JArray items) pk pri
               = Some (BadgeList (Scalar <$> items))).
Proof.
  intros Hne. split.
  - intros Hmixed.
    destruct (render_total collapsedTables (4 * size (JArray items))) as (Ha & _).
    destruct (Ha (JArray items) pk pri) as [node Hnode]; [lia|].
    pose proof (size_pos (JArray items)) as Hpos.
    destruct (4 * size (JArray items)) as [|fuel] eqn:Hfuel; [lia|].
    cbn [renderCellWithNestedArrays isArrayOfObjects] in Hnode |- *.
    rewrite Hmixed, andb_false_r in Hnode |- *.
    destruct items as [|x items]; [done|]. cbn [length Nat.eqb negb] in Hnode |- *.
    destruct (mapM _ (x :: items)) as [badges|] eqn:Hbadges; [|done].
    exists badges. split; [done|]. by apply length_mapM in Hbadges.
  - intros Hprim fuel.
    destruct items as [|x items]; [done|].
    cbn [renderCellWithNestedArrays isArrayOfObjects].
    assert (Hmixed : forallb isObjectLike (x :: items) = false).
    { apply Forall_cons in Hprim as [Hx _]. cbn. by rewrite Hx. }
    rewrite Hmixed, andb_false_r. cbn [length Nat.eqb negb].
    by rewrite mapM_scalars.
Qed.

Lemma badges_show_every_element_witness :
  renderCellWithNestedArrays ∅ 2 (JArray [JNumber "1"; JNull]) (Some "tags") None
  = Some (BadgeList (Scalar <$> [JNumber "1"; JNull])).
Proof.
  assert (Hne : [JNumber "1"; JNull] ≠ []) by done.
  apply (proj2 (badges_show_every_element ∅ [JNumber "1"; JNull] (Some "tags") None
                  Hne)).
  repeat constructor.
Defined.

(** X13: [renderCellValue] and [renderCellWithNestedArrays] draw the same node
    for every value, parent key and row index; for a value that is neither an
    object nor an array that node is the scalar itself. *)
Theorem renderCellValue_agrees (collapsedTables : gset string) (v : JsonValue)
    (pk : option string) (pri : option nat) :
  ∃ node,
    (∀ extra,
       renderCellWithNestedArrays collapsedTables (4 * size v + extra) v pk pri
       = Some node
       ∧ renderCellValue collapsedTables (4 * size v + 1 + extra) v pk pri
         = Some node)
    ∧ (isObjectLike v = false → node = Scalar v).
Proof.
  destruct (render_total collapsedTables (4 * size v)) as (Ha & _).
  destruct (Ha v pk pri) as [node Hnode]; [lia|].
  exists node.
  assert (Hcell : ∀ extra,
    renderCellWithNestedArrays collapsedTables (4 * size v + extra) v pk pri
    = Some node).
  { intros extra.
    destruct (FuelRefines_le collapsedTables (4 * size v) (4 * size v + extra))
      as (Hle & _); [lia|]. by apply Hle. }
  split.
  - intros extra. split; [apply Hcell|].
    replace (4 * size v + 1 + extra) with (S (4 * size v + extra)) by lia.
    destruct v; try exact (Hcell extra).
    all: specialize (Hcell 0); pose proof (size_pos JNull);
      cbn [size] in Hcell; cbn in Hcell; cbn; exact Hcell.
  - intros Hscalar. specialize (Hcell 0).
    destruct v; try done; cbn in Hcell; by injection Hcell as <-.
Qed.

Lemma renderCellValue_agrees_witness :
  ∃ node,
    renderCellWithNestedArrays ∅ (4 * size (JString "s")) (JString "s") None None
    = Some node
    ∧ node = Scalar (JString "s").
Proof.
  destruct (renderCellValue_agrees ∅ (JString "s") None None)
    as (node & Hnode & Hscalar).
  exists node. split.
  - rewrite <- (proj1 (Hnode 0)). reflexivity.
  - apply Hscalar. reflexivity.
Defined.

(** ** Objects *)

Lemma hasNestedArrays_Exists (entries : list (string * JsonValue)) :
  existsb (λ '(_, v), isArrayOfObjects v) entries = true ↔
  Exists (λ e, isArrayOfObjects e.2 = true) entries.
Proof.
  rewrite existsb_Exists. apply Exists_proper; [|done]. by intros [k v].
Qed.

Lemma hasTableKey_Exists (entries : list (string * JsonValue)) :
  existsb (λ '(k, _), String.eqb k "Packages") entries
  || existsb (λ '(k, _), String.eqb k "Vulnerabilities") entries = true ↔
  Exists (λ e, isTableKey e.1 = true) entries.
Proof.
  rewrite orb_true_iff, !existsb_Exists, !Exists_exists. unfold isTableKey.
  split.
  - intros [([k v] & Hin & Hk)|([k v] & Hin & Hk)]; exists (k, v);
      (split; [done|]); cbn; rewrite Hk; [done|apply orb_true_r].
  - intros ([k v] & Hin & Hk). cbn in Hk. apply orb_true_iff in Hk as [Hk|Hk];
      [left|right]; by exists (k, v).
Qed.

Lemma labelled_label (k : string) (r : option RenderNode)
    (e : string * RenderNode) :
  labelled k r = Some e → e.1 = k.
Proof. destruct r as [node|]; [|done]. by intros [= <-]. Qed.

Lemma mapM_keeps_labels {A : Type} (F : string * A → option (string * RenderNode))
    (l : list (string * A)) (l' : list (string * RenderNode)) :
  (∀ e r, F e = Some r → r.1 = e.1) → mapM F l = Some l' → l'.*1 = l.*1.
Proof.
  intros HF H. apply mapM_Some in H.
  induction H as [|e r l l' Her _ IH]; [done|].
  rewrite !fmap_cons, IH. f_equal. by apply HF.
Qed.

(** X11: an object none of whose values is a non-empty array of objects or
    arrays is drawn as a key-value panel, and an object that has such a value
    but no key named [Packages] or [Vulnerabilities] is drawn expanded; in
    both cases the node lists every key of the object exactly once, in the
    object's own order. *)
Theorem object_entries_all_listed (collapsedTables : gset string)
    (entries : list (string * JsonValue)) (pk : option string) (pri : option nat) :
  (Forall (λ e, isArrayOfObjects e.2 = false) entries →
     ∃ shown,
       renderCellWithNestedArrays collapsedTables (4 * size (JObject entries))
                                  (JObject entries) pk pri
       = Some (KeyValuePanel shown)
       ∧ shown.*1 = entries.*1)
  ∧ (Exists (λ e, isArrayOfObjects e.2 = true) entries →
     Forall (λ e, isTableKey e.1 = false) entries →
     ∃ shown,
       renderCellWithNestedArrays collapsedTables (4 * size (JObject entries))
                                  (JObject entries) pk pri
       = Some (ExpandedObject shown)
       ∧ shown.*1 = entries.*1).
Proof.
  destruct (render_total collapsedTables (4 * size (JObject entries))) as (Ha & _).
  destruct (Ha (JObject entries) pk pri) as [node Hnode]; [lia|].
  pose proof (size_pos (JObject entries)) as Hpos.
  destruct (4 * size (JObject entries)) as [|fuel] eqn:Hfuel; [lia|].
  cbn [renderCellWithNestedArrays] in Hnode |- *. split.
  - intros Hplain.
    assert (Hnone : existsb (λ '(_, v), isArrayOfObjects v) entries = false).
    { destruct (existsb _ entries) eqn:E; [|done].
      apply hasNestedArrays_Exists, Exists_exists in E as (e & Hin & He).
      eapply Forall_forall in Hplain; [|exact Hin]. congruence. }
    rewrite Hnone in Hnode |- *.
    destruct (mapM _ entries) as [shown|] eqn:Hshown; [|done].
    exists shown. split; [done|].
    eapply mapM_keeps_labels; [|exact Hshown].
    intros [k v] r. cbn [fst].
    destruct v as [| | | | | xs | [|e es] | fname];
      try (apply labelled_label).
    destruct (isArrayOfObjects (JArray xs)); [apply labelled_label|].
    destruct (negb (length xs =? 0)); apply labelled_label.
  - intros Hnested Hkeys.
    apply hasNestedArrays_Exists in Hnested. rewrite Hnested in Hnode |- *.
    assert (Hnone : existsb (λ '(k, _), String.eqb k "Packages") entries
                    || existsb (λ '(k, _), String.eqb k "Vulnerabilities") entries
                    = false).
    { destruct (_ || _) eqn:E; [|done].
      apply hasTableKey_Exists, Exists_exists in E as (e & Hin & He).
      eapply Forall_forall in Hkeys; [|exact Hin]. congruence. }
    rewrite Hnone in Hnode |- *.
    destruct (mapM _ entries) as [shown|] eqn:Hshown; [|done].
    exists shown. split; [done|].
    eapply mapM_keeps_labels; [|exact Hshown].
    intros [k v] r. cbn [fst].
    destruct v as [| | | | | xs | es | fname]; try (apply labelled_label).
    destruct (isArrayOfObjects (JArray xs)); [apply labelled_label|].
    destruct (negb (length xs =? 0)); [apply labelled_label|].
    by intros [= <-].
Qed.

Lemma object_entries_all_listed_witness :
  (∃ shown,
     renderCellWithNestedArrays ∅ (4 * size commaRecord) commaRecord None None
     = Some (KeyValuePanel shown)
     ∧ shown.*1 = ["a"; "b"])
  ∧ (∃ shown,
       renderCellWithNestedArrays ∅ (4 * size resultsDocument) resultsDocument
                                  None None
       = Some (ExpandedObject shown)
       ∧ shown.*1 = ["Results"]).
Proof.
  split.
  - assert (H : Forall (λ e : string * JsonValue, isArrayOfObjects e.2 = false)
                       [("a", JString "x,y"); ("b", JNumber "2")])
      by repeat constructor.
    exact (proj1 (object_entries_all_listed ∅ _ None None) H).
  - set (entries := [("Results", getProp resultsDocument "Results")]).
    assert (H1 : Exists (λ e : string * JsonValue, isArrayOfObjects e.2 = true)
                        entries) by (left; reflexivity).
    assert (H2 : Forall (λ e : string * JsonValue, isTableKey e.1 = false) entries)
      by repeat constructor.
    exact (proj2 (object_entries_all_listed ∅ entries None None) H1 H2).
Defined.

Lemma otherEntries_keys (entries : list (string * JsonValue)) :
  (filter (λ '(k, _), negb (isTableKey k)) entries).*1
  = filter (λ k, isTableKey k = false) entries.*1.
Proof.
  induction entries as [|[k v] entries IH]; [done|].
  rewrite fmap_cons, !filter_cons. cbn [fst].
  repeat case_decide; cbn in *; rewrite ?fmap_cons, ?IH; try done;
    destruct (isTableKey k); cbn in *; done.
Qed.

Lemma collapsible_headings (collapsedTables : gset string) (fuel : nat)
    (pri : option nat) (tableEntries : list (string * JsonValue))
    (tables : list RenderNode) :
  mapM (λ '(k, v),
          renderCollapsibleTable collapsedTables fuel k v
            (if String.eqb k "Vulnerabilities" then 1 else 2)
            ("table-" ++ natToString (default 0 pri) ++ "-" ++ k))
       tableEntries = Some tables →
  collapsibleHeading <$> tables
  = (λ e, Some (e.1, if String.eqb e.1 "Vulnerabilities" then 1 else 2))
      <$> tableEntries.
Proof.
  intros H. apply mapM_Some in H.
  induction H as [|[k v] node l l' Hnode _ IH]; [done|].
  rewrite !fmap_cons, IH. f_equal.
  by apply renderCollapsibleTable_Some in Hnode as (grid & -> & _).
Qed.

Lemma isTableKey_true (k : string) :
  isTableKey k = true ↔ k = "Packages" ∨ k = "Vulnerabilities".
Proof.
  unfold isTableKey. rewrite orb_true_iff, !String.eqb_eq. done.
Qed.

Lemma vulnerabilities_first (entries : list (string * JsonValue)) :
  (λ e : string * JsonValue,
     Some (e.1, if String.eqb e.1 "Vulnerabilities" then 1 else 2))
    <$> sortTableEntries
          (filter (λ '(k, v), isTableKey k && isArrayOfObjects v) entries)
  = (((λ _, Some ("Vulnerabilities", 1))
        <$> filter (λ e, e.1 = "Vulnerabilities" ∧ isArrayOfObjects e.2 = true)
                   entries)
     ++ ((λ _, Some ("Packages", 2))
           <$> filter (λ e, e.1 = "Packages" ∧ isArrayOfObjects e.2 = true)
                      entries))%list.
Proof.
  unfold sortTableEntries. rewrite fmap_app. f_equal.
  - induction entries as [|[k v] entries IH]; [done|].
    rewrite !filter_cons. cbn [fst snd].
    destruct (Sumbool.sumbool_of_bool (isTableKey k && isArrayOfObjects v))
      as [Hq|Hq].
    + rewrite decide_True by (cbn; by rewrite Hq). rewrite filter_cons.
      apply andb_true_iff in Hq as [Hk Hv]. apply isTableKey_true in Hk.
      repeat case_decide; rewrite ?fmap_cons, ?IH; cbn [fst];
        try done; try (exfalso; naive_solver).
      by subst k.
    + rewrite decide_False
        by (intros HP%Is_true_true;
            change (isTableKey k && isArrayOfObjects v = true) in HP;
            congruence).
      rewrite decide_False; [exact IH|]. intros [-> Hv].
      by rewrite Hv in Hq.
  - induction entries as [|[k v] entries IH]; [done|].
    rewrite !filter_cons. cbn [fst snd].
    destruct (Sumbool.sumbool_of_bool (isTableKey k && isArrayOfObjects v))
      as [Hq|Hq].
    + rewrite decide_True by (cbn; by rewrite Hq). rewrite filter_cons.
      apply andb_true_iff in Hq as [Hk Hv]. apply isTableKey_true in Hk.
      repeat case_decide; rewrite ?fmap_cons, ?IH; cbn [fst];
        try done; try (exfalso; naive_solver).
      destruct H0 as [Hp _]. by rewrite Hp.
    + rewrite decide_False
        by (intros HP%Is_true_true;
            change (isTableKey k && isArrayOfObjects v = true) in HP;
            congruence).
      rewrite decide_False; [exact IH|]. intros [-> Hv].
      by rewrite Hv in Hq.
Qed.

(** X12: an object that has a non-empty array of objects or arrays among its
    values and a key named [Packages] or [Vulnerabilities] is drawn as a group:
    first the entries under every other key, in the object's order, then one
    collapsible table per [Vulnerabilities] entry holding such an array, with
    index 1, and after those one per such [Packages] entry, with index 2,
    wherever the two keys stand in the object. *)
Theorem table_group_order (collapsedTables : gset string)
    (entries : list (string * JsonValue)) (pk : option string) (pri : option nat) :
  Exists (λ e, isArrayOfObjects e.2 = true) entries →
  Exists (λ e, isTableKey e.1 = true) entries →
  ∃ others tables,
    renderCellWithNestedArrays collapsedTables (4 * size (JObject entries))
                               (JObject entries) pk pri
    = Some (TableGroup others tables)
    ∧ others.*1 = filter (λ k, isTableKey k = false) entries.*1
    ∧ collapsibleHeading <$> tables
      = (((λ _, Some ("Vulnerabilities", 1))
            <$> filter (λ e, e.1 = "Vulnerabilities" ∧ isArrayOfObjects e.2 = true)
                       entries)
         ++ ((λ _, Some ("Packages", 2))
               <$> filter (λ e, e.1 = "Packages" ∧ isArrayOfObjects e.2 = true)
                          entries))%list.
Proof.
  intros Hnested Hkeys.
  destruct (render_total collapsedTables (4 * size (JObject entries))) as (Ha & _).
  destruct (Ha (JObject entries) pk pri) as [node Hnode]; [lia|].
  pose proof (size_pos (JObject entries)) as Hpos.
  destruct (4 * size (JObject entries)) as [|fuel] eqn:Hfuel; [lia|].
  cbn [renderCellWithNestedArrays] in Hnode |- *.
  apply hasNestedArrays_Exists in Hnested. rewrite Hnested in Hnode |- *.
  apply hasTableKey_Exists in Hkeys. rewrite Hkeys in Hnode |- *.
  match type of Hnode with
  | (?m ≫= _) = _ => destruct m as [others|] eqn:Hothers
  end; cbn [mbind option_bind] in Hnode |- *; [|done].
  match type of Hnode with
  | (?m ≫= _) = _ => destruct m as [tables|] eqn:Htables
  end; cbn [mbind option_bind] in Hnode |- *; [|done].
  exists others, tables. split; [done|]. split.
  - rewrite <- otherEntries_keys.
    eapply mapM_keeps_labels; [|exact Hothers].
    intros [k v] r. cbn [fst].
    destruct (isArrayOfObjects v); [apply labelled_label|].
    destruct (isPlainObject v); apply labelled_label.
  - rewrite (collapsible_headings _ _ _ _ _ Htables).
    apply vulnerabilities_first.
Qed.

Lemma table_group_order_witness :
  ∃ others tables,
    renderCellWithNestedArrays ∅
      (4 * size (JObject [("Packages", JArray [JObject []]); ("n", JNull);
                          ("Vulnerabilities", JArray [JObject []])]))
      (JObject [("Packages", JArray [JObject []]); ("n", JNull);
                ("Vulnerabilities", JArray [JObject []])]) None None
    = Some (TableGroup others tables)
    ∧ others.*1 = ["n"]
    ∧ collapsibleHeading <$> tables
      = [Some ("Vulnerabilities", 1); Some ("Packages", 2)].
Proof.
  set (entries := [("Packages", JArray [JObject []]); ("n", JNull);
                   ("Vulnerabilities", JArray [JObject []])]).
  assert (H1 : Exists (λ e : string * JsonValue, isArrayOfObjects e.2 = true)
                      entries) by (left; reflexivity).
  assert (H2 : Exists (λ e : string * JsonValue, isTableKey e.1 = true) entries)
    by (left; reflexivity).
  exact (table_group_order ∅ entries None None H1 H2).
Defined.

(** ** Exporting *)

(** X14: exporting a non-empty array raises exactly when flattening one of
    its elements raises, that is, when an element is null or undefined, or
    has a value that is, or holds at any depth of nested objects, an array
    with an element that is neither an object nor an array and an element on
    which [String] raises (an object with a key named [toString], also inside
    arrays).  Otherwise it hands over a document built from one flattened
    record per element, whatever the elements are. *)
Theorem exportToCSV_array_outcome (items : list JsonValue) :
  items ≠ [] →
  (exportToCSV (JArray items) = ExportThrows
   ↔ Exists (λ item, itemRaises item = true) items)
  ∧ (Forall (λ item, itemRaises item = false) items →
     ∃ flats,
       Forall2 (λ item flattened, flattenItem item = Some flattened) items flats
       ∧ exportToCSV (JArray items) = Download (csvContent flats)).
Proof.
  intros Hne. destruct items as [|item rest]; [done|].
  rewrite exportToCSV_array, <- mapM_flattenItem_None. split.
  - by destruct (mapM flattenItem (item :: rest)).
  - intros Hall.
    destruct (mapM flattenItem (item :: rest)) as [flats|] eqn:E.
    + exists flats. split; [|done]. by apply mapM_Some.
    + apply mapM_flattenItem_None in E. apply Exists_exists in E as (x & Hx & Hraises).
      rewrite Forall_forall in Hall. specialize (Hall x Hx). congruence.
Qed.

Lemma exportToCSV_array_outcome_witness :
  exportToCSV
    (JArray [commaRecord;
             JObject [("a", JObject [("b", JArray [JNumber "1";
                                                   JArray [JObject [("toString", JNull)]]])])]])
  = ExportThrows
  ∧ ∃ flats, exportToCSV (JArray [commaRecord; JNumber "7"; JString "ab";
                                  JObject [("toString", JNumber "1")]])
             = Download (csvContent flats).
Proof.
  split.
  - apply (proj1 (exportToCSV_array_outcome
                    [commaRecord;
                     JObject [("a", JObject [("b", JArray [JNumber "1";
                        JArray [JObject [("toString", JNull)]]])])]]
                    ltac:(done))).
    apply Exists_cons_tl, Exists_cons_hd. reflexivity.
  - destruct (proj2 (exportToCSV_array_outcome
                       [commaRecord; JNumber "7"; JString "ab";
                        JObject [("toString", JNumber "1")]] ltac:(done)))
      as (flats & _ & Hdoc).
    + repeat constructor; done.
    + by exists flats.
Defined.

Lemma allKeys_elem_of (flats : list (gmap string string)) (allKeys : gset string)
    (k : string) :
  k ∈ foldl (λ allKeys flattened, allKeys ∪ dom flattened) allKeys flats
  ↔ k ∈ allKeys ∨ ∃ flattened, flattened ∈ flats ∧ is_Some (flattened !! k).
Proof.
  revert allKeys. induction flats as [|f flats IH]; intros allKeys; cbn [foldl].
  - split; [by left|]. intros [H|(f & Hf & _)]; [done|].
    by apply not_elem_of_nil in Hf.
  - rewrite IH, elem_of_union, elem_of_dom. split.
    + intros [[H|H]|(g & Hg & Hk)]; [by left| |].
      * right. exists f. split; [left|done].
      * right. exists g. split; [by right|done].
    + intros [H|(g & Hg & Hk)]; [by left; left|].
      apply elem_of_cons in Hg as [->|Hg]; [by left; right|].
      right. by exists g.
Qed.

(** X15: the header row of an export lists every path that the flattening of
    some record wrote and nothing else, each once, in ascending order of
    code units. *)
Theorem csvHeaders_spec (flats : list (gmap string string)) :
  NoDup (csvHeaders flats)
  ∧ StronglySorted String.le (csvHeaders flats)
  ∧ ∀ h, h ∈ csvHeaders flats
         ↔ ∃ flattened, flattened ∈ flats ∧ is_Some (flattened !! h).
Proof.
  unfold csvHeaders. split_and!.
  - apply sortKeys_NoDup.
  - apply sortKeys_sorted.
  - intros h. rewrite sortKeys_elem_of, allKeys_elem_of.
    split; [|by right]. intros [H|H]; [|done]. by apply not_elem_of_empty in H.
Qed.

(** ** Reading a row back *)

Lemma rowTail_not_quote (r r' : string) : rowTail r → r ≠ String dquote r'.
Proof. intros [->|[r0 ->]]; discriminate. Qed.

(** An escaped text ends at the first double quote that is not doubled. *)
Lemma replaceQuotes_tail_inj (a : string) :
  ∀ b r1 r2, rowTail r1 → rowTail r2 →
    replaceQuotes a ++ String dquote r1 = replaceQuotes b ++ String dquote r2 →
    a = b ∧ r1 = r2.
Proof.
  induction a as [|c a IH]; intros [|d b] r1 r2 H1 H2; cbn [replaceQuotes].
  - rewrite !string_app_nil_l. by intros [= ->].
  - rewrite string_app_nil_l.
    destruct (Ascii.eqb_spec d dquote) as [->|Hd]; rewrite !string_app_cons.
    + intros [= Hr]. by apply rowTail_not_quote in Hr.
    + intros [= Hq]. by rewrite Hq in Hd.
  - rewrite string_app_nil_l.
    destruct (Ascii.eqb_spec c dquote) as [->|Hc]; rewrite !string_app_cons.
    + intros [= Hr]. symmetry in Hr. by apply rowTail_not_quote in Hr.
    + intros [= Hq]. by rewrite Hq in Hc.
  - destruct (Ascii.eqb_spec c dquote) as [->|Hc],
             (Ascii.eqb_spec d dquote) as [->|Hd]; rewrite !string_app_cons.
    + intros [= Heq]. by destruct (IH b r1 r2 H1 H2 Heq) as [-> ->].
    + intros [= Hq]. by rewrite Hq in Hd.
    + intros [= Hq]. by rewrite Hq in Hc.
    + intros [= -> Heq]. by destruct (IH b r1 r2 H1 H2 Heq) as [-> ->].
Qed.

(** A text without a comma ends where the first comma stands. *)
Lemma bare_tail_inj (s : string) :
  ∀ t r1 r2, includesChar comma s = false → includesChar comma t = false →
    rowTail r1 → rowTail r2 → s ++ r1 = t ++ r2 → s = t ∧ r1 = r2.
Proof.
  induction s as [|c s IH]; intros [|d t] r1 r2 Hs Ht H1 H2;
    rewrite ?string_app_nil_l, ?string_app_cons.
  - done.
  - intros ->. destruct H1 as [?|[r' [= -> _]]]; [done|].
    cbn [includesChar] in Ht. by rewrite Ascii.eqb_refl in Ht.
  - intros <-. destruct H2 as [?|[r' [= -> _]]]; [done|].
    cbn [includesChar] in Hs. by rewrite Ascii.eqb_refl in Hs.
  - intros [= -> Heq]. cbn [includesChar] in Hs, Ht.
    apply orb_false_iff in Hs as [_ Hs]. apply orb_false_iff in Ht as [_ Ht].
    by destruct (IH t r1 r2 Hs Ht H1 H2 Heq) as [-> ->].
Qed.

Lemma needsQuoting_false (s : string) :
  needsQuoting s = false →
  includesChar comma s = false ∧ includesChar dquote s = false.
Proof.
  unfold needsQuoting. intros H.
  apply orb_false_iff in H as [H _]. by apply orb_false_iff in H.
Qed.

Lemma quoted_not_bare (a b r1 r2 : string) :
  includesChar dquote b = false → rowTail r2 →
  quotedCell a ++ r1 ≠ b ++ r2.
Proof.
  intros Hb H2. unfold quotedCell. rewrite string_app_cons.
  destruct b as [|d b]; rewrite ?string_app_nil_l, ?string_app_cons.
  - intros Hr. symmetry in Hr. by apply rowTail_not_quote in Hr.
  - intros [= <- _]. cbn [includesChar] in Hb. by rewrite Ascii.eqb_refl in Hb.
Qed.

(** A cell followed by the rest of its row determines its text. *)
Lemma csvCell_tail_inj (a b r1 r2 : string) :
  rowTail r1 → rowTail r2 → csvCell a ++ r1 = csvCell b ++ r2 → a = b ∧ r1 = r2.
Proof.
  intros H1 H2. rewrite !csvCell_specCell. unfold specCell.
  destruct (needsQuoting a) eqn:Ea, (needsQuoting b) eqn:Eb.
  - unfold quotedCell. rewrite <- !replaceQuotes_doubleQuotes.
    rewrite !string_app_cons, !string_app_assoc.
    intros [= Heq]. by apply replaceQuotes_tail_inj.
  - apply needsQuoting_false in Eb as [_ Eb]. intros Heq.
    by apply quoted_not_bare in Heq.
  - apply needsQuoting_false in Ea as [_ Ea]. intros Heq. symmetry in Heq.
    by apply quoted_not_bare in Heq.
  - apply needsQuoting_false in Ea as [Ea _].
    apply needsQuoting_false in Eb as [Eb _]. by apply bare_tail_inj.
Qed.

Lemma concat_cells_cons (x y : string) (l : list string) :
  String.concat "," (x :: y :: l) = x ++ String comma (String.concat "," (y :: l)).
Proof. reflexivity. Qed.

Lemma concat_cells_inj (vs : list string) :
  ∀ ws, length vs = length ws →
    String.concat "," (map csvCell vs) = String.concat "," (map csvCell ws) →
    vs = ws.
Proof.
  induction vs as [|a vs IH]; intros [|b ws] Hlen; try done.
  destruct vs as [|a' vs], ws as [|b' ws]; try done.
  - cbn [map String.concat]. intros Heq.
    destruct (csvCell_tail_inj a b EmptyString EmptyString) as [-> _];
      [by left | by left | by rewrite !string_app_empty_r | done].
  - cbn [map]. rewrite !concat_cells_cons. intros Heq.
    apply csvCell_tail_inj in Heq as [-> [= Heq]];
      [| right; by eexists | right; by eexists].
    f_equal. apply IH; [cbn [length] in Hlen |- *; lia | exact Heq].
Qed.

(** X16: a data row of the export can be read back: if two flattened records
    give the same row under the same headers, they hold the same text in
    every one of these columns.  Commas, double quotes and line feeds inside
    a cell never make two different records look alike. *)
Theorem csvRow_readable (hs : list string) (f1 f2 : gmap string string) :
  csvRow hs f1 = csvRow hs f2 →
  ∀ h, h ∈ hs → cellText f1 h = cellText f2 h.
Proof.
  unfold csvRow. intros Heq.
  assert (Hcells : map (cellText f1) hs = map (cellText f2) hs).
  { apply concat_cells_inj; [by rewrite !length_map|].
    by rewrite !map_map. }
  intros h Hh. apply list_elem_of_lookup_1 in Hh as [i Hi].
  apply (f_equal (λ l, l !! i)) in Hcells.
  rewrite !list_lookup_fmap, Hi in Hcells. by injection Hcells.
Qed.

Lemma csvRow_readable_witness :
  csvRow ["a"] {["a" := "x,y"]} = csvRow ["a"] (<["b" := "z"]> {["a" := "x,y"]})
  ∧ cellText {["a" := "x,y"]} "a" = cellText (<["b" := "z"]> {["a" := "x,y"]}) "a".
Proof.
  assert (Hrow : csvRow ["a"] {["a" := "x,y"]}
                 = csvRow ["a"] (<["b" := "z"]> {["a" := "x,y"]}))
    by (by vm_compute).
  split; [exact Hrow|].
  exact (csvRow_readable ["a"] _ _ Hrow "a" (list_elem_of_here "a" [])).
Defined.

(** ** The export and the table of flat records *)

Lemma isFlatRecord_entries (item : JsonValue) :
  isFlatRecord item = true →
  ∃ entries, item = JObject entries ∧ NoDup (map fst entries)
             ∧ ("__proto__" ∉ map fst entries)
             ∧ Forall (λ e, isPlainObject e.2 = false ∧ flattenRaises e.2 = false)
                      entries.
Proof.
  destruct item as [| | | | | |entries|]; try done. cbn [isFlatRecord].
  intros [[Hnd Hproto]%andb_true_iff Hflat]%andb_true_iff.
  exists entries. split; [done|].
  split; [by apply bool_decide_eq_true in Hnd|].
  split; [by apply bool_decide_eq_true in Hproto|]. clear Hnd Hproto.
  induction entries as [|[k x] entries IH]; [done|].
  cbn [forallb] in Hflat. apply andb_true_iff in Hflat as [Hx Hflat].
  apply andb_true_iff in Hx as [Hobj Hraises].
  constructor; [|by apply IH].
  split; by apply negb_true_iff.
Qed.

Lemma flat_record_writes (entries : list (string * JsonValue)) :
  Forall (λ e, isPlainObject e.2 = false ∧ flattenRaises e.2 = false) entries →
  flattenWrites entries EmptyString = map (λ e, (e.1, leafText e.2)) entries.
Proof.
  unfold flattenWrites. induction 1 as [|[k v] entries [Hv _] _ IH]; [done|].
  cbn [flat_map map fst snd] in *. rewrite IH. by destruct v.
Qed.

(** What the flattening of a flat record holds under each name. *)
Lemma flat_record_flatten (entries : list (string * JsonValue)) :
  NoDup (map fst entries) → "__proto__" ∉ map fst entries →
  Forall (λ e, isPlainObject e.2 = false ∧ flattenRaises e.2 = false) entries →
  ∃ flattened,
    flattenObject entries EmptyString = Some flattened
    ∧ ∀ k, flattened !! k = (lookupEntry k entries ≫= leafText).
Proof.
  intros Hnd Hproto Hflat.
  assert (Hpaths : (flattenWrites entries EmptyString).*1 = map fst entries).
  { rewrite flat_record_writes by done. clear.
    induction entries as [|e entries IH]; [done|]. cbn. by rewrite IH. }
  destruct (flattenObject entries EmptyString) as [flattened|] eqn:E.
  - exists flattened. split; [done|]. intros k.
    rewrite flattenObject_applyWrites in E.
    destruct (lookupEntry k entries) as [v|] eqn:Hk; cbn [mbind option_bind].
    + apply lookupEntry_Some in Hk.
      rewrite Forall_forall in Hflat. destruct (Hflat _ Hk) as [Hobj Hraises].
      cbn [snd] in Hobj, Hraises.
      destruct (leafText v) as [text|] eqn:Htext.
      * eapply applyWrites_lookup; [by rewrite Hpaths | exact E | |].
        -- rewrite flat_record_writes by (by apply Forall_forall).
           apply list_elem_of_In, in_map_iff. exists (k, v).
           split; [by rewrite <- Htext | by apply list_elem_of_In].
        -- intros ->. apply Hproto, list_elem_of_In, in_map_iff.
           exists ("__proto__", v). split; [done | by apply list_elem_of_In].
      * apply leafText_None in Htext; [congruence|done].
    + apply lookupEntry_None in Hk.
      rewrite (applyWrites_lookup_other _ _ _ k E); [done|]. by rewrite Hpaths.
  - apply flattenObject_None, Exists_exists in E as (e & Hin & Hraises).
    rewrite Forall_forall in Hflat. destruct (Hflat e Hin) as [_ Hno]. congruence.
Qed.

Lemma flat_paths_are_keys (entries : list (string * JsonValue))
    (flattened : gmap string string) (k : string) :
  Forall (λ e, isPlainObject e.2 = false ∧ flattenRaises e.2 = false) entries →
  (∀ k, flattened !! k = (lookupEntry k entries ≫= leafText)) →
  is_Some (flattened !! k) ↔ k ∈ map fst entries.
Proof.
  intros Hflat Hlookup. rewrite Hlookup.
  destruct (lookupEntry k entries) as [v|] eqn:E; cbn [mbind option_bind].
  - assert (Hin := lookupEntry_Some _ _ _ E). split.
    + intros _. apply list_elem_of_In, in_map_iff. exists (k, v).
      split; [done | by apply list_elem_of_In].
    + intros _. rewrite Forall_forall in Hflat.
      destruct (Hflat _ Hin) as [Hobj Hraises]. cbn [snd] in Hobj, Hraises.
      destruct (leafText v) eqn:Htext; [by eexists|].
      apply leafText_None in Htext; [congruence|done].
  - apply lookupEntry_None in E. split; [by intros [? ?]|done].
Qed.

(** The text of a cell of the export is the flattened text of the cell of the
    table, also where the record lacks the key and the read finds a member of
    [Object.prototype]. *)
Lemma cellText_flat (entries : list (string * JsonValue))
    (flattened : gmap string string) (h : string) :
  (∀ k, flattened !! k = (lookupEntry k entries ≫= leafText)) →
  h ≠ "__proto__" →
  Forall (λ e, isPlainObject e.2 = false ∧ flattenRaises e.2 = false) entries →
  Some (cellText flattened h) = leafText (getProp (JObject entries) h).
Proof.
  intros Hlookup Hh Hflat. unfold cellText. rewrite Hlookup. cbn [getProp].
  destruct (lookupEntry h entries) as [v|] eqn:E; cbn [mbind option_bind default].
  - apply lookupEntry_Some in E. rewrite Forall_forall in Hflat.
    destruct (Hflat _ E) as [Hobj Hraises]. cbn [snd] in Hobj, Hraises.
    destruct (leafText v) eqn:Htext; [done|].
    apply leafText_None in Htext; [congruence|done].
  - unfold inheritedMember.
    destruct (String.eqb_spec h "__proto__") as [?|_]; [done|].
    by destruct (lookupName h prototypeFunctions).
Qed.

Lemma mapM_default {A B : Type} (f : A → option B) (d : B) (l : list A) :
  Forall (λ x, is_Some (f x)) l → mapM f l = Some (map (λ x, default d (f x)) l).
Proof.
  induction 1 as [|x l [y Hy] _ IH]; [done|].
  cbn [mapM map]. rewrite Hy, IH. done.
Qed.

(** X17: for a non-empty array of flat records (objects that repeat no key,
    have no key named [__proto__], and whose values are no objects and raise
    nothing when flattened) the export and the table on the screen agree: the
    export succeeds, its header row is the table's header row, and each cell
    of each record carries the flattened text of the table cell in the same
    row and column.  Where a record lacks the key, both hold what the read
    finds on [Object.prototype], or nothing. *)
Theorem csv_matches_table (items : list JsonValue) :
  items ≠ [] → forallb isFlatRecord items = true →
  let t := getTableStructure (JArray items) [] in
  ∃ flats,
    exportToCSV (JArray items) = Download (csvContent flats)
    ∧ csvHeaders flats = headers t
    ∧ map (λ flattened, map (λ h, Some (cellText flattened h)) (headers t)) flats
      = map (map leafText) (rows t).
Proof.
  intros Hne Hflat.
  assert (Hall : ∀ item, item ∈ items →
            ∃ entries flattened,
              item = JObject entries
              ∧ ("__proto__" ∉ map fst entries)
              ∧ Forall (λ e, isPlainObject e.2 = false ∧ flattenRaises e.2 = false)
                       entries
              ∧ flattenItem item = Some flattened
              ∧ ∀ k, flattened !! k = (lookupEntry k entries ≫= leafText)).
  { intros item Hitem.
    destruct (isFlatRecord_entries item) as (entries & -> & Hnd & Hproto & Hvals).
    { rewrite forallb_forall in Hflat. by apply Hflat, list_elem_of_In. }
    destruct (flat_record_flatten entries Hnd Hproto Hvals) as (flattened & Hf & Hl).
    by exists entries, flattened. }
  destruct items as [|item rest]; [done|].
  assert (Hplain : forallb isPlainObject (item :: rest) = true).
  { apply forallb_forall. intros x Hx%list_elem_of_In.
    by destruct (Hall x Hx) as (entries & ? & -> & _). }
  rewrite getTableStructure_records by done. cbn zeta. cbn [headers rows].
  set (records := item :: rest) in *.
  assert (Hheader : ∀ h, h ∈ sortKeys (collectKeys records []) → h ≠ "__proto__").
  { intros h Hh ->. apply sortKeys_elem_of, collectKeys_elem_of in Hh
      as [_ (x & Hx & Hk)].
    destruct (Hall x Hx) as (entries & ? & -> & Hproto & _). done. }
  exists (map (λ x, default ∅ (flattenItem x)) records). split_and!.
  - subst records. rewrite exportToCSV_array, (mapM_default _ ∅); [done|].
    apply Forall_forall. intros x Hx.
    destruct (Hall x Hx) as (entries & flattened & _ & _ & _ & -> & _). by eexists.
  - unfold csvHeaders. f_equal. apply set_eq. intros k.
    rewrite allKeys_elem_of, collectKeys_elem_of. split.
    + intros [H|(f & Hf & Hk)]; [by apply not_elem_of_empty in H|].
      split; [apply not_elem_of_nil|].
      apply list_elem_of_In, in_map_iff in Hf as (x & <- & Hx%list_elem_of_In).
      exists x. split; [done|].
      destruct (Hall x Hx) as (entries & flattened & -> & _ & Hvals & Hf & Hl).
      rewrite Hf in Hk. cbn [default objectKeys] in *.
      by eapply flat_paths_are_keys.
    + intros [_ (x & Hx & Hk)]. right.
      exists (default ∅ (flattenItem x)). split.
      * apply list_elem_of_In, in_map_iff. exists x.
        split; [done | by apply list_elem_of_In].
      * destruct (Hall x Hx) as (entries & flattened & -> & _ & Hvals & Hf & Hl).
        rewrite Hf. cbn [default objectKeys] in *.
        by eapply flat_paths_are_keys.
  - rewrite !map_map. apply map_ext_in. intros x Hx%list_elem_of_In.
    destruct (Hall x Hx) as (entries & flattened & -> & _ & Hvals & Hf & Hl).
    rewrite Hf. cbn [default]. rewrite map_map.
    apply map_ext_in. intros h Hh%list_elem_of_In.
    apply cellText_flat; [done | by apply Hheader | done].
Qed.

Lemma csv_matches_table_witness :
  let items := [JObject [("b", JString "x,y"); ("a", JNull)];
                JObject [("toString", JArray [JNumber "1"; JNumber "2"])]] in
  let t := getTableStructure (JArray items) [] in
  ∃ flats,
    exportToCSV (JArray items) = Download (csvContent flats)
    ∧ csvHeaders flats = headers t
    ∧ map (λ flattened, map (λ h, Some (cellText flattened h)) (headers t)) flats
      = map (map leafText) (rows t).
Proof.
  apply (csv_matches_table
           [JObject [("b", JString "x,y"); ("a", JNull)];
            JObject [("toString", JArray [JNumber "1"; JNumber "2"])]]).
  - discriminate.
  - by vm_compute.
Defined.

(** ** The output area *)

Lemma grid_cell_size (v : JsonValue) (row : list JsonValue) (cell : JsonValue) :
  isObjectLike v = true → row ∈ rows (getTableStructure v []) → cell ∈ row →
  size cell < size v.
Proof.
  destruct v as [| | | | |items|entries | fname]; try done; intros _.
  - apply getTableStructure_cell_size.
  - cbn [getTableStructure rows]. intros Hrow Hcell.
    apply list_elem_of_In, in_map_iff in Hrow as ([k x] & <- & Hin).
    apply list_elem_of_In, list_elem_of_filter in Hin as [_ Hin].
    apply size_entry in Hin. pose proof (size_pos x).
    apply elem_of_cons in Hcell as [->|Hcell]; [cbn [size] in *; lia|].
    by apply list_elem_of_singleton in Hcell as ->.
Qed.

Lemma renderGridBody_total (collapsedTables : gset string) (fuel : nat)
    (t : TableStructure) :
  (∀ row cell, row ∈ rows t → cell ∈ row → 4 * size cell ≤ fuel) →
  is_Some (renderGridBody collapsedTables fuel t).
Proof.
  intros Hsize. unfold renderGridBody.
  apply sequence_imap_is_Some. intros i row Hrow.
  apply sequence_imap_is_Some. intros j cell Hcell.
  destruct (render_total collapsedTables fuel) as (Ha & _). apply Ha.
  eapply Hsize; by eapply list_elem_of_lookup_2.
Qed.

Lemma renderSection_total (collapsedTables : gset string) (fuel : nat)
    (key : string) (value : JsonValue) :
  4 * size value ≤ fuel →
  is_Some (renderSection collapsedTables fuel key value).
Proof.
  intros Hfuel. destruct (render_total collapsedTables fuel) as (Ha & Ht & _).
  destruct (Ha value (Some key) None Hfuel) as [node Hnode].
  unfold renderSection. rewrite Hnode.
  destruct (isNestedStructure value); [|by eexists].
  destruct (Ht key value) as [nested ->]; [lia|]. cbn [mbind option_bind].
  destruct nested; try by eexists.
  destruct (isPlainObject value) eqn:Hobj; [|by eexists].
  destruct (renderGridBody_total collapsedTables fuel (getTableStructure value []))
    as [body Hbody].
  - intros row cell Hrow Hcell.
    assert (size cell < size value); [|lia].
    eapply grid_cell_size; [by destruct value|done..].
  - cbn zeta. rewrite Hbody. by eexists.
Qed.

Lemma renderStandardTable_total (collapsedTables : gset string) (fuel : nat)
    (parsedData : JsonValue) :
  isObjectLike parsedData = true → 4 * size parsedData ≤ fuel →
  is_Some (renderStandardTable collapsedTables fuel parsedData).
Proof.
  intros Hobj Hfuel. unfold renderStandardTable. cbn zeta.
  destruct (length (rows (getTableStructure parsedData [])) =? 0);
    [by eexists|].
  destruct (renderGridBody_total collapsedTables fuel
              (getTableStructure parsedData [])) as [body Hbody].
  - intros row cell Hrow Hcell.
    assert (size cell < size parsedData); [|lia]. by eapply grid_cell_size.
  - rewrite Hbody. by eexists.
Qed.

Lemma canDisplayAsTable_objectLike (data : JsonValue) :
  negb (isFalsy data) && canDisplayAsTable data = isObjectLike data.
Proof.
  unfold canDisplayAsTable.
  destruct (isFalsy data) eqn:E; cbn [negb andb]; by destruct data.
Qed.

Lemma renderOutput_is_Some (collapsedTables : gset string) (fuel : nat)
    (inputBlank : bool) (error : option string) (parsedData : JsonValue) :
  4 * size parsedData ≤ fuel →
  is_Some (renderOutput collapsedTables fuel inputBlank error parsedData).
Proof.
  intros Hfuel. unfold renderOutput.
  destruct inputBlank; [by eexists|]. destruct (hasError error); [by eexists|].
  rewrite canDisplayAsTable_objectLike.
  destruct (isObjectLike parsedData) eqn:Hobj; [|by eexists].
  destruct parsedData as [| | | | |items|entries | fname]; try done.
  - by apply renderStandardTable_total.
  - destruct (existsb _ entries); [|by apply renderStandardTable_total].
    apply fmap_is_Some, mapM_is_Some_elem. intros [key value] Hin.
    apply renderSection_total. apply size_entry in Hin. lia.
Qed.

Lemma refines_renderGridBody (collapsedTables : gset string) (n m : nat)
    (t : TableStructure) :
  n ≤ m →
  refines (renderGridBody collapsedTables n t) (renderGridBody collapsedTables m t).
Proof.
  intros Hle. destruct (FuelRefines_le collapsedTables n m Hle) as (Ha & _).
  unfold renderGridBody. apply refines_sequence_imap. intros i row _.
  apply refines_sequence_imap. intros j cell _. apply Ha.
Qed.

Lemma refines_renderSection (collapsedTables : gset string) (n m : nat)
    (key : string) (value : JsonValue) :
  n ≤ m →
  refines (renderSection collapsedTables n key value)
          (renderSection collapsedTables m key value).
Proof.
  intros Hle. destruct (FuelRefines_le collapsedTables n m Hle) as (Ha & Ht & _).
  unfold renderSection.
  destruct (isNestedStructure value); [|apply refines_fmap, Ha].
  apply refines_bind; [apply Ht|]. intros nested.
  destruct nested; try apply refines_refl.
  destruct (isPlainObject value); [|apply refines_fmap, Ha].
  cbn zeta. apply refines_bind; [by apply refines_renderGridBody|].
  intros body. apply refines_refl.
Qed.

Lemma refines_renderStandardTable (collapsedTables : gset string) (n m : nat)
    (parsedData : JsonValue) :
  n ≤ m →
  refines (renderStandardTable collapsedTables n parsedData)
          (renderStandardTable collapsedTables m parsedData).
Proof.
  intros Hle. unfold renderStandardTable. cbn zeta.
  apply refines_bind; [|intros; apply refines_refl].
  destruct (_ =? 0); [apply refines_refl|].
  by apply refines_fmap, refines_renderGridBody.
Qed.

Lemma refines_renderOutput (collapsedTables : gset string) (n m : nat)
    (inputBlank : bool) (error : option string) (parsedData : JsonValue) :
  n ≤ m →
  refines (renderOutput collapsedTables n inputBlank error parsedData)
          (renderOutput collapsedTables m inputBlank error parsedData).
Proof.
  intros Hle. unfold renderOutput.
  destruct inputBlank; [apply refines_refl|].
  destruct (hasError error); [apply refines_refl|].
  destruct (negb (isFalsy parsedData) && canDisplayAsTable parsedData);
    [|apply refines_refl].
  destruct parsedData as [| | | | |items|entries | fname];
    try by apply refines_renderStandardTable.
  destruct (existsb _ entries); [|by apply refines_renderStandardTable].
  apply refines_fmap, refines_mapM. intros [key value] _.
  by apply refines_renderSection.
Qed.

(** X18: the output area is drawn in every state of the page: whatever the
    input flag, the error message, the collapse state and the parsed
    document, the rendering returns a view as soon as its fuel is four times
    the size of the document, and more fuel gives the same view. *)
Theorem renderOutput_total (collapsedTables : gset string) (inputBlank : bool)
    (error : option string) (parsedData : JsonValue) :
  ∃ view, ∀ extra,
    renderOutput collapsedTables (4 * size parsedData + extra)
                 inputBlank error parsedData = Some view.
Proof.
  destruct (renderOutput_is_Some collapsedTables (4 * size parsedData)
              inputBlank error parsedData) as [view Hview]; [done|].
  exists view. intros extra.
  by apply (refines_renderOutput collapsedTables (4 * size parsedData)); [lia|].
Qed.

Lemma renderNestedTable_Some (collapsedTables : gset string) (fuel : nat)
    (key : string) (value : JsonValue) (node : RenderNode) :
  renderNestedTable collapsedTables fuel key value = Some node →
  if isArrayOfObjects value
  then ∃ columns body, node = Table key columns (arrayLength value) body
  else node = Nothing.
Proof.
  destruct fuel as [|fuel]; [done|]. cbn [renderNestedTable].
  destruct (isArrayOfObjects value); [|by intros [= <-]].
  cbn zeta. destruct (sequence _) as [body|]; cbn [mbind option_bind]; [|done].
  intros [= <-]. by eexists _, _.
Qed.

Lemma grid_object_rows (entries : list (string * JsonValue)) :
  rows (getTableStructure (JObject entries) [])
  = map (λ '(key, value), [JString key; value]) entries.
Proof.
  cbn [getTableStructure rows]. f_equal.
  induction entries as [|[k v] entries IH]; [done|].
  rewrite filter_cons. destruct (decide _) as [_|Hex].
  - by rewrite IH.
  - exfalso. apply Hex. apply not_elem_of_nil.
Qed.

Lemma existsb_nested_Exists (entries : list (string * JsonValue)) :
  existsb (λ '(_, value), isNestedStructure value) entries = true
  ↔ Exists (λ e, isNestedStructure e.2 = true) entries.
Proof.
  induction entries as [|[k v] entries IH]; cbn [existsb].
  - split; [done | by intros ?%Exists_nil].
  - by rewrite orb_true_iff, Exists_cons, IH.
Qed.

(** What one section is, by the shape of the value under its key. *)
Lemma renderSection_Some (collapsedTables : gset string) (fuel : nat)
    (key : string) (value : JsonValue) (s : SectionView) :
  renderSection collapsedTables fuel key value = Some s →
  sectionKey s = key
  ∧ match value with
    | JArray items =>
        if isArrayOfObjects value
        then ∃ columns body,
               s = NestedSection key (Table key columns (length items) body)
        else ∃ node, s = PairSection key node
    | JObject ((_ :: _) as entries) =>
        ∃ body, s = ObjectSection key true ["Key"; "Value"] body
                ∧ length body = length entries
    | _ => ∃ node, s = PairSection key node
    end.
Proof.
  unfold renderSection.
  assert (Hpair : ∀ s,
    PairSection key
      <$> renderCellWithNestedArrays collapsedTables fuel value (Some key) None
    = Some s → sectionKey s = key ∧ ∃ node, s = PairSection key node).
  { intros s'. destruct (renderCellWithNestedArrays _ _ _ _ _) as [node|];
      [|done]. intros [= <-]. split; [done|]. by exists node. }
  destruct value as [| | b | n | str | items | entries | fname];
    try (cbn [isNestedStructure]; by apply Hpair).
  - change (isNestedStructure (JArray items)) with (isArrayOfObjects (JArray items)).
    destruct (isArrayOfObjects (JArray items)) eqn:Harr; [|by apply Hpair].
    destruct (renderNestedTable _ _ _ _) as [nested|] eqn:Hnested; [|done].
    apply renderNestedTable_Some in Hnested. rewrite Harr in Hnested.
    destruct Hnested as (columns & body & ->). cbn [mbind option_bind].
    intros [= <-]. split; [done|]. by exists columns, body.
  - destruct entries as [|e entries]; [by apply Hpair|].
    cbn [isNestedStructure map length Nat.eqb negb].
    destruct (renderNestedTable _ _ _ _) as [nested|] eqn:Hnested; [|done].
    apply renderNestedTable_Some in Hnested. cbn [isArrayOfObjects] in Hnested.
    subst nested. cbn [mbind option_bind isPlainObject]. cbn zeta.
    destruct (renderGridBody _ _ _) as [body|] eqn:Hbody; [|done].
    cbn [mbind option_bind]. intros [= <-]. split; [done|].
    exists body. split; [done|].
    unfold renderGridBody in Hbody. apply sequence_imap_rows in Hbody as [-> _].
    by rewrite grid_object_rows, length_map.
Qed.

(** X19: what the output area shows for a parsed document when the input is
    not blank and no error is set.  A document that is neither an array nor
    an object gets the message that it cannot be displayed.  An array gets
    the standard table with the columns of its grid and a copy column; the
    export button is there exactly when the array is not empty, and the body
    is the single row reading No data exactly when the array is empty,
    otherwise one row per element.  An object with a nested structure among
    its values gets one section per entry, in order: a nested table titled by
    the key for an array of objects, a Key and Value table with an export
    button for a non-empty object, and the key beside its rendered value for
    anything else.  An object without nested structures gets the standard
    Key and Value table without export button and copy column. *)
Theorem renderOutput_by_shape (collapsedTables : gset string) (fuel : nat)
    (parsedData : JsonValue) (view : OutputView) :
  renderOutput collapsedTables fuel false None parsedData = Some view →
  match parsedData with
  | JArray items =>
      ∃ body,
        view = StandardTable (negb (Nat.eqb (length items) 0))
                 (headers (getTableStructure parsedData [])) true body
        ∧ match body with
          | None => items = []
          | Some grid => items ≠ [] ∧ length grid = length items
          end
  | JObject entries =>
      (Exists (λ e, isNestedStructure e.2 = true) entries →
       ∃ sections,
         view = Sections sections
         ∧ Forall2 (λ e s,
             sectionKey s = e.1
             ∧ match e.2 with
               | JArray items =>
                   if isArrayOfObjects e.2
                   then ∃ columns body,
                     s = NestedSection e.1 (Table e.1 columns (length items) body)
                   else ∃ node, s = PairSection e.1 node
               | JObject ((_ :: _) as nested) =>
                   ∃ body, s = ObjectSection e.1 true ["Key"; "Value"] body
                           ∧ length body = length nested
               | _ => ∃ node, s = PairSection e.1 node
               end) entries sections)
      ∧ (Forall (λ e, isNestedStructure e.2 = false) entries →
         ∃ body,
           view = StandardTable false ["Key"; "Value"] false body
           ∧ match body with
             | None => entries = []
             | Some grid => length grid = length entries
             end)
  | _ => view = CannotDisplay
  end.
Proof.
  unfold renderOutput. cbn [hasError]. rewrite canDisplayAsTable_objectLike.
  destruct parsedData as [| | b | n | str | items | entries | fname];
    cbn [isObjectLike]; try by intros [= <-].
  - unfold renderStandardTable. cbn zeta. cbn [isArray arrayLength andb].
    rewrite grid_row_count.
    destruct (length items =? 0) eqn:Hlen; cbn [mbind option_bind].
    + intros [= <-]. exists None. split; [done|]. by destruct items.
    + destruct (renderGridBody _ _ _) as [grid|] eqn:Hgrid; [|done].
      cbn. intros [= <-]. exists (Some grid). split; [done|].
      split; [by intros ->|].
      unfold renderGridBody in Hgrid.
      apply sequence_imap_rows in Hgrid as [-> _]. apply grid_row_count.
  - intros Hview. split.
    + intros Hnested. apply existsb_nested_Exists in Hnested.
      rewrite Hnested in Hview.
      destruct (mapM _ entries) as [sections|] eqn:Hsections; [|done].
      injection Hview as <-. exists sections. split; [done|].
      apply mapM_Some in Hsections.
      eapply Forall2_impl; [exact Hsections|].
      intros [key value] s Hs. by apply renderSection_Some in Hs.
    + intros Hflat.
      assert (Hnone : existsb (λ '(_, value), isNestedStructure value) entries
                      = false).
      { clear Hview. induction Hflat as [|[k v] entries Hv _ IH]; [done|].
        cbn [snd existsb] in Hv |- *. by rewrite Hv, IH. }
      rewrite Hnone in Hview. revert Hview.
      unfold renderStandardTable. cbn zeta. cbn [isArray andb].
      rewrite grid_object_rows, length_map.
      destruct (length entries =? 0) eqn:Hlen; cbn [mbind option_bind].
      * intros [= <-]. exists None. split; [done|]. by destruct entries.
      * destruct (renderGridBody _ _ _) as [grid|] eqn:Hgrid; [|done].
        cbn. intros [= <-]. exists (Some grid). split; [done|].
        unfold renderGridBody in Hgrid.
        apply sequence_imap_rows in Hgrid as [-> _].
        by rewrite grid_object_rows, length_map.
Qed.

Lemma renderOutput_by_shape_witness :
  ∃ view,
    renderOutput ∅ 40 false None
      (JObject [("a", JArray [JObject [("x", JNumber "1")]]);
                ("b", JObject [("k", JNull)]); ("c", JNumber "3")])
    = Some view
    ∧ ∃ sections, view = Sections sections
                  ∧ sectionKey <$> sections = ["a"; "b"; "c"].
Proof.
  eexists. split; [by vm_compute|].
  destruct (renderOutput_by_shape ∅ 40
              (JObject [("a", JArray [JObject [("x", JNumber "1")]]);
                        ("b", JObject [("k", JNull)]); ("c", JNumber "3")])
              _ ltac:(by vm_compute)) as [Hsections _].
  destruct Hsections as (sections & Hview & _).
  - apply Exists_cons_hd. reflexivity.
  - exists sections. split; [exact Hview|]. by injection Hview as <-.
Defined.

(** ** Identifiers of the collapsible tables in cells *)

Lemma cell_table_state (collapsedTables : gset string) (fuel : nat)
    (v : JsonValue) (pk : string) (pri : option nat) (node : RenderNode) :
  isTableKey pk = true → isArrayOfObjects v = true →
  renderCellWithNestedArrays collapsedTables fuel v (Some pk) pri = Some node →
  let tableId := "table-" ++ rowIndexText pri ++ "-" ++ pk in
  collapsibleState node = Some (tableId, bool_decide (tableId ∈ collapsedTables)).
Proof.
  intros Hkey Harr. destruct fuel as [|fuel]; [done|].
  destruct v as [| | | | |items| | fname]; try done.
  cbn [renderCellWithNestedArrays]. rewrite Harr, Hkey.
  intros Hnode. by apply renderCollapsibleTable_Some in Hnode as (grid & -> & _).
Qed.

(** X20: the collapse state of a collapsible table drawn in a cell is keyed by
    the parent key and the row index alone.  Two non-empty arrays of objects
    rendered under the same key [Packages] or [Vulnerabilities] and the same
    row index both become collapsible tables with one and the same
    identifier, whatever they hold, so in every collapse state they are
    collapsed together or expanded together. *)
Theorem cell_tables_share_state (collapsedTables : gset string)
    (v1 v2 : JsonValue) (pk : string) (pri : option nat) :
  isTableKey pk = true → isArrayOfObjects v1 = true → isArrayOfObjects v2 = true →
  let tableId := "table-" ++ rowIndexText pri ++ "-" ++ pk in
  ∃ node1 node2,
    renderCellWithNestedArrays collapsedTables (4 * size v1) v1 (Some pk) pri
    = Some node1
    ∧ renderCellWithNestedArrays collapsedTables (4 * size v2) v2 (Some pk) pri
      = Some node2
    ∧ collapsibleState node1
      = Some (tableId, bool_decide (tableId ∈ collapsedTables))
    ∧ collapsibleState node2
      = Some (tableId, bool_decide (tableId ∈ collapsedTables)).
Proof.
  intros Hkey Harr1 Harr2 tableId.
  destruct (render_total collapsedTables (4 * size v1)) as (Ha1 & _).
  destruct (render_total collapsedTables (4 * size v2)) as (Ha2 & _).
  destruct (Ha1 v1 (Some pk) pri) as [node1 Hnode1]; [lia|].
  destruct (Ha2 v2 (Some pk) pri) as [node2 Hnode2]; [lia|].
  exists node1, node2. split; [exact Hnode1|]. split; [exact Hnode2|].
  split.
  - exact (cell_table_state _ _ _ _ _ _ Hkey Harr1 Hnode1).
  - exact (cell_table_state _ _ _ _ _ _ Hkey Harr2 Hnode2).
Qed.

Lemma cell_tables_share_state_witness :
  ∃ node1 node2,
    renderCellWithNestedArrays ∅ (4 * size (JArray [JObject [("n", JNumber "1")]]))
      (JArray [JObject [("n", JNumber "1")]]) (Some "Packages") (Some 0)
    = Some node1
    ∧ renderCellWithNestedArrays ∅
        (4 * size (JArray [JObject [("m", JNull)]; JArray []]))
        (JArray [JObject [("m", JNull)]; JArray []]) (Some "Packages") (Some 0)
      = Some node2
    ∧ collapsibleState node1
      = Some ("table-0-Packages",
              bool_decide ("table-0-Packages" ∈ (∅ : gset string)))
    ∧ collapsibleState node2
      = Some ("table-0-Packages",
              bool_decide ("table-0-Packages" ∈ (∅ : gset string))).
Proof.
  exact (cell_tables_share_state ∅ (JArray [JObject [("n", JNumber "1")]])
           (JArray [JObject [("m", JNull)]; JArray []]) "Packages" (Some 0)
           eq_refl eq_refl eq_refl).
Defined.

(** ** The statistics and the output area *)

(** X21: whenever the output area shows a table or sections, the statistics
    are drawn too, and their Items figure is what the output area shows: the
    number of rows of the standard table (0 beside the row reading No data),
    or the number of sections. *)
Theorem stats_items_match_view (collapsedTables : gset string) (fuel : nat)
    (parsedData : JsonValue) (view : OutputView) :
  renderOutput collapsedTables fuel false None parsedData = Some view →
  view ≠ CannotDisplay →
  ∃ stats,
    renderStats parsedData = Some stats
    ∧ match view with
      | Sections sections => length sections = statsItems stats
      | StandardTable _ _ _ body => length (default [] body) = statsItems stats
      | _ => False
      end.
Proof.
  unfold renderOutput. cbn [hasError]. rewrite canDisplayAsTable_objectLike.
  assert (Hstandard : ∀ n,
    length (rows (getTableStructure parsedData [])) = n →
    renderStandardTable collapsedTables fuel parsedData = Some view →
    match view with
    | Sections sections => length sections = n
    | StandardTable _ _ _ body => length (default [] body) = n
    | _ => False
    end).
  { intros n Hn. unfold renderStandardTable. cbn zeta. rewrite Hn.
    destruct (n =? 0) eqn:Hzero; cbn [mbind option_bind].
    - intros [= <-]. cbn. by apply Nat.eqb_eq in Hzero.
    - destruct (renderGridBody _ _ _) as [grid|] eqn:Hgrid; [|done].
      cbn. intros [= <-]. cbn.
      unfold renderGridBody in Hgrid.
      by apply sequence_imap_rows in Hgrid as [-> _]. }
  destruct parsedData as [| | b | n | str | items | entries | fname];
    cbn [isObjectLike]; try by intros [= <-].
  - intros Hview _. eexists. split; [reflexivity|]. cbn [statsItems].
    apply Hstandard; [apply grid_row_count | exact Hview].
  - intros Hview _. eexists. split; [reflexivity|].
    cbn [statsItems isArray objectEntries default].
    destruct (existsb _ entries).
    + destruct (mapM _ entries) as [sections|] eqn:Hsections; [|done].
      injection Hview as <-. by apply length_mapM in Hsections.
    + apply Hstandard; [|exact Hview]. by rewrite grid_object_rows, length_map.
Qed.

Lemma stats_items_match_view_witness :
  ∃ view stats,
    renderOutput ∅ 40 false None
      (JArray [JNumber "1"; JObject [("a", JNull)]; JArray []]) = Some view
    ∧ renderStats (JArray [JNumber "1"; JObject [("a", JNull)]; JArray []])
      = Some stats
    ∧ statsItems stats = 3
    ∧ match view with
      | Sections sections => length sections = statsItems stats
      | StandardTable _ _ _ body => length (default [] body) = statsItems stats
      | _ => False
      end.
Proof.
  eexists.
  destruct (stats_items_match_view ∅ 40
              (JArray [JNumber "1"; JObject [("a", JNull)]; JArray []])
              _ ltac:(by vm_compute) ltac:(discriminate))
    as (stats & Hstats & Hitems).
  exists stats. split; [by vm_compute|]. split; [exact Hstats|].
  split; [by injection Hstats as <-|exact Hitems].
Defined.
